(** * Index-based alert system: spatiotemporal clustering and alert-index optimisation

    A shallow embedding of [02_spatiotemporal_clustering.py] and
    [04_mo_optimization.py], with the properties of the specification
    stated over it.

    Numbers.  The scripts compute on NumPy [float64] values.  They are
    embedded as exact rationals extended with the three special values of
    IEEE arithmetic ([np_float]); rounding is left out, the special values
    are kept, because [0.0 / 0.0] on NumPy scalars is a warning and a
    [nan], not an exception.  Calendar dates are day ordinals in [Z].

    Libraries.  The functions of NumPy that the scripts call are embedded
    in the module [NumPy], the clustering routine in the module [sklearn];
    the geodesic distance of geopy and the solver of SciPy are parameters.
    Reading and writing of files is left out: a stage takes its table and
    returns what it writes. *)

From Stdlib Require Import QArith Qabs Qround Lia Lqa.
From stdpp Require Import base list gmap strings.
From Stdlib Require Import Qminmax Sorted.

(** ** Exceptions and the result of a fallible computation *)

Inductive exception : Type :=
| ValueError (msg : string)
| ZeroDivisionError (msg : string).

(** [Diverge] is not a Python outcome: it marks a run of the embedding
    that used up the step budget of a [while] loop.
    [cluster_records_returns] shows that the budget given is never used
    up. *)
Inductive result (A : Type) : Type :=
| Ok (a : A)
| Raise (e : exception)
| Diverge.
Arguments Ok {A} a.
Arguments Raise {A} e.
Arguments Diverge {A}.

Global Instance result_bind : MBind result := λ A B k r,
  match r with
  | Ok a => k a
  | Raise e => Raise e
  | Diverge => Diverge
  end.

(** ** NumPy scalars and arrays *)

Module NumPy.

Inductive np_float : Type :=
| Fin (q : Q)
| PInf
| NInf
| NaN.

(** [a <= b] on floats: every comparison with [nan] is false. *)
Definition fle (a b : np_float) : bool :=
  match a, b with
  | NaN, _ | _, NaN => false
  | NInf, _ => true
  | _, PInf => true
  | Fin x, Fin y => Qle_bool x y
  | _, _ => false
  end.

(** [a < b] on floats. *)
Definition flt (a b : np_float) : bool :=
  match a, b with
  | NaN, _ | _, NaN => false
  | Fin x, Fin y => negb (Qle_bool y x)
  | NInf, (Fin _ | PInf) => true
  | Fin _, PInf => true
  | _, _ => false
  end.

Definition fge (a b : np_float) : bool := fle b a.

Definition fadd (a b : np_float) : np_float :=
  match a, b with
  | NaN, _ | _, NaN => NaN
  | PInf, NInf | NInf, PInf => NaN
  | PInf, _ | _, PInf => PInf
  | NInf, _ | _, NInf => NInf
  | Fin x, Fin y => Fin (x + y)
  end.

Definition fneg (a : np_float) : np_float :=
  match a with
  | Fin x => Fin (- x)
  | PInf => NInf
  | NInf => PInf
  | NaN => NaN
  end.

(** [a / b] on NumPy scalars: a zero divisor gives [nan] for a zero
    dividend and an infinity otherwise (with a [RuntimeWarning] only). *)
Definition fdiv (a b : np_float) : np_float :=
  match a, b with
  | NaN, _ | _, NaN => NaN
  | (PInf | NInf), (PInf | NInf) => NaN
  | Fin _, (PInf | NInf) => Fin 0
  | Fin x, Fin y =>
      if Qeq_bool y 0 then
        if Qeq_bool x 0 then NaN
        else if Qle_bool 0 x then PInf else NInf
      else Fin (x / y)
  | PInf, Fin y => if Qle_bool 0 y then PInf else NInf
  | NInf, Fin y => if Qle_bool 0 y then NInf else PInf
  end.

(** The binary step of [np.max]: [nan] propagates. *)
Definition fmax (a b : np_float) : np_float :=
  match a, b with
  | NaN, _ | _, NaN => NaN
  | _, _ => if fle a b then b else a
  end.

Definition isfinite (a : np_float) : bool :=
  match a with Fin _ => true | _ => false end.

(** A two-dimensional array, stored by rows. *)
Abbreviation matrix := (list (list np_float)).

(** [np.zeros((n, m))] *)
Definition zeros (n m : nat) : matrix := replicate n (replicate m (Fin 0)).

(** [a.shape[0]] *)
Definition shape0 (a : matrix) : nat := length a.

Definition get2 (a : matrix) (i j : nat) : option np_float :=
  a !! i ≫= (.!! j).

(** [a[i][j]] as a value.  Python raises [IndexError] outside the array;
    every read of the embedded code is inside it (see [fill_sym_get2]),
    and the value chosen for the other case is never used. *)
Definition getitem (a : matrix) (i j : nat) : np_float :=
  default NaN (get2 a i j).

(** [a[i][j] = v] *)
Definition setitem (a : matrix) (i j : nat) (v : np_float) : matrix :=
  alter (<[j := v]>) i a.

(** [a[a >= 0]]: the selected entries, in row-major order. *)
Definition mask_ge0 (a : matrix) : list np_float :=
  filter (λ x, fge x (Fin 0) = true) (concat a).

(** [np.max] of a one-dimensional selection; [None] stands for the
    [ValueError] NumPy raises on an empty one. *)
Definition max (l : list np_float) : option np_float :=
  match l with
  | [] => None
  | x :: l' => Some (foldl fmax x l')
  end.

(** [np.add(a, b)] on arrays of one shape. *)
Definition add (a b : matrix) : matrix := zip_with (zip_with fadd) a b.

(** [range(a, b)] *)
Definition range (a b : nat) : list nat := seq a (b - a).

Definition fsub (a b : np_float) : np_float := fadd a (fneg b).

Definition fmul (a b : np_float) : np_float :=
  match a, b with
  | NaN, _ | _, NaN => NaN
  | Fin x, Fin y => Fin (x * y)
  | Fin x, PInf | PInf, Fin x =>
      if Qeq_bool x 0 then NaN else if Qle_bool 0 x then PInf else NInf
  | Fin x, NInf | NInf, Fin x =>
      if Qeq_bool x 0 then NaN else if Qle_bool 0 x then NInf else PInf
  | PInf, PInf | NInf, NInf => PInf
  | PInf, NInf | NInf, PInf => NInf
  end.

(** [np.sum] of a one-dimensional array of finite values. *)
Definition sum (a : list Q) : Q := foldl Qplus 0%Q a.

(** [np.dot(a, w)] of a table [a] and a vector [w]. *)
Definition dot (a : list (list Q)) (w : list Q) : result (list Q) :=
  if forallb (λ row, length row =? length w) a
  then Ok ((λ row, sum (zip_with Qmult row w)) <$> a)
  else Raise (ValueError "shapes not aligned").

(** [np.average(a, weights=wgt)] *)
Definition average (a wgt : list Q) : result Q :=
  let scl := sum wgt in
  if Qeq_bool scl 0%Q
  then Raise (ZeroDivisionError "Weights sum to zero, can't be normalized")
  else Ok (sum (zip_with Qmult a wgt) / scl)%Q.

(** [np.mean(a)] and [np.var(a)]: [nan] on an empty array. *)
Definition mean (a : list Q) : np_float :=
  fdiv (Fin (sum a)) (Fin (inject_Z (Z.of_nat (length a)))).

Definition var (a : list Q) : np_float :=
  match mean a with
  | Fin m => fdiv (Fin (sum ((λ x, Qabs (x - m) ^ 2)%Q <$> a)))
                  (Fin (inject_Z (Z.of_nat (length a))))
  | _ => NaN
  end.

(** [np.arange(start, stop, step)] *)
Definition arange (start stop step : Q) : list Q :=
  (λ k, start + inject_Z (Z.of_nat k) * step)%Q <$>
      (seq 0 (Z.to_nat (Qceiling ((stop - start) / step)%Q))).

(** [np.ones(n) / n] *)
Definition ones_div (n : nat) : list Q :=
  replicate n (1 / inject_Z (Z.of_nat n))%Q.

End NumPy.

Import NumPy.

(** ** 02_spatiotemporal_clustering.py *)

(** One row of the input table: the three columns the stage reads. *)
Record observation : Type := {
  r_lat : Q;
  r_long : Q;
  r_data : Z
}.

Global Instance observation_inhabited : Inhabited observation :=
  populate {| r_lat := 0; r_long := 0; r_data := 0 |}.

(** [X.iloc[i]] *)
Definition iloc (X : list observation) (i : nat) : observation := X !!! i.

Section Clustering.

(** [geopy.distance.geodesic(p, q).km], a library function of two
    latitude/longitude pairs (on coordinates that geopy accepts). *)
Variable geodesic : Q * Q → Q * Q → Q.

Definition within_distance_limit (point1 point2 : observation) (distance_limit : Q)
  : np_float :=
  let distance :=
    geodesic (r_lat point1, r_long point1) (r_lat point2, r_long point2) in
  if Qle_bool distance distance_limit then Fin distance else Fin (-1).

Definition within_time_limit (date1 date2 : observation) (time_limit : Z)
  : np_float :=
  let delta := Z.abs (r_data date1 - r_data date2) in
  if (delta <=? time_limit)%Z then Fin (inject_Z delta) else Fin (-1).

Definition calculate_dist_time (X : list observation) (time_limit : Z)
    (distance_limit : Q) : matrix * matrix :=
  let n := length X in
  let matrix_dist := zeros n n in
  let matrix_time := zeros n n in
  foldl (λ st i,
    foldl (λ '(matrix_dist, matrix_time) j,
      let distance := within_distance_limit (iloc X i) (iloc X j) distance_limit in
      let matrix_dist := setitem matrix_dist i j distance in
      let matrix_dist := setitem matrix_dist j i (getitem matrix_dist i j) in
      let dist_time := within_time_limit (iloc X i) (iloc X j) time_limit in
      let matrix_time := setitem matrix_time i j dist_time in
      let matrix_time := setitem matrix_time j i (getitem matrix_time i j) in
      (matrix_dist, matrix_time))
      st (range (i + 1) n))
    (matrix_dist, matrix_time) (range 0 n).

End Clustering.

Definition calculate_normalized_matrices (distance_matrix time_matrix : matrix)
  : result (matrix * matrix) :=
  let n := shape0 distance_matrix in
  match NumPy.max (mask_ge0 distance_matrix), NumPy.max (mask_ge0 time_matrix) with
  | None, _ | _, None =>
      Raise (ValueError "zero-size array to reduction operation maximum which has no identity")
  | Some max_dist, Some max_time =>
      let norm_distance_matrix := zeros n n in
      let norm_time_matrix := zeros n n in
      Ok (foldl (λ st i,
        foldl (λ '(norm_distance_matrix, norm_time_matrix) j,
          let norm_distance_matrix :=
            if flt (getitem distance_matrix i j) (Fin 0)
            then setitem norm_distance_matrix i j (Fin 99999)
            else setitem norm_distance_matrix i j
                   (fdiv (getitem distance_matrix i j) max_dist) in
          let norm_distance_matrix :=
            setitem norm_distance_matrix j i (getitem norm_distance_matrix i j) in
          let norm_time_matrix :=
            if flt (getitem time_matrix i j) (Fin 0)
            then setitem norm_time_matrix i j (Fin 99999)
            else setitem norm_time_matrix i j
                   (fdiv (getitem time_matrix i j) max_time) in
          let norm_time_matrix :=
            setitem norm_time_matrix j i (getitem norm_time_matrix i j) in
          (norm_distance_matrix, norm_time_matrix))
          st (range (i + 1) n))
        (norm_distance_matrix, norm_time_matrix) (range 0 n))
  end.

(** ** Density clustering (sklearn.cluster.DBSCAN, metric = precomputed)

    The clustering routine is a library routine: its code is not in the
    repository.  Its parts are embedded here, in the order in which
    [fit_predict] uses them. *)

Module sklearn.

Record DBSCAN : Type := {
  eps : Q;
  min_samples : nat
}.

(** The indices [j >= j0] of the entries of a row that are [<= radius]. *)
Fixpoint where_le (radius : np_float) (row : list np_float) (j0 : nat) : list nat :=
  match row with
  | [] => []
  | d :: row' =>
      if fle d radius then j0 :: where_le radius row' (S j0)
      else where_le radius row' (S j0)
  end.

Definition radius_neighbors (radius : Q) (X : matrix) : list (list nat) :=
  (λ row, where_le (Fin radius) row 0) <$> X.

(** The [while True] loop of [dbscan_inner]: a depth-first search from
    [i] that labels with [label_num]; the head of [stack] is its back. *)
Fixpoint depth_first_search (fuel : nat) (is_core : list bool)
    (neighborhoods : list (list nat)) (label_num : Z)
    (i : nat) (stack : list nat) (labels : list Z) : result (list Z) :=
  match fuel with
  | O => Diverge
  | S fuel =>
      let '(labels, stack) :=
        if bool_decide (labels !! i = Some (-1)%Z) then
          let labels := <[i := label_num]> labels in
          if default false (is_core !! i) then
            (labels,
             foldl (λ stack v,
                      if bool_decide (labels !! v = Some (-1)%Z)
                      then v :: stack else stack)
                   stack (default [] (neighborhoods !! i)))
          else (labels, stack)
        else (labels, stack) in
      match stack with
      | [] => Ok labels
      | v :: stack =>
          depth_first_search fuel is_core neighborhoods label_num v stack labels
      end
  end.

Definition dbscan_inner (is_core : list bool) (neighborhoods : list (list nat))
    (labels : list Z) : result (list Z) :=
  let n := length labels in
  '(labels, _) ←
    foldl (λ st i,
      '(labels, label_num) ← st;
      if bool_decide (labels !! i ≠ Some (-1)%Z) || negb (default false (is_core !! i))
      then Ok (labels, label_num)
      else
        labels ← depth_first_search (S (n * S n)) is_core neighborhoods
                   label_num i [] labels;
        Ok (labels, (label_num + 1)%Z))
      (Ok (labels, 0%Z)) (range 0 n);
  Ok labels.

(** Modelled from the spec: the density-clustering routine
    [DBSCAN(eps, min_samples, metric='precomputed').fit_predict(X)],
    which the specification describes as the standard expansion algorithm
    over the adjacency obtained by thresholding the combined matrix at
    [eps], with a minimum density of 1 or 2 for a core point and the
    label -1 for noise.  Where the specification is silent the embedding
    follows the library: the input is validated first, and an array that
    holds a [nan] or an infinity is rejected with a [ValueError]; the
    neighbourhood of a row holds the columns at a distance [<= eps] (the
    specification writes [< eps]; a combined matrix without [nan] has no
    entry between 2 and 99999, see [out_of_range_pair_is_unreachable], so
    that the two readings agree on it); labels are assigned by
    [dbscan_inner], a depth-first search with an explicit stack, in the
    order of the rows. *)
Definition fit_predict (self : DBSCAN) (X : matrix) : result (list Z) :=
  if forallb (forallb isfinite) X then
    let neighborhoods := radius_neighbors (eps self) X in
    let n_neighbors := length <$> neighborhoods in
    let core_samples := (λ k, bool_decide (min_samples self ≤ k)) <$> n_neighbors in
    let labels := replicate (shape0 X) (-1)%Z in
    dbscan_inner core_samples neighborhoods labels
  else Raise (ValueError "Input X contains NaN or infinity").

End sklearn.

Section ClusterRecords.

Variable geodesic : Q * Q → Q * Q → Q.

(** The tables the stage has written, in order, and how it ended:
    [Ok] with the two label columns of the clusters table, or the
    exception its [except] branch reported. *)
Definition cluster_records (X : list observation) (time_limit : Z)
    (distance_limit : Q) : list (string * matrix) * result (list Z * list Z) :=
  let '(distance_matrix, time_matrix) :=
    calculate_dist_time geodesic X time_limit distance_limit in
  let saved := [("distance_matrix", distance_matrix); ("time_matrix", time_matrix)] in
  match calculate_normalized_matrices distance_matrix time_matrix with
  | Ok (norm_distance_matrix, norm_time_matrix) =>
      let total_distance := NumPy.add norm_distance_matrix norm_time_matrix in
      let saved := saved ++ [("total_distance", total_distance)] in
      let dbs1 := {| sklearn.eps := 500; sklearn.min_samples := 1 |} in
      let dbs2 := {| sklearn.eps := 500; sklearn.min_samples := 2 |} in
      (saved,
       labels1 ← sklearn.fit_predict dbs1 total_distance;
       labels2 ← sklearn.fit_predict dbs2 total_distance;
       Ok (labels1, labels2))
  | Raise e => (saved, Raise e)
  | Diverge => (saved, Diverge)
  end.

End ClusterRecords.

(** ** 04_mo_optimization.py *)

(** One row of the cluster-feature table: the seven columns of the alert
    index, in the order of [alert_cols]. *)
Record features : Type := {
  num_reg : Q;
  intervalo : Q;
  freq_num_reg : Q;
  freq_a_quant : Q;
  extensao : Q;
  perc_mortos : Q;
  morto : Q
}.

(** [data[alert_cols]] *)
Definition alert_cols (data : list features) : list (list Q) :=
  (λ r, [num_reg r; intervalo r; freq_num_reg r; freq_a_quant r;
         extensao r; perc_mortos r; morto r]) <$> data.

Definition objective_function (weights : list Q) (data : list features) (alpha : Q)
  : result np_float :=
  alert_index ← NumPy.dot (alert_cols data) weights;
  f1 ← NumPy.average alert_index (morto <$> data);
  let f2 := NumPy.var alert_index in
  let obj := fsub (fmul (Fin alpha) (Fin f1)) (fmul (Fin (1 - alpha)%Q) f2) in
  Ok (fneg obj).

Definition calculate_objective_values (weights : list Q) (data : list features)
  : result (Q * np_float) :=
  alert_index ← NumPy.dot (alert_cols data) weights;
  f1 ← NumPy.average alert_index (morto <$> data);
  let f2 := NumPy.var alert_index in
  Ok (f1, f2).

(** What [scipy.optimize.minimize] returns. *)
Record OptimizeResult : Type := {
  x : list Q;
  success : bool;
  fun_ : np_float;
  message : string
}.

(** The values stored in the dictionaries of [results]. *)
Inductive value : Type :=
| VNone
| VBool (b : bool)
| VStr (s : string)
| VFloat (v : np_float)
| VArray (a : list Q).

Section Optimization.

(** [scipy.optimize.minimize(fun, x0, method='SLSQP', bounds, constraints,
    options)]: the solver, a library routine, as a function of the
    objective and of the initial guess; the other arguments are the same
    at every call.  The solver is taken to return its report: an exception
    of the objective inside it depends on the table only, and
    [calculate_objective_values] raises it on the same table right after
    the call. *)
Variable minimize : (list Q → result np_float) → list Q → OptimizeResult.

(** The body of [for alpha in alphas:], on the dictionary [results] and
    the counter [solution]. *)
Definition optimization_step (data : list features)
    (st : result (gmap nat (gmap string value) * nat)) (alpha : Q)
  : result (gmap nat (gmap string value) * nat) :=
  '(results, solution) ← st;
  let num_weights := 7%nat in
  let initial_weights := NumPy.ones_div num_weights in
  let result := minimize (λ w, objective_function w data alpha) initial_weights in
  let optimal_weights := x result in
  '(objective_1, objective_2) ← calculate_objective_values optimal_weights data;
  let results :=
    <[solution :=
        <["success" := VBool (success result)]>
        (<["weights" := if success result then VArray (x result) else VNone]>
        (<["objective1" := VFloat (Fin objective_1)]>
        (<["objective2" := VFloat objective_2]>
        (<["objective_value" := if success result then VFloat (fun_ result) else VNone]>
        (<["message" := VStr (message result)]> ∅)))))]> results in
  Ok (results, (solution + 1)%nat).

(** The optimisation loop and the baseline record of the script, on the
    filtered table [data]; the value is the dictionary [results].  The
    table the script prints from [results] at its end is left out. *)
Definition optimization (data : list features) : result (gmap nat (gmap string value)) :=
  let num_weights := 7%nat in
  let alphas := NumPy.arange 0%Q 1.1%Q 0.1%Q in
  let results : gmap nat (gmap string value) := ∅ in
  let solution := 1%nat in
  '(results, solution) ← foldl (optimization_step data) (Ok (results, solution)) alphas;
  let initial_weights := NumPy.ones_div num_weights in
  '(objective_1, objective_2) ← calculate_objective_values initial_weights data;
  let objective_value :=
    fsub (fmul (Fin 0.5) (Fin objective_1)) (fmul (Fin 0.5) objective_2) in
  let results :=
    <[solution :=
        <["success" := VStr "True"]>
        (<["weights" := VArray initial_weights]>
        (<["objective1" := VFloat (Fin objective_1)]>
        (<["objective2" := VFloat objective_2]>
        (<["objective_value" := VFloat objective_value]> ∅))))]> results in
  Ok results.

End Optimization.

(** ** Notions used in the statements and proofs *)

(** An [n] by [n] array. *)
Definition square (n : nat) (a : matrix) : Prop :=
  length a = n ∧ Forall (λ row, length row = n) a.

(** The two writes of a loop body: [a[i][j] = f i j; a[j][i] = a[i][j]]. *)
Definition sym_write (f : nat → nat → np_float) (i j : nat) (a : matrix) : matrix :=
  let a := setitem a i j (f i j) in
  setitem a j i (getitem a i j).

(** [for i in range(n): for j in range(i + 1, n):] the two writes. *)
Definition fill_sym (f : nat → nat → np_float) (n : nat) (a : matrix) : matrix :=
  foldl (λ a i, foldl (λ a j, sym_write f i j a) a (range (i + 1) n)) a (range 0 n).

(** The pairs the two loops visit, in order. *)
Definition pairs_below (n : nat) : list (nat * nat) :=
  i ← range 0 n; j ← range (i + 1) n; [(i, j)].

(** The entries the loops of [calculate_dist_time] write at [(i, j)]. *)
Definition raw_dist (geodesic : Q * Q → Q * Q → Q) (X : list observation)
    (distance_limit : Q) (i j : nat) : np_float :=
  within_distance_limit geodesic (iloc X i) (iloc X j) distance_limit.

Definition raw_time (X : list observation) (time_limit : Z) (i j : nat) : np_float :=
  within_time_limit (iloc X i) (iloc X j) time_limit.

(** The entry the loops of [calculate_normalized_matrices] write at [(i, j)]. *)
Definition norm_entry (raw : matrix) (max_raw : np_float) (i j : nat) : np_float :=
  if flt (getitem raw i j) (Fin 0) then Fin 99999
  else fdiv (getitem raw i j) max_raw.

(** A planar stand-in for the geodesic, in km, on which the embedding can
    be run on sample tables: 111 km to the degree along each axis. *)
Definition planar_km (p q : Q * Q) : Q :=
  Qred (111 * (Qabs (p.1 - q.1) + Qabs (p.2 - q.2))).

Definition obs (lat long : Q) (day : Z) : observation :=
  {| r_lat := lat; r_long := long; r_data := day |}.

(** The combined matrix the stage has written, when it got that far. *)
Definition total_distance (geodesic : Q * Q → Q * Q → Q) (X : list observation)
    (time_limit : Z) (distance_limit : Q) : option matrix :=
  snd <$> (cluster_records geodesic X time_limit distance_limit).1 !! 2.

(** An axis without any pair in range: every entry off the diagonal of
    its raw matrix is the sentinel [-1]. *)
Definition all_out_of_range (n : nat) (raw : matrix) : Prop :=
  ∀ i j, i < n → j < n → i ≠ j → get2 raw i j = Some (Fin (-1)).

(** The inner loop of the search: the neighbours without a label go on
    the stack. *)
Definition push_unlabelled (labels : list Z) (stack nb : list nat) : list nat :=
  foldl (λ stack v, if bool_decide (labels !! v = Some (-1)%Z) then v :: stack else stack)
        stack nb.

(** One turn of the [while True] loop, up to the test of the stack. *)
Definition dfs_step (is_core : list bool) (neighborhoods : list (list nat))
    (label_num : Z) (i : nat) (stack : list nat) (labels : list Z)
  : list Z * list nat :=
  if bool_decide (labels !! i = Some (-1)%Z) then
    let labels := <[i := label_num]> labels in
    if default false (is_core !! i) then
      (labels, push_unlabelled labels stack (default [] (neighborhoods !! i)))
    else (labels, stack)
  else (labels, stack).

(** One turn of [for i in range(labels.shape[0]):] in [dbscan_inner]. *)
Definition scan_step (is_core : list bool) (neighborhoods : list (list nat))
    (n : nat) (st : result (list Z * Z)) (i : nat) : result (list Z * Z) :=
  '(labels, label_num) ← st;
  if bool_decide (labels !! i ≠ Some (-1)%Z) || negb (default false (is_core !! i))
  then Ok (labels, label_num)
  else
    labels ← sklearn.depth_first_search (S (n * S n)) is_core neighborhoods
               label_num i [] labels;
    Ok (labels, (label_num + 1)%Z).

(** The number of observations without a label. *)
Definition unlabelled (labels : list Z) : nat :=
  length (filter (λ l, l = (-1)%Z) labels).

(** [v] is in the neighbourhood of [u]. *)
Definition adjacent (neighborhoods : list (list nat)) (u v : nat) : Prop :=
  ∃ nb, neighborhoods !! u = Some nb ∧ v ∈ nb.

(** What the search for the label [c], started at [start], keeps when
    every observation is a core point: the labels assigned before are
    closed under adjacency, and a neighbour of an observation labelled
    [c] is labelled [c] or is still pending. *)
Definition closure_inv (neighborhoods : list (list nat)) (n : nat) (c : Z)
    (start : nat) (pending : list nat) (labels : list Z) : Prop :=
  length labels = n ∧
  (∀ w, w ∈ pending → w < n) ∧
  (∀ v l, labels !! v = Some l → l = (-1)%Z ∨ (0 <= l <= c)%Z) ∧
  (∀ u v l, labels !! u = Some l → l ≠ (-1)%Z → l ≠ c →
            adjacent neighborhoods u v → labels !! v = Some l) ∧
  (∀ u v, labels !! u = Some c → adjacent neighborhoods u v →
          labels !! v = Some c ∨ (labels !! v = Some (-1)%Z ∧ v ∈ pending)) ∧
  (∀ u, u < start → labels !! u ≠ Some (-1)%Z) ∧
  (labels !! start ≠ Some (-1)%Z ∨ start ∈ pending).

(** What the scan keeps when every observation is a core point, before
    it looks at observation [i] with the next label [c]. *)
Definition closed_labels (neighborhoods : list (list nat)) (n i : nat)
    (labels : list Z) (c : Z) : Prop :=
  length labels = n ∧ (0 <= c)%Z ∧
  (∀ v l, labels !! v = Some l → l = (-1)%Z ∨ (0 <= l < c)%Z) ∧
  (∀ u v l, labels !! u = Some l → l ≠ (-1)%Z →
            adjacent neighborhoods u v → labels !! v = Some l) ∧
  (∀ u, u < i → labels !! u ≠ Some (-1)%Z).

(** What a search keeps of an observation [x] that is in no
    neighbourhood but its own, when it does not start at [x]: [x] is
    never pending and keeps its label; a label changes from -1 to [c]
    only. *)
Definition avoid_inv (x : nat) (labels0 : list Z) (c : Z)
    (pending : list nat) (labels : list Z) : Prop :=
  length labels = length labels0 ∧
  (x ∉ pending) ∧
  (∀ v, labels !! v = labels0 !! v ∨
        (labels0 !! v = Some (-1)%Z ∧ labels !! v = Some c)) ∧
  labels !! x = labels0 !! x.

(** No [nan] and no infinity in an array: what the clustering routine
    demands of its input. *)
Definition all_finite (a : matrix) : Prop := forallb (forallb isfinite) a = true.

(** Rows [i] and [j] are within both limits of each other.  As in the
    loops, the distance is taken from the earlier row to the later one. *)
Definition within_limits (geodesic : Q * Q → Q * Q → Q) (X : list observation)
    (time_limit : Z) (distance_limit : Q) (i j : nat) : Prop :=
  let a := iloc X (i `min` j) in
  let b := iloc X (i `max` j) in
  (geodesic (r_lat a, r_long a) (r_lat b, r_long b) <= distance_limit)%Q ∧
  (Z.abs (r_data a - r_data b) <= time_limit)%Z.

(** The stage gets as far as the combined matrix, and no entry of it is
    [nan]: no axis has 0 as the largest of its values in range while some
    pair of distinct observations is in range on it (see
    [finite_combined_iff]). *)
Definition finite_combined (geodesic : Q * Q → Q * Q → Q) (X : list observation)
    (time_limit : Z) (distance_limit : Q) : Prop :=
  ∃ total, total_distance geodesic X time_limit distance_limit = Some total ∧
           all_finite total.

(** A sample table: four observations that chain along a road within a
    few days, one at the first place 40 days later, one far away. *)
Definition sample_observations : list observation :=
  [obs 0 0 0; obs 0 (1 # 200) 5; obs 0 (1 # 100) 6; obs 0 (3 # 200) 9;
   obs 0 0 40; obs 0 5 0].

(** The scalar the solver minimizes, from the two objectives: the
    negation of [alpha * f1 - (1 - alpha) * f2]. *)
Definition scalarized (alpha : Q) (f : Q * np_float) : np_float :=
  fneg (fsub (fmul (Fin alpha) (Fin f.1)) (fmul (Fin (1 - alpha)%Q) f.2)).

(** The two objectives in the words of the specification: the alert index
    of a cluster is the dot product of the weights with its seven
    features, [f1] is the mean of the alert index weighted by the deaths
    of the clusters, and [f2] is the variance of the alert index. *)
Fixpoint total (l : list Q) : Q :=
  match l with
  | [] => 0
  | v :: l => v + total l
  end.

Definition alert_index (w : list Q) (r : features) : Q :=
  total (zip_with Qmult w
           [num_reg r; intervalo r; freq_num_reg r; freq_a_quant r;
            extensao r; perc_mortos r; morto r]).

Definition weighted_mean (wts values : list Q) : Q :=
  (total (zip_with Qmult wts values) / total wts)%Q.

Definition variance (values : list Q) : Q :=
  let n := inject_Z (Z.of_nat (length values)) in
  let mu := (total values / n)%Q in
  (total ((λ v, (v - mu) * (v - mu))%Q <$> values) / n)%Q.

Definition f1_spec (w : list Q) (data : list features) : Q :=
  weighted_mean (morto <$> data) (alert_index w <$> data).

Definition f2_spec (w : list Q) (data : list features) : Q :=
  variance (alert_index w <$> data).

(** The dictionary the loop stores for one [alpha], and the one of the
    baseline. *)
Definition solution_record (result : OptimizeResult) (objective_1 : Q)
    (objective_2 : np_float) : gmap string value :=
  <["success" := VBool (success result)]>
  (<["weights" := if success result then VArray (x result) else VNone]>
  (<["objective1" := VFloat (Fin objective_1)]>
  (<["objective2" := VFloat objective_2]>
  (<["objective_value" := if success result then VFloat (fun_ result) else VNone]>
  (<["message" := VStr (message result)]> ∅))))).

Definition baseline_record (initial_weights : list Q) (objective_1 : Q)
    (objective_2 : np_float) : gmap string value :=
  <["success" := VStr "True"]>
  (<["weights" := VArray initial_weights]>
  (<["objective1" := VFloat (Fin objective_1)]>
  (<["objective2" := VFloat objective_2]>
  (<["objective_value" :=
       VFloat (fsub (fmul (Fin 0.5) (Fin objective_1)) (fmul (Fin 0.5) objective_2))]>
   ∅)))).

(** [result] in the iteration of the loop for [alpha]. *)
Definition solve (minimize : (list Q → result np_float) → list Q → OptimizeResult)
    (data : list features) (alpha : Q) : OptimizeResult :=
  minimize (λ w, objective_function w data alpha) (NumPy.ones_div 7).

(** A record as the specification describes every record of the output:
    a weight vector of seven elements, the two objectives, a success flag
    and the message of the solver. *)
Definition complete_record (record : gmap string value) : Prop :=
  (∃ w, record !! "weights" = Some (VArray w) ∧ length w = 7) ∧
  is_Some (record !! "objective1") ∧ is_Some (record !! "objective2") ∧
  is_Some (record !! "success") ∧ is_Some (record !! "message").

(** Two sample solvers, which take no step: one reports convergence at
    the initial guess, the other reports that it ran out of iterations. *)
Definition solver_converged (f : list Q → result np_float) (x0 : list Q)
  : OptimizeResult :=
  {| x := x0;
     success := true;
     fun_ := match f x0 with Ok v => v | _ => NaN end;
     message := "Optimization terminated successfully" |}.

Definition solver_failed (f : list Q → result np_float) (x0 : list Q)
  : OptimizeResult :=
  {| x := x0;
     success := false;
     fun_ := match f x0 with Ok v => v | _ => NaN end;
     message := "Iteration limit reached" |}.

(** A sample table of two clusters. *)
Definition sample_table : list features :=
  [ {| num_reg := 1; intervalo := 0; freq_num_reg := 1; freq_a_quant := 1 # 2;
       extensao := 0; perc_mortos := 1; morto := 1 |};
    {| num_reg := 0; intervalo := 1; freq_num_reg := 0; freq_a_quant := 1;
       extensao := 1; perc_mortos := 0; morto := 2 |} ].

(** [u] and [v] are joined by a chain of neighbourhoods. *)
Definition linked (neighborhoods : list (list nat)) : relation nat :=
  rtc (adjacent neighborhoods).

(** What the search for the label [c], started at [start] on the labels
    [labels0], keeps whatever the core points are: an observation that is
    pending or labelled [c] is a core point joined to [start]; a label
    changes from -1 to [c] only; a neighbour of an observation labelled
    [c] is labelled [c] or is still pending. *)
Definition component_inv (is_core : list bool) (neighborhoods : list (list nat))
    (n : nat) (c : Z) (start : nat) (labels0 : list Z)
    (pending : list nat) (labels : list Z) : Prop :=
  length labels = n ∧
  (∀ w, w ∈ pending →
        w < n ∧ default false (is_core !! w) = true ∧ linked neighborhoods start w) ∧
  (∀ v, labels !! v = labels0 !! v ∨
        (labels0 !! v = Some (-1)%Z ∧ labels !! v = Some c)) ∧
  (∀ v, labels !! v = Some c →
        default false (is_core !! v) = true ∧ linked neighborhoods start v) ∧
  (∀ u v, labels !! u = Some c → adjacent neighborhoods u v →
          labels !! v = Some c ∨ (labels !! v = Some (-1)%Z ∧ v ∈ pending)) ∧
  (labels !! start ≠ Some (-1)%Z ∨ start ∈ pending).

(** What the scan keeps before it looks at observation [i] with the next
    label [c]: the labels assigned are closed under adjacency, two
    observations with one label are joined by a chain, only core points
    have a label, and every core point before [i] has one. *)
Definition components_inv (is_core : list bool) (neighborhoods : list (list nat))
    (n i : nat) (labels : list Z) (c : Z) : Prop :=
  length labels = n ∧ (0 <= c)%Z ∧
  (∀ v l, labels !! v = Some l → l = (-1)%Z ∨ (0 <= l < c)%Z) ∧
  (∀ u v l, labels !! u = Some l → l ≠ (-1)%Z →
            adjacent neighborhoods u v → labels !! v = Some l) ∧
  (∀ u v l, labels !! u = Some l → labels !! v = Some l → l ≠ (-1)%Z →
            linked neighborhoods u v) ∧
  (∀ u l, labels !! u = Some l → l ≠ (-1)%Z → default false (is_core !! u) = true) ∧
  (∀ u, u < i → default false (is_core !! u) = true → labels !! u ≠ Some (-1)%Z).

(** Rows [u] and [v] are joined by a chain of rows of the table, each
    within both limits of the next. *)
Definition chained (geodesic : Q * Q → Q * Q → Q) (X : list observation)
    (time_limit : Z) (distance_limit : Q) : relation nat :=
  rtc (λ u v, u < length X ∧ v < length X ∧
              within_limits geodesic X time_limit distance_limit u v).

(** No other row of the table is within both limits of row [u]. *)
Definition lone (geodesic : Q * Q → Q * Q → Q) (X : list observation)
    (time_limit : Z) (distance_limit : Q) (u : nat) : Prop :=
  ∀ j, j < length X → j ≠ u → ¬ within_limits geodesic X time_limit distance_limit u j.

(** ** 04_mo_optimization.py: the table of the solver and the report *)

(** *** The table of the solver

    [__main__] reads the cluster-feature table, standardizes its numeric
    columns, and keeps one row for each cluster of two or more records
    that has a confirmed record. *)

(** One row of the cluster-feature table, in [df_original] or in
    [df_standardized]: the two labels, the number of confirmed records,
    and the seven columns of the alert index. *)
Record cluster_row : Type := {
  Cluster1 : Z;
  Cluster2 : Z;
  confirmado : Q;
  alert : features
}.

(** [df[mask]] for a boolean mask that has the index of [df]. *)
Definition boolean_index {A} (df : list A) (mask : list bool) : list A :=
  fst <$> filter (λ p, p.2 = true) (zip df mask).

(** [df.drop_duplicates(subset=['Cluster1'])]: the first row of every
    value of [Cluster1] stays; [seen] holds the values of the rows
    before. *)
Fixpoint drop_duplicates (seen : list Z) (df : list cluster_row) : list cluster_row :=
  match df with
  | [] => []
  | r :: df =>
      if decide (Cluster1 r ∈ seen) then drop_duplicates seen df
      else r :: drop_duplicates (Cluster1 r :: seen) df
  end.

(** [df_standardized_filtered].  The two frames have one index, and the
    mask taken from the first selects in the second the rows of the same
    index labels. *)
Definition df_standardized_filtered (df_original df_standardized : list cluster_row)
  : list cluster_row :=
  let filtered_df_original := filter (λ r, Cluster2 r ≠ (-1)%Z) df_original in
  let filtered_df_standardized := filter (λ r, Cluster2 r ≠ (-1)%Z) df_standardized in
  let df_standardized_confirmed :=
    boolean_index filtered_df_standardized
      ((λ r, negb (Qeq_bool (confirmado r) 0)) <$> filtered_df_original) in
  drop_duplicates [] df_standardized_confirmed.

(** A row of [df_original] that the two masks keep: it belongs to a
    cluster of two or more records, and its count of confirmed records is
    not 0. *)
Definition kept (o : cluster_row) : Prop :=
  Cluster2 o ≠ (-1)%Z ∧ negb (Qeq_bool (confirmado o) 0) = true.

Global Instance kept_dec o : Decision (kept o).
Proof. unfold kept. apply _. Defined.

(** *** The report at the end of the script *)

(** The lines of the report, each with the values it formats. *)
Inductive line : Type :=
| Header
| Row (solution : nat) (weights : list Q) (objective1 objective2 : np_float)
| Failed
| ErrorMessage (msg : string).

(** The built-in exceptions that end the report and the characterization
    of the clusters. *)
Inductive builtin_exception : Type :=
| TypeError (msg : string)
| IndexError (msg : string)
| KeyError (key : string)
| AttributeError.

(** [results.items()]: the records in the order of insertion, which is
    the order of the keys 1, 2, ... that the script counts. *)
Definition items (results : gmap nat (gmap string value))
  : list (nat * gmap string value) :=
  omap (λ k, pair k <$> results !! k) (seq 1 (size results)).

(** One line of the table: the f-string reads [data['weights'][0]] to
    [data['weights'][6]], then the two objectives.  The script stores an
    array or [None] under ['weights'] and floats under the objectives;
    the outcome given for a value of another kind is never used. *)
Definition format_row (alpha : nat) (data : gmap string value)
  : builtin_exception + line :=
  match data !! "weights" with
  | None => inl (KeyError "weights")
  | Some (VArray w) =>
      if decide (7 ≤ length w) then
        match data !! "objective1", data !! "objective2" with
        | None, _ => inl (KeyError "objective1")
        | _, None => inl (KeyError "objective2")
        | Some (VFloat f1), Some (VFloat f2) => inr (Row alpha (take 7 w) f1 f2)
        | Some _, Some _ => inl (TypeError "unsupported format string")
        end
      else inl (IndexError "index out of bounds")
  | Some VNone => inl (TypeError "'NoneType' object is not subscriptable")
  | Some _ => inl (TypeError "object is not subscriptable")
  end.

(** [for alpha, data in results.items(): print(...)], up to the first
    exception. *)
Fixpoint print_rows (rows : list (nat * gmap string value))
  : list line * option builtin_exception :=
  match rows with
  | [] => ([], None)
  | (alpha, data) :: rows =>
      match format_row alpha data with
      | inl e => ([], Some e)
      | inr l => let '(ls, e) := print_rows rows in (l :: ls, e)
      end
  end.

(** The report: [result] is the report of the solver for the last
    [alpha]. *)
Definition final_report (result : OptimizeResult)
    (results : gmap nat (gmap string value)) : list line * option builtin_exception :=
  if success result then
    let '(rows, e) := print_rows (items results) in (Header :: rows, e)
  else ([Failed; ErrorMessage (message result)], None).

(** The script from the table of the solver on: the optimisation loop,
    the baseline record, and the report. *)
Definition optimization_report
    (minimize : (list Q → result np_float) → list Q → OptimizeResult)
    (data : list features)
  : result (gmap nat (gmap string value) * (list line * option builtin_exception)) :=
  results ← optimization minimize data;
  let alpha := default 0%Q (last (NumPy.arange 0%Q 1.1%Q 0.1%Q)) in
  let result := minimize (λ w, objective_function w data alpha) (NumPy.ones_div 7) in
  Ok (results, final_report result results).

(** The solver has reported success for the [alpha] of position [k]. *)
Definition converged
    (minimize : (list Q → result np_float) → list Q → OptimizeResult)
    (data : list features) (k : nat) : bool :=
  from_option (λ alpha, success (solve minimize data alpha)) false
              (NumPy.arange 0%Q 1.1%Q 0.1%Q !! k).

(** Two sample frames of one index: a cluster of two records listed
    twice, a lone record, a cluster without a confirmed record, and a
    cluster with two confirmed records. *)
Definition sample_df_original : list cluster_row :=
  let f := {| num_reg := 2; intervalo := 3; freq_num_reg := 2 # 3; freq_a_quant := 1;
              extensao := 1 # 2; perc_mortos := 1; morto := 3 |} in
  [ {| Cluster1 := 0; Cluster2 := 0; confirmado := 1; alert := f |};
    {| Cluster1 := 0; Cluster2 := 0; confirmado := 1; alert := f |};
    {| Cluster1 := 1; Cluster2 := -1; confirmado := 1; alert := f |};
    {| Cluster1 := 2; Cluster2 := 1; confirmado := 0; alert := f |};
    {| Cluster1 := 3; Cluster2 := 2; confirmado := 2; alert := f |} ].

Definition sample_df_standardized : list cluster_row :=
  let f := {| num_reg := 0; intervalo := 1 # 2; freq_num_reg := -1; freq_a_quant := 0;
              extensao := 1; perc_mortos := 1 # 3; morto := 1 # 2 |} in
  [ {| Cluster1 := 0; Cluster2 := 0; confirmado := 0; alert := f |};
    {| Cluster1 := 0; Cluster2 := 0; confirmado := 0; alert := f |};
    {| Cluster1 := 1; Cluster2 := -1; confirmado := 0; alert := f |};
    {| Cluster1 := 2; Cluster2 := 1; confirmado := -1; alert := f |};
    {| Cluster1 := 3; Cluster2 := 2; confirmado := 1; alert := f |} ].

(** ** 03_cluster_characterization.py

    The stage reads the table of records with their two labels and
    computes the features of each cluster; the table it writes has a row
    for each cluster and each municipality of the cluster. *)

Module cluster_characterization.

(** The values of the columns [a_situacao] and [a_comportamento]: the
    ones that the script renames. *)
Inductive situacao : Type := Morto | Vivo.
Inductive comportamento : Type := Normal | Estranho | Doente | Agressivo.

Global Instance situacao_eq_dec : EqDecision situacao.
Proof. solve_decision. Defined.
Global Instance comportamento_eq_dec : EqDecision comportamento.
Proof. solve_decision. Defined.

(** One row of the table of records: the columns the script reads.  A
    cell that is missing ([nan]) is [None], and the columns that are not
    options hold a value in every row; dates are day ordinals, and the
    cells of [d_classificacao] and [d_doenca] are text. *)
Record registro : Type := {
  Cluster1 : Z;
  Cluster2 : Z;
  r_lat : Q;
  r_long : Q;
  r_data : Z;
  a_quantidade : Q;
  a_situacao : option situacao;
  a_comportamento : option comportamento;
  d_classificacao : option string;
  d_doenca : option string;
  geocode : Z;
  MUN : string;
  UF : string
}.

Definition set_d_classificacao (v : option string) (r : registro) : registro :=
  {| Cluster1 := Cluster1 r; Cluster2 := Cluster2 r; r_lat := r_lat r;
     r_long := r_long r; r_data := r_data r; a_quantidade := a_quantidade r;
     a_situacao := a_situacao r; a_comportamento := a_comportamento r;
     d_classificacao := v; d_doenca := d_doenca r;
     geocode := geocode r; MUN := MUN r; UF := UF r |}.

Definition set_d_doenca (v : option string) (r : registro) : registro :=
  {| Cluster1 := Cluster1 r; Cluster2 := Cluster2 r; r_lat := r_lat r;
     r_long := r_long r; r_data := r_data r; a_quantidade := a_quantidade r;
     a_situacao := a_situacao r; a_comportamento := a_comportamento r;
     d_classificacao := d_classificacao r; d_doenca := v;
     geocode := geocode r; MUN := MUN r; UF := UF r |}.

(** A label between double quotes, as the cells of the two columns hold
    them. *)
Definition quoted (label : string) : string :=
  String (Ascii.ascii_of_nat 34) (label +:+ String (Ascii.ascii_of_nat 34) EmptyString).

(** [s.str.contains(pat)] for a pattern without special characters:
    [pat] occurs in [s]. *)
Fixpoint str_contains (pat s : string) : bool :=
  String.prefix pat s ||
  match s with
  | EmptyString => false
  | String _ s' => str_contains pat s'
  end.

(** [col.notna() & col.str.contains(pat)] at one cell. *)
Definition notna_contains (cell : option string) (pat : string) : bool :=
  match cell with
  | Some s => str_contains pat s
  | None => false
  end.

(** The accessor [.str] of a column of the table that [read_csv] gives.
    A column none of whose cells holds a value is read as a column of
    floats, for which the accessor raises [AttributeError]; the columns
    of a table without rows are columns of objects. *)
Definition str_accessor (col : list (option string)) : bool :=
  match col with
  | [] => true
  | _ => existsb (λ c, bool_decide (c ≠ None)) col
  end.

(** The three assignments to [d_classificacao] and the one to [d_doenca],
    each an [np.where] over the rows.  The column [d_classificacao] is a
    column of objects once it has been assigned to. *)
Definition standardize_data (df : list registro)
  : builtin_exception + list registro :=
  let uniform (label : string) (r : registro) : registro :=
    set_d_classificacao
      (if notna_contains (d_classificacao r) label then Some label
       else d_classificacao r) r in
  if negb (str_accessor (d_classificacao <$> df)) then inl AttributeError else
  let df := uniform (quoted "Confirmada") <$> df in
  let df := uniform (quoted "Indeterminada") <$> df in
  let df := uniform (quoted "Descartada") <$> df in
  if negb (str_accessor (d_doenca <$> df)) then inl AttributeError else
  inr ((λ r, set_d_doenca
               (if notna_contains (d_doenca r) (quoted "Febre Amarela")
                then Some (quoted "Febre Amarela") else d_classificacao r) r) <$> df).

(** *** Groups *)

(** The order of the keys of [groupby(['Cluster1', 'Cluster2'])]. *)
Definition key_lt (a b : Z * Z) : bool :=
  (a.1 <? b.1)%Z || ((a.1 =? b.1)%Z && (a.2 <? b.2)%Z).

Fixpoint insert_key (k : Z * Z) (ks : list (Z * Z)) : list (Z * Z) :=
  match ks with
  | [] => [k]
  | k' :: ks' =>
      if decide (k = k') then ks
      else if key_lt k k' then k :: ks
      else k' :: insert_key k ks'
  end.

Definition key (r : registro) : Z * Z := (Cluster1 r, Cluster2 r).

(** The keys of the groups: the pairs of labels of the table, each once,
    in increasing order. *)
Definition group_keys (df : list registro) : list (Z * Z) :=
  foldr insert_key [] (key <$> df).

(** The rows of a group, in the order of the table. *)
Definition group (df : list registro) (k : Z * Z) : list registro :=
  filter (λ r, key r = k) df.

(** [df.groupby(['Cluster1', 'Cluster2'])] followed by an aggregation:
    a frame with one row for each key. *)
Definition groupby {V} (df : list registro) (agg : list registro → V)
  : list (Z * Z * V) :=
  (λ k, (k, agg (group df k))) <$> group_keys df.

(** The row of key [k] in a frame that is joined [on=['Cluster1',
    'Cluster2']]; [None] stands for the row of [nan] that a left join puts
    where the frame has no row. *)
Fixpoint join {V} (k : Z * Z) (frame : list (Z * Z * V)) : option V :=
  match frame with
  | [] => None
  | (k', v) :: frame => if decide (k = k') then Some v else join k frame
  end.

(** The aggregations [min] and [max] of a column over a group (which is
    never empty). *)
Definition min_Q (l : list Q) : Q :=
  match l with [] => 0 | v :: l => foldl Qmin v l end.
Definition max_Q (l : list Q) : Q :=
  match l with [] => 0 | v :: l => foldl Qmax v l end.
Definition min_Z (l : list Z) : Z :=
  match l with [] => 0 | v :: l => foldl Z.min v l end.
Definition max_Z (l : list Z) : Z :=
  match l with [] => 0 | v :: l => foldl Z.max v l end.

Section SpatialExtent.

Variable geodesic : Q * Q → Q * Q → Q.

(** The frame [loc_data[['extensao']]]. *)
Definition calculate_spatial_extent (df : list registro) : list (Z * Z * Q) :=
  let loc_data :=
    groupby df (λ g, (min_Q (r_lat <$> g), max_Q (r_lat <$> g),
                      min_Q (r_long <$> g), max_Q (r_long <$> g))) in
  (λ '(index, (r_lat_min, r_lat_max, r_long_min, r_long_max)),
     let coords1 := (r_lat_min, r_long_min) in
     let coords2 := (r_lat_max, r_long_max) in
     (index, geodesic coords1 coords2)) <$> loc_data.

End SpatialExtent.

(** One row of [df_clusters_union]. *)
Record characteristics : Type := {
  c_Cluster1 : Z;
  c_Cluster2 : Z;
  a_quant : Q;
  morto : np_float;
  vivo : np_float;
  normal : np_float;
  estranho : np_float;
  doente : np_float;
  agressivo : np_float;
  intervalo : Z;
  data_ini : Z;
  data_fim : Z;
  extensao : np_float;
  confirmado : np_float;
  num_reg : nat;
  freq_num_reg : np_float;
  freq_a_quant : np_float;
  freq_vivo : np_float;
  freq_morto : np_float;
  perc_mortos : np_float;
  perc_vivos : np_float;
  perc_normal : np_float;
  perc_estranho : np_float;
  perc_doente : np_float;
  perc_agressivo : np_float
}.

(** One row of the table that is written: the features of a cluster with
    one of its geocodes and the names listed for it. *)
Record exploded : Type := {
  union : characteristics;
  e_geocode : option Z;
  e_MUN : option string;
  e_UF : option string
}.

(** [col.unique()] and [df.drop_duplicates()]: the first occurrence of
    each value, in the order of the column. *)
Fixpoint unique {A} `{EqDecision A} (l : list A) : list A :=
  match l with
  | [] => []
  | x :: l => x :: filter (λ y, y ≠ x) (unique l)
  end.

(** [sorted] on a list of integers. *)
Fixpoint insert_sorted (x : Z) (l : list Z) : list Z :=
  match l with
  | [] => [x]
  | y :: l' => if (x <=? y)%Z then x :: l else y :: insert_sorted x l'
  end.

Definition sorted (l : list Z) : list Z := foldr insert_sorted [] l.

(** [df.explode('geocode_list')]: a row for each element of the list of
    the row, and one row with [nan] where the cell is an empty list or
    missing. *)
Definition explode (df : list (characteristics * option (list Z)))
  : list (characteristics * option Z) :=
  df ≫= λ '(c, geocode_list),
    match geocode_list with
    | Some (g :: l) => (λ x, (c, Some x)) <$> g :: l
    | _ => [(c, None)]
    end.

(** [left.merge(right, on='geocode', how='left')]: each row of [left]
    with each row of [right] of the same geocode, in the order of
    [right], and once with [nan] where [right] has none. *)
Definition merge (left : list (characteristics * option Z))
    (right : list (Z * string * string)) : list exploded :=
  left ≫= λ '(c, g),
    match filter (λ t, Some t.1.1 = g) right with
    | [] => [{| union := c; e_geocode := g; e_MUN := None; e_UF := None |}]
    | matches =>
        (λ t, {| union := c; e_geocode := g;
                 e_MUN := Some t.1.2; e_UF := Some t.2 |}) <$> matches
    end.

(** [col.fillna(0)] at one cell. *)
Definition fillna0 (v : np_float) : np_float :=
  match v with NaN => Fin 0 | _ => v end.

(** A cell of a joined column: [nan] where the right frame has no row. *)
Definition cell (v : option Q) : np_float := from_option Fin NaN v.

Section Characteristics.

Variable geodesic : Q * Q → Q * Q → Q.

(** The body of the [try] of [calculate_cluster_characteristics].  The
    value is the table that is written ([df_clusters_exploded]), or the
    exception of [standardize_data], or the [KeyError] of the first column
    that the table has no value for. *)
Definition calculate_cluster_characteristics (data : list registro)
  : builtin_exception + list exploded :=
  match standardize_data data with
  | inl e => inl e
  | inr df_clusters =>
  (* 1 *)
  let count_situacao :=
    groupby (filter (λ r, a_situacao r ≠ None) df_clusters)
      (λ g s, NumPy.sum (a_quantidade <$> filter (λ r, a_situacao r = Some s) g)) in
  let columns_situacao s :=
    existsb (λ r, bool_decide (a_situacao r = Some s)) df_clusters in
  (* 2 *)
  let count_comportamento :=
    groupby df_clusters
      (λ g c, NumPy.sum (a_quantidade <$> filter (λ r, a_comportamento r = Some c) g)) in
  let columns_comportamento c :=
    existsb (λ r, bool_decide (a_comportamento r = c)) df_clusters in
  if negb (columns_comportamento None) then inl (KeyError "['sem_info'] not found in axis") else
  (* 3 *)
  let quant_animais := groupby df_clusters (λ g, NumPy.sum (a_quantidade <$> g)) in
  (* 4 *)
  let dates :=
    groupby df_clusters (λ g,
      let data_ini := min_Z (r_data <$> g) in
      let data_fim := max_Z (r_data <$> g) in
      let intervalo := (data_fim - data_ini)%Z in
      ((if (0 <? intervalo)%Z then intervalo else 1%Z), data_ini, data_fim)) in
  (* 5 *)
  let extensao := calculate_spatial_extent geodesic df_clusters in
  (* 6 *)
  let confirmados_por_cluster :=
    groupby df_clusters (λ g,
      length (filter (λ r, d_classificacao r = Some (quoted "Confirmada")) g)) in
  (* 6.1 *)
  let geocodes_list := groupby df_clusters (λ g, sorted (unique (geocode <$> g))) in
  (* 8 *)
  let size := groupby df_clusters length in
  (* 9 *)
  if negb (columns_situacao Vivo) then inl (KeyError "vivo") else
  if negb (columns_situacao Morto) then inl (KeyError "morto") else
  (* 10 *)
  if negb (columns_comportamento (Some Normal)) then inl (KeyError "normal") else
  if negb (columns_comportamento (Some Estranho)) then inl (KeyError "estranho") else
  if negb (columns_comportamento (Some Doente)) then inl (KeyError "doente") else
  if negb (columns_comportamento (Some Agressivo)) then inl (KeyError "agressivo") else
  let df_clusters_union := (λ '(k, a_quant),
    let situacao s := cell ((λ f, f s) <$> join k count_situacao) in
    let comportamento c := cell ((λ f, f c) <$> join k count_comportamento) in
    let intervalo := from_option (λ d, d.1.1) 0%Z (join k dates) in
    let num_reg := default 0 (join k size) in
    let freq v := fdiv v (Fin (inject_Z intervalo)) in
    let perc v := fillna0 (fdiv v (Fin a_quant)) in
    {| c_Cluster1 := k.1; c_Cluster2 := k.2;
       a_quant := a_quant;
       morto := situacao Morto; vivo := situacao Vivo;
       normal := comportamento Normal; estranho := comportamento Estranho;
       doente := comportamento Doente; agressivo := comportamento Agressivo;
       intervalo := intervalo;
       data_ini := from_option (λ d, d.1.2) 0%Z (join k dates);
       data_fim := from_option (λ d, d.2) 0%Z (join k dates);
       extensao := cell (join k extensao);
       confirmado := cell ((λ c, inject_Z (Z.of_nat c)) <$> join k confirmados_por_cluster);
       num_reg := num_reg;
       freq_num_reg := freq (Fin (inject_Z (Z.of_nat num_reg)));
       freq_a_quant := freq (Fin a_quant);
       freq_vivo := freq (situacao Vivo);
       freq_morto := freq (situacao Morto);
       perc_mortos := perc (situacao Morto);
       perc_vivos := perc (situacao Vivo);
       perc_normal := perc (comportamento Normal);
       perc_estranho := perc (comportamento Estranho);
       perc_doente := perc (comportamento Doente);
       perc_agressivo := perc (comportamento Agressivo) |}) <$> quant_animais in
  (* 11 *)
  let df_clusters_union :=
    (λ c, (c, join (c_Cluster1 c, c_Cluster2 c) geocodes_list)) <$> df_clusters_union in
  let df_clusters_exploded := explode df_clusters_union in
  let df_clusters_exploded :=
    merge df_clusters_exploded (unique ((λ r, (geocode r, MUN r, UF r)) <$> df_clusters)) in
  (* 12 *)
  inr df_clusters_exploded
  end.

End Characteristics.

End cluster_characterization.

(** *** Notions used in the statements about the characterization *)

Section CharacterizationNotions.

Import cluster_characterization.

(** What [standardize_data] makes of one row. *)
Definition standardize_row (r : registro) : registro :=
  let c := d_classificacao r in
  let c' :=
    if notna_contains c (quoted "Confirmada") then Some (quoted "Confirmada")
    else if notna_contains c (quoted "Indeterminada") then Some (quoted "Indeterminada")
    else if notna_contains c (quoted "Descartada") then Some (quoted "Descartada")
    else c in
  set_d_doenca
    (if notna_contains (d_doenca r) (quoted "Febre Amarela")
     then Some (quoted "Febre Amarela") else c')
    (set_d_classificacao c' r).

(** The cell of a group in a column of [count_situacao] after the join:
    [nan] when no record of the group has a situation. *)
Definition situacao_sum (g : list registro) (s : situacao) : np_float :=
  if existsb (λ r, bool_decide (a_situacao r ≠ None)) g
  then Fin (NumPy.sum (a_quantidade <$> filter (λ r, a_situacao r = Some s) g))
  else NaN.

(** The cell of a group in a column of [count_comportamento]. *)
Definition comportamento_sum (g : list registro) (c : comportamento) : Q :=
  NumPy.sum (a_quantidade <$> filter (λ r, a_comportamento r = Some c) g).

(** The days from the first to the last record of a group, and 1 when
    that is 0. *)
Definition intervalo_of (g : list registro) : Z :=
  let d := (max_Z (r_data <$> g) - min_Z (r_data <$> g))%Z in
  if (0 <? d)%Z then d else 1%Z.

(** The row of [df_clusters_union] (before the geocodes are added) for the
    group [g] of key [k]. *)
Definition row_of (geodesic : Q * Q → Q * Q → Q) (g : list registro) (k : Z * Z)
  : characteristics :=
  let freq v := fdiv v (Fin (inject_Z (intervalo_of g))) in
  let perc v := fillna0 (fdiv v (Fin (NumPy.sum (a_quantidade <$> g)))) in
  {| c_Cluster1 := k.1; c_Cluster2 := k.2;
     a_quant := NumPy.sum (a_quantidade <$> g);
     morto := situacao_sum g Morto; vivo := situacao_sum g Vivo;
     normal := Fin (comportamento_sum g Normal);
     estranho := Fin (comportamento_sum g Estranho);
     doente := Fin (comportamento_sum g Doente);
     agressivo := Fin (comportamento_sum g Agressivo);
     intervalo := intervalo_of g;
     data_ini := min_Z (r_data <$> g);
     data_fim := max_Z (r_data <$> g);
     extensao :=
       Fin (geodesic (min_Q (r_lat <$> g), min_Q (r_long <$> g))
                     (max_Q (r_lat <$> g), max_Q (r_long <$> g)));
     confirmado :=
       Fin (inject_Z (Z.of_nat
         (length (filter (λ r, d_classificacao r = Some (quoted "Confirmada")) g))));
     num_reg := length g;
     freq_num_reg := freq (Fin (inject_Z (Z.of_nat (length g))));
     freq_a_quant := freq (Fin (NumPy.sum (a_quantidade <$> g)));
     freq_vivo := freq (situacao_sum g Vivo);
     freq_morto := freq (situacao_sum g Morto);
     perc_mortos := perc (situacao_sum g Morto);
     perc_vivos := perc (situacao_sum g Vivo);
     perc_normal := perc (Fin (comportamento_sum g Normal));
     perc_estranho := perc (Fin (comportamento_sum g Estranho));
     perc_doente := perc (Fin (comportamento_sum g Doente));
     perc_agressivo := perc (Fin (comportamento_sum g Agressivo)) |}.

(** The names listed for the geocodes in the table: the distinct triples
    of the columns [geocode], [MUN] and [UF]. *)
Definition places (data : list registro) : list (Z * string * string) :=
  unique ((λ r, (geocode r, MUN r, UF r)) <$> data).

(** The rows that are written for the cluster of key [k]. *)
Definition rows_of (geodesic : Q * Q → Q * Q → Q) (data : list registro) (k : Z * Z)
  : list exploded :=
  let c := row_of geodesic (standardize_row <$> group data k) k in
  sorted (unique (geocode <$> group data k)) ≫= λ g,
    (λ t, {| union := c; e_geocode := Some g; e_MUN := Some t.1.2; e_UF := Some t.2 |})
      <$> filter (λ t, t.1.1 = g) (places data).

(** The cluster of a row of the table that is written: its pair of
    labels. *)
Definition cluster_of (w : exploded) : Z * Z :=
  (c_Cluster1 (union w), c_Cluster2 (union w)).

(** The columns [d_classificacao] and [d_doenca] are read as text: the
    table has no row, or each of the two columns has a cell that holds a
    value. *)
Definition text_columns (data : list registro) : Prop :=
  data = [] ∨
  ((∃ r, r ∈ data ∧ d_classificacao r ≠ None) ∧ (∃ r, r ∈ data ∧ d_doenca r ≠ None)).

(** The table has a record with the situation [s], with the behaviour
    [c], without a behaviour. *)
Definition has_situacao (data : list registro) (s : situacao) : Prop :=
  ∃ r, r ∈ data ∧ a_situacao r = Some s.
Definition has_comportamento (data : list registro) (c : option comportamento) : Prop :=
  ∃ r, r ∈ data ∧ a_comportamento r = c.

(** A sample table: a cluster of three records over two days and two
    municipalities, one of the records without a behaviour and one
    without a situation, and three other clusters of one record. *)
Definition sample_registros : list registro :=
  [ {| Cluster1 := 0; Cluster2 := 0; r_lat := -23 # 1; r_long := -46 # 1; r_data := 10;
       a_quantidade := 2; a_situacao := Some Morto; a_comportamento := None;
       d_classificacao := Some ("{" +:+ quoted "Confirmada" +:+ "}");
       d_doenca := Some ("{" +:+ quoted "Febre Amarela" +:+ "}");
       geocode := 3550308; MUN := "Sao Paulo"; UF := "SP" |};
    {| Cluster1 := 0; Cluster2 := 0; r_lat := -2301 # 100; r_long := -4598 # 100;
       r_data := 12;
       a_quantidade := 1; a_situacao := Some Vivo; a_comportamento := Some Normal;
       d_classificacao := None; d_doenca := None;
       geocode := 3550308; MUN := "Sao Paulo"; UF := "SP" |};
    {| Cluster1 := 0; Cluster2 := 0; r_lat := -2299 # 100; r_long := -4601 # 100;
       r_data := 11;
       a_quantidade := 1; a_situacao := None; a_comportamento := Some Estranho;
       d_classificacao := Some ("{" +:+ quoted "Descartada" +:+ "}");
       d_doenca := None;
       geocode := 3547809; MUN := "Santo Andre"; UF := "SP" |};
    {| Cluster1 := 3; Cluster2 := -1; r_lat := -20 # 1; r_long := -44 # 1; r_data := 40;
       a_quantidade := 1; a_situacao := Some Vivo; a_comportamento := Some Doente;
       d_classificacao := Some ("{" +:+ quoted "Indeterminada" +:+ "}");
       d_doenca := None;
       geocode := 3106200; MUN := "Belo Horizonte"; UF := "MG" |};
    {| Cluster1 := 1; Cluster2 := -1; r_lat := -21 # 1; r_long := -45 # 1; r_data := 30;
       a_quantidade := 0; a_situacao := Some Vivo; a_comportamento := Some Agressivo;
       d_classificacao := None; d_doenca := None;
       geocode := 3170206; MUN := "Uberlandia"; UF := "MG" |};
    {| Cluster1 := 2; Cluster2 := -1; r_lat := -22 # 1; r_long := -43 # 1; r_data := 35;
       a_quantidade := 3; a_situacao := None; a_comportamento := None;
       d_classificacao := None; d_doenca := None;
       geocode := 3304557; MUN := "Rio de Janeiro"; UF := "RJ" |} ].

End CharacterizationNotions.

(** * Properties *)

Lemma bind_Ok {A B} (a : A) (k : A → result B) : Ok a ≫= k = k a.
Proof. done. Qed.

(** ** Arrays *)

Lemma get2_setitem (a : matrix) (i j x y : nat) (v : np_float) :
  get2 (setitem a i j v) x y =
  if decide (x = i ∧ y = j) then (λ _, v) <$> get2 a x y else get2 a x y.
Proof.
  unfold get2, setitem. rewrite list_lookup_alter.
  destruct (decide (i = x)) as [->|Hne].
  - destruct (a !! x) as [row|] eqn:Hrow; simpl.
    + rewrite list_lookup_insert.
      destruct (decide (j = y ∧ j < length row)) as [[-> Hlt]|Hn].
      * rewrite decide_True by done.
        apply lookup_lt_is_Some in Hlt as [w ->]. done.
      * destruct (decide (x = x ∧ y = j)) as [[_ ->]|]; [|done].
        rewrite (proj2 (lookup_ge_None row j)); [done|lia].
    + by destruct (decide (x = x ∧ y = j)).
  - rewrite decide_False; [done|]. intros [-> _]. done.
Qed.

Lemma square_setitem n a i j v : square n a → square n (setitem a i j v).
Proof.
  intros [Hlen Hrows]. split.
  - unfold setitem. by rewrite length_alter.
  - apply Forall_alter; [done|]. intros row _ Hrow. by rewrite length_insert.
Qed.

Lemma square_get2 n a i j : square n a → i < n → j < n → is_Some (get2 a i j).
Proof.
  intros [Hlen Hrows] Hi Hj. unfold get2.
  destruct (lookup_lt_is_Some a i) as [_ [row Hrow]]; [lia|].
  rewrite Hrow. simpl. apply lookup_lt_is_Some.
  rewrite Forall_lookup in Hrows. rewrite (Hrows _ _ Hrow). done.
Qed.

Lemma get2_getitem n a i j :
  square n a → i < n → j < n → get2 a i j = Some (getitem a i j).
Proof.
  intros Hsq Hi Hj. unfold getitem.
  destruct (square_get2 n a i j Hsq Hi Hj) as [v ->]. done.
Qed.

Lemma square_zeros n : square n (zeros n n).
Proof.
  split; [apply length_replicate|].
  apply Forall_replicate, length_replicate.
Qed.

Lemma get2_zeros n i j : i < n → j < n → get2 (zeros n n) i j = Some (Fin 0).
Proof.
  intros Hi Hj. unfold get2, zeros.
  rewrite lookup_replicate_2 by done. simpl. by apply lookup_replicate_2.
Qed.

(** ** The symmetric fill of the two loops *)

Lemma square_sym_write f n a i j : square n a → square n (sym_write f i j a).
Proof. intros H. unfold sym_write. by do 2 apply square_setitem. Qed.

Lemma get2_sym_write f n a i j x y :
  square n a → i < n → j < n →
  get2 (sym_write f i j a) x y =
  if decide ((x = i ∧ y = j) ∨ (x = j ∧ y = i)) then Some (f i j) else get2 a x y.
Proof.
  intros Hsq Hi Hj. unfold sym_write.
  assert (Hij : getitem (setitem a i j (f i j)) i j = f i j).
  { unfold getitem. rewrite get2_setitem, decide_True by done.
    destruct (square_get2 n a i j Hsq Hi Hj) as [v ->]. done. }
  rewrite Hij, !get2_setitem.
  destruct (decide ((x = i ∧ y = j) ∨ (x = j ∧ y = i))) as [Heq|Hne].
  - assert (Hsome : is_Some (get2 a x y)).
    { destruct Heq as [[-> ->]|[-> ->]]; by apply (square_get2 n). }
    destruct Hsome as [v ->].
    destruct (decide (x = j ∧ y = i)), (decide (x = i ∧ y = j)); simpl; try done.
    tauto.
  - rewrite !decide_False by tauto. done.
Qed.

Lemma elem_of_pairs_below n i j : (i, j) ∈ pairs_below n ↔ i < j ∧ j < n.
Proof.
  unfold pairs_below, range. rewrite list_elem_of_bind. split.
  - intros (i' & Hin & Hi'). apply list_elem_of_bind in Hin as (j' & Hin & Hj').
    apply list_elem_of_singleton in Hin. inversion Hin; subst.
    apply elem_of_seq in Hi', Hj'. lia.
  - intros [Hij Hj]. exists i. split.
    + apply list_elem_of_bind. exists j. split; [by apply list_elem_of_singleton|].
      apply elem_of_seq. lia.
    + apply elem_of_seq. lia.
Qed.

Lemma fill_sym_pairs f n a :
  fill_sym f n a = foldl (λ a p, sym_write f p.1 p.2 a) a (pairs_below n).
Proof.
  unfold fill_sym, pairs_below. generalize (range 0 n) as idx. intros idx.
  revert a. induction idx as [|i idx IH]; intros a; [done|].
  simpl. rewrite foldl_app, <- IH. f_equal.
  generalize (range (i + 1) n) as js. intros js. revert a.
  induction js as [|j js IHj]; intros a; [done|]. simpl. apply IHj.
Qed.

Lemma foldl_sym_write_spec f n (ps : list (nat * nat)) a :
  square n a →
  (∀ i j, (i, j) ∈ ps → i < j ∧ j < n) →
  square n (foldl (λ a p, sym_write f p.1 p.2 a) a ps) ∧
  ∀ x y,
    get2 (foldl (λ a p, sym_write f p.1 p.2 a) a ps) x y =
    if decide ((x, y) ∈ ps ∨ (y, x) ∈ ps)
    then Some (f (x `min` y) (x `max` y)) else get2 a x y.
Proof.
  revert a. induction ps as [|[i j] ps IH]; intros a Hsq Hps.
  - split; [done|]. intros x y. rewrite decide_False; [done|].
    intros [H|H]; by apply not_elem_of_nil in H.
  - destruct (Hps i j) as [Hij Hj]; [left|].
    assert (Hi : i < n) by lia.
    destruct (IH (sym_write f i j a)) as [Hsq' Hget].
    { by apply square_sym_write. }
    { intros i' j' Hin. apply Hps. by right. }
    split; [exact Hsq'|]. intros x y. simpl. rewrite Hget.
    rewrite (get2_sym_write f n) by done.
    destruct (decide ((x, y) ∈ ps ∨ (y, x) ∈ ps)) as [Hin|Hnin].
    + rewrite decide_True; [done|]. destruct Hin; [left|right]; by right.
    + destruct (decide ((x = i ∧ y = j) ∨ (x = j ∧ y = i))) as [Heq|Hne].
      * rewrite decide_True.
        -- destruct Heq as [[-> ->]|[-> ->]].
           ++ by rewrite Nat.min_l, Nat.max_r by lia.
           ++ by rewrite Nat.min_r, Nat.max_l by lia.
        -- destruct Heq as [[-> ->]|[-> ->]]; [left|right]; left.
      * rewrite decide_False; [done|].
        intros [Hin|Hin]; apply elem_of_cons in Hin as [Heq|Hin];
          try (inversion Heq; subst; tauto); tauto.
Qed.

(** Every read and write of the two loops is inside the array, and the
    array they leave is symmetric with the diagonal of the initial one. *)
Lemma fill_sym_get2 f n a x y :
  square n a → x < n → y < n →
  get2 (fill_sym f n a) x y =
  if decide (x = y) then get2 a x x else Some (f (x `min` y) (x `max` y)).
Proof.
  intros Hsq Hx Hy. rewrite fill_sym_pairs.
  destruct (foldl_sym_write_spec f n (pairs_below n) a Hsq) as [_ Hget].
  { intros i j. apply elem_of_pairs_below. }
  rewrite Hget. destruct (decide (x = y)) as [->|Hne].
  - rewrite decide_False; [done|]. rewrite elem_of_pairs_below. lia.
  - rewrite decide_True; [done|]. rewrite !elem_of_pairs_below. lia.
Qed.

Lemma square_fill_sym f n a : square n a → square n (fill_sym f n a).
Proof.
  intros Hsq. rewrite fill_sym_pairs.
  apply (foldl_sym_write_spec f n (pairs_below n) a Hsq).
  intros i j. apply elem_of_pairs_below.
Qed.

(** ** The raw matrices *)

Section RawMatrices.

Variable geodesic : Q * Q → Q * Q → Q.
Variable X : list observation.
Variable time_limit : Z.
Variable distance_limit : Q.

Lemma calculate_dist_time_fill :
  calculate_dist_time geodesic X time_limit distance_limit =
  (fill_sym (raw_dist geodesic X distance_limit) (length X) (zeros (length X) (length X)),
   fill_sym (raw_time X time_limit) (length X) (zeros (length X) (length X))).
Proof.
  unfold calculate_dist_time, fill_sym.
  generalize (zeros (length X) (length X)) at 1 3 as md.
  generalize (zeros (length X) (length X)) as mt.
  generalize (range 0 (length X)) as idx.
  induction idx as [|i idx IH]; intros mt md; [done|].
  simpl foldl. rewrite <- IH. f_equal.
  generalize (range (i + 1) (length X)) as js. intros js. revert mt md.
  induction js as [|j js IHj]; intros mt md; [done|]. simpl foldl. apply IHj.
Qed.

Lemma square_distance_matrix :
  square (length X) (calculate_dist_time geodesic X time_limit distance_limit).1.
Proof. rewrite calculate_dist_time_fill. apply square_fill_sym, square_zeros. Qed.

Lemma square_time_matrix :
  square (length X) (calculate_dist_time geodesic X time_limit distance_limit).2.
Proof. rewrite calculate_dist_time_fill. apply square_fill_sym, square_zeros. Qed.

Lemma get2_distance_matrix i j :
  i < length X → j < length X →
  get2 (calculate_dist_time geodesic X time_limit distance_limit).1 i j =
  Some (if decide (i = j) then Fin 0
        else raw_dist geodesic X distance_limit (i `min` j) (i `max` j)).
Proof.
  intros Hi Hj. rewrite calculate_dist_time_fill. simpl.
  rewrite fill_sym_get2 by (done || apply square_zeros).
  rewrite get2_zeros by done. by destruct (decide (i = j)).
Qed.

Lemma get2_time_matrix i j :
  i < length X → j < length X →
  get2 (calculate_dist_time geodesic X time_limit distance_limit).2 i j =
  Some (if decide (i = j) then Fin 0
        else raw_time X time_limit (i `min` j) (i `max` j)).
Proof.
  intros Hi Hj. rewrite calculate_dist_time_fill. simpl.
  rewrite fill_sym_get2 by (done || apply square_zeros).
  rewrite get2_zeros by done. by destruct (decide (i = j)).
Qed.

(** An entry written by [within_distance_limit] is the distance, when it
    is within the limit, and [-1] otherwise. *)
Lemma raw_dist_cases i j :
  (∀ p q, (0 <= geodesic p q)%Q) →
  ∃ d, raw_dist geodesic X distance_limit i j = Fin d ∧
       ((0 <= d)%Q ∧ (d <= distance_limit)%Q ∨ d = (-1)%Q).
Proof.
  intros Hgeo. unfold raw_dist, within_distance_limit.
  destruct (Qle_bool _ distance_limit) eqn:Hle; eexists; (split; [done|]).
  - left. split; [apply Hgeo|]. by apply Qle_bool_iff.
  - by right.
Qed.

Lemma raw_time_cases i j :
  ∃ t, raw_time X time_limit i j = Fin t ∧
       ((0 <= t)%Q ∧ (t <= inject_Z time_limit)%Q ∨ t = (-1)%Q).
Proof.
  unfold raw_time, within_time_limit.
  destruct (Z.leb_spec (Z.abs (r_data (iloc X i) - r_data (iloc X j))) time_limit)
    as [Hle|Hgt]; eexists; (split; [done|]).
  - left. split.
    + change 0%Q with (inject_Z 0). rewrite <- Zle_Qle. lia.
    + by rewrite <- Zle_Qle.
  - by right.
Qed.

End RawMatrices.

(** C6: both raw matrices are symmetric, have a zero diagonal, and hold
    at every position either a value between 0 and the limit or exactly
    -1.  The limits are those of the configuration (not negative), and
    the geodesic distance is not negative. *)
Theorem raw_matrices_symmetric_zero_diagonal_bounded
    (geodesic : Q * Q → Q * Q → Q) (X : list observation)
    (time_limit : Z) (distance_limit : Q) (i j : nat) :
  (∀ p q, (0 <= geodesic p q)%Q) →
  (0 <= distance_limit)%Q → (0 <= time_limit)%Z →
  i < length X → j < length X →
  let matrix_dist := (calculate_dist_time geodesic X time_limit distance_limit).1 in
  let matrix_time := (calculate_dist_time geodesic X time_limit distance_limit).2 in
  ∃ d t : Q,
    get2 matrix_dist i j = Some (Fin d) ∧ get2 matrix_dist j i = Some (Fin d) ∧
    get2 matrix_dist i i = Some (Fin 0) ∧
    ((0 <= d)%Q ∧ (d <= distance_limit)%Q ∨ d = (-1)%Q) ∧
    get2 matrix_time i j = Some (Fin t) ∧ get2 matrix_time j i = Some (Fin t) ∧
    get2 matrix_time i i = Some (Fin 0) ∧
    ((0 <= t)%Q ∧ (t <= inject_Z time_limit)%Q ∨ t = (-1)%Q).
Proof.
  intros Hgeo Hdl Htl Hi Hj. cbv zeta.
  rewrite !get2_distance_matrix, !get2_time_matrix by done.
  rewrite (Nat.min_comm j i), (Nat.max_comm j i).
  destruct (decide (i = j)) as [->|Hne].
  - repeat (rewrite decide_True by done). exists 0%Q, 0%Q.
    split_and!; try done.
    + left. split; [apply Qle_refl|done].
    + left. split; [apply Qle_refl|].
      change 0%Q with (inject_Z 0). by rewrite <- Zle_Qle.
  - destruct (decide (j = i)) as [->|_]; [done|].
    destruct (decide (i = i)) as [_|?]; [|done].
    destruct (raw_dist_cases geodesic X distance_limit (i `min` j) (i `max` j) Hgeo)
      as (d & -> & Hd).
    destruct (raw_time_cases X time_limit (i `min` j) (i `max` j)) as (t & -> & Ht).
    exists d, t. done.
Qed.

(** ** The normalized matrices *)

Lemma calculate_normalized_matrices_fill distance_matrix time_matrix :
  calculate_normalized_matrices distance_matrix time_matrix =
  let n := shape0 distance_matrix in
  match NumPy.max (mask_ge0 distance_matrix), NumPy.max (mask_ge0 time_matrix) with
  | Some max_dist, Some max_time =>
      Ok (fill_sym (norm_entry distance_matrix max_dist) n (zeros n n),
          fill_sym (norm_entry time_matrix max_time) n (zeros n n))
  | _, _ =>
      Raise (ValueError "zero-size array to reduction operation maximum which has no identity")
  end.
Proof.
  unfold calculate_normalized_matrices. cbv zeta.
  destruct (NumPy.max (mask_ge0 distance_matrix)) as [max_dist|]; [|done].
  destruct (NumPy.max (mask_ge0 time_matrix)) as [max_time|]; [|done].
  f_equal. unfold fill_sym.
  generalize (zeros (shape0 distance_matrix) (shape0 distance_matrix)) at 1 3 as nd.
  generalize (zeros (shape0 distance_matrix) (shape0 distance_matrix)) as nt.
  generalize (range 0 (shape0 distance_matrix)) as idx.
  induction idx as [|i idx IH]; intros nt nd; [done|].
  simpl foldl. rewrite <- IH. f_equal.
  generalize (range (i + 1) (shape0 distance_matrix)) as js. intros js. revert nt nd.
  induction js as [|j js IHj]; intros nt nd; [done|].
  simpl foldl. rewrite <- IHj. f_equal. unfold sym_write, norm_entry.
  by destruct (flt (getitem distance_matrix i j) (Fin 0)),
              (flt (getitem time_matrix i j) (Fin 0)).
Qed.

(** The selection [a[a >= 0]] of an array with a zero entry is not empty,
    so that [np.max] does not raise on it. *)
Lemma max_mask_ge0_is_Some (a : matrix) i j :
  get2 a i j = Some (Fin 0) → is_Some (NumPy.max (mask_ge0 a)).
Proof.
  intros Hget. unfold get2 in Hget.
  destruct (a !! i) as [row|] eqn:Hrow; [|done]. simpl in Hget.
  assert (Hin : Fin 0 ∈ mask_ge0 a).
  { unfold mask_ge0. apply list_elem_of_filter. split; [done|].
    apply list_elem_of_In, in_concat. exists row.
    split; apply list_elem_of_In, list_elem_of_lookup; eauto. }
  unfold NumPy.max. destruct (mask_ge0 a); [by apply not_elem_of_nil in Hin|eauto].
Qed.

Section Normalized.

Variable geodesic : Q * Q → Q * Q → Q.
Variable X : list observation.
Variable time_limit : Z.
Variable distance_limit : Q.

(** On a table that is not empty the normalization returns: the zero
    diagonal is part of both selections. *)
Lemma calculate_normalized_matrices_Ok :
  0 < length X →
  ∃ max_dist max_time,
    NumPy.max (mask_ge0 (calculate_dist_time geodesic X time_limit distance_limit).1)
      = Some max_dist ∧
    NumPy.max (mask_ge0 (calculate_dist_time geodesic X time_limit distance_limit).2)
      = Some max_time ∧
    calculate_normalized_matrices
      (calculate_dist_time geodesic X time_limit distance_limit).1
      (calculate_dist_time geodesic X time_limit distance_limit).2 =
    Ok (fill_sym (norm_entry (calculate_dist_time geodesic X time_limit distance_limit).1
                    max_dist) (length X) (zeros (length X) (length X)),
        fill_sym (norm_entry (calculate_dist_time geodesic X time_limit distance_limit).2
                    max_time) (length X) (zeros (length X) (length X))).
Proof.
  intros Hn. rewrite calculate_normalized_matrices_fill. cbv zeta.
  destruct (max_mask_ge0_is_Some
              (calculate_dist_time geodesic X time_limit distance_limit).1 0 0)
    as [max_dist Hd].
  { rewrite get2_distance_matrix by done. by rewrite decide_True. }
  destruct (max_mask_ge0_is_Some
              (calculate_dist_time geodesic X time_limit distance_limit).2 0 0)
    as [max_time Ht].
  { rewrite get2_time_matrix by done. by rewrite decide_True. }
  exists max_dist, max_time. rewrite Hd, Ht.
  unfold shape0. rewrite (proj1 (square_distance_matrix _ _ _ _)). done.
Qed.

End Normalized.

(** C3, as the code has it: on a table that is not empty the
    normalization returns, also when an axis has no pair in range.  The
    maximum of that axis is taken over the selection that holds the zero
    diagonal, none of its entries is divided, and its normalized matrix is
    0 on the diagonal and 99999 elsewhere. *)
Theorem normalization_of_axis_without_pair_in_range
    (geodesic : Q * Q → Q * Q → Q) (X : list observation)
    (time_limit : Z) (distance_limit : Q) :
  0 < length X →
  let distance_matrix := (calculate_dist_time geodesic X time_limit distance_limit).1 in
  let time_matrix := (calculate_dist_time geodesic X time_limit distance_limit).2 in
  ∃ norm_distance_matrix norm_time_matrix,
    calculate_normalized_matrices distance_matrix time_matrix =
      Ok (norm_distance_matrix, norm_time_matrix) ∧
    (all_out_of_range (length X) distance_matrix →
     ∀ i j, i < length X → j < length X →
       get2 norm_distance_matrix i j =
       Some (if decide (i = j) then Fin 0 else Fin 99999)) ∧
    (all_out_of_range (length X) time_matrix →
     ∀ i j, i < length X → j < length X →
       get2 norm_time_matrix i j =
       Some (if decide (i = j) then Fin 0 else Fin 99999)).
Proof.
  intros Hn. cbv zeta.
  destruct (calculate_normalized_matrices_Ok geodesic X time_limit distance_limit Hn)
    as (max_dist & max_time & _ & _ & ->).
  eexists _, _. split; [done|].
  assert (Hentry : ∀ raw max_raw i j,
    all_out_of_range (length X) raw → i < length X → j < length X →
    get2 (fill_sym (norm_entry raw max_raw) (length X) (zeros (length X) (length X))) i j
    = Some (if decide (i = j) then Fin 0 else Fin 99999)).
  { intros raw max_raw i j Hall Hi Hj.
    rewrite fill_sym_get2 by (done || apply square_zeros).
    destruct (decide (i = j)) as [->|Hne]; [by apply get2_zeros|].
    unfold norm_entry, getitem. rewrite Hall by lia. done. }
  split; intros Hall i j Hi Hj; by apply Hentry.
Qed.

(** ** The stand-in geodesic *)

Lemma planar_km_nonneg p q : (0 <= planar_km p q)%Q.
Proof.
  unfold planar_km. rewrite Qred_correct.
  apply Qmult_le_0_compat; [done|].
  rewrite <- (Qplus_0_l 0). apply Qplus_le_compat; apply Qabs_nonneg.
Qed.

Lemma planar_km_self p : planar_km p p = 0%Q.
Proof.
  unfold planar_km. change 0%Q with (Qred 0). apply Qred_complete.
  assert (H : ∀ a : Q, Qabs (a - a) == 0).
  { intros a. unfold Qminus. by rewrite Qplus_opp_r. }
  rewrite !H. done.
Qed.

(** ** The combined matrix *)

Lemma get2_add (a b : matrix) i j :
  get2 (NumPy.add a b) i j =
  match get2 a i j, get2 b i j with
  | Some u, Some v => Some (fadd u v)
  | _, _ => None
  end.
Proof.
  unfold get2, NumPy.add. rewrite lookup_zip_with.
  destruct (a !! i) as [ra|]; [|done]. simpl.
  destruct (b !! i) as [rb|]; simpl; [|by destruct (ra !! j)].
  rewrite lookup_zip_with. destruct (ra !! j); [|done]. simpl.
  by destruct (rb !! j).
Qed.

Lemma square_add n (a b : matrix) : square n a → square n b → square n (NumPy.add a b).
Proof.
  intros [Ha Hra] [Hb Hrb]. unfold NumPy.add. split.
  - rewrite length_zip_with. lia.
  - apply Forall_lookup. intros i row Hrow.
    apply lookup_zip_with_Some in Hrow as (ra & rb & -> & Hia & Hib).
    rewrite Forall_lookup in Hra, Hrb.
    rewrite length_zip_with, (Hra _ _ Hia), (Hrb _ _ Hib). lia.
Qed.

Lemma all_finite_get2 (a : matrix) i j v :
  all_finite a → get2 a i j = Some v → ∃ q, v = Fin q.
Proof.
  unfold all_finite, get2. intros Hfin Hget.
  destruct (a !! i) as [row|] eqn:Hrow; [|done]. simpl in Hget.
  rewrite forallb_forall in Hfin.
  assert (Hr : forallb isfinite row = true).
  { apply Hfin, list_elem_of_In, list_elem_of_lookup. eauto. }
  rewrite forallb_forall in Hr.
  assert (Hv : isfinite v = true).
  { apply Hr, list_elem_of_In, list_elem_of_lookup. eauto. }
  destruct v; try done. eauto.
Qed.

Lemma fadd_Fin_inv u v q : fadd u v = Fin q → ∃ a b, u = Fin a ∧ v = Fin b ∧ q = (a + b)%Q.
Proof. destruct u, v; simpl; intros H; try done. inversion H. eauto. Qed.

(** ** The maximum of a selection *)

Lemma foldl_fmax_Fin (l : list np_float) (m0 : Q) :
  Forall (λ v, ∃ q, v = Fin q) l →
  ∃ M, foldl fmax (Fin m0) l = Fin M ∧ (m0 <= M)%Q ∧
       (∀ q, Fin q ∈ l → (q <= M)%Q) ∧
       (M = m0 ∨ Fin M ∈ l).
Proof.
  revert m0. induction l as [|v l IH]; intros m0 Hl.
  - exists m0. split_and!; [done|apply Qle_refl| |by left].
    intros q Hq. by apply not_elem_of_nil in Hq.
  - apply Forall_cons in Hl as [[q0 ->] Hl]. simpl.
    destruct (Qle_bool m0 q0) eqn:Hle.
    + destruct (IH q0 Hl) as (M & -> & HqM & Hall & Hin).
      apply Qle_bool_iff in Hle.
      exists M. split_and!; [done|by eapply Qle_trans| |].
      * intros q Hq. apply elem_of_cons in Hq as [Hq|Hq]; [|by apply Hall].
        by inversion Hq; subst.
      * right. destruct Hin as [->|Hin]; [left|by right].
    + destruct (IH m0 Hl) as (M & -> & HqM & Hall & Hin).
      assert (Hlt : (q0 <= m0)%Q).
      { apply Qlt_le_weak, Qnot_le_lt. intros H.
        apply Qle_bool_iff in H. congruence. }
      exists M. split_and!; [done|done| |].
      * intros q Hq. apply elem_of_cons in Hq as [Hq|Hq]; [|by apply Hall].
        inversion Hq; subst. by eapply Qle_trans.
      * destruct Hin as [->|Hin]; [by left|right; by right].
Qed.

Lemma max_Fin (l : list np_float) m :
  Forall (λ v, ∃ q, v = Fin q) l → NumPy.max l = Some m →
  ∃ M, m = Fin M ∧ Fin M ∈ l ∧ ∀ q, Fin q ∈ l → (q <= M)%Q.
Proof.
  intros Hl Hmax. destruct l as [|v l]; [done|].
  apply Forall_cons in Hl as [[q0 ->] Hl]. simpl in Hmax. inversion Hmax as [Hm].
  destruct (foldl_fmax_Fin l q0 Hl) as (M & HM & Hq0 & Hall & Hin).
  exists M. split_and!; [done| |].
  - destruct Hin as [->|Hin]; [left|by right].
  - intros q Hq. apply elem_of_cons in Hq as [Hq|Hq]; [|by apply Hall].
    by inversion Hq; subst.
Qed.

Lemma elem_of_concat_get2 (a : matrix) v :
  v ∈ concat a ↔ ∃ i j, get2 a i j = Some v.
Proof.
  rewrite list_elem_of_In, in_concat. unfold get2. split.
  - intros (row & Hrow & Hv).
    apply list_elem_of_In, list_elem_of_lookup in Hrow as [i Hi].
    apply list_elem_of_In, list_elem_of_lookup in Hv as [j Hj].
    exists i, j. by rewrite Hi.
  - intros (i & j & Hget). destruct (a !! i) as [row|] eqn:Hrow; [|done].
    exists row. split; apply list_elem_of_In, list_elem_of_lookup; eauto.
Qed.

Lemma get2_lt n (a : matrix) i j v :
  square n a → get2 a i j = Some v → i < n ∧ j < n.
Proof.
  intros [Hlen Hrows] Hget. unfold get2 in Hget.
  destruct (a !! i) as [row|] eqn:Hrow; [|done]. simpl in Hget.
  rewrite Forall_lookup in Hrows. pose proof (Hrows _ _ Hrow) as Hr.
  apply lookup_lt_Some in Hrow, Hget. lia.
Qed.

(** The maximum that normalizes a raw matrix all of whose entries are
    finite: a finite value, not negative, and at least every entry. *)
Lemma max_mask_ge0_spec n (raw : matrix) m :
  square n raw →
  (∀ i j v, get2 raw i j = Some v → ∃ q, v = Fin q) →
  NumPy.max (mask_ge0 raw) = Some m →
  ∃ M, m = Fin M ∧ (0 <= M)%Q ∧
       ∀ i j q, get2 raw i j = Some (Fin q) → (0 <= q)%Q → (q <= M)%Q.
Proof.
  intros Hsq Hfin Hmax.
  destruct (max_Fin (mask_ge0 raw) m) as (M & -> & Hin & Hall); [|done|].
  { apply Forall_forall. intros v Hv.
    apply list_elem_of_filter in Hv as [_ Hv].
    apply elem_of_concat_get2 in Hv as (i & j & Hv). eauto. }
  exists M. split_and!; [done| |].
  - apply list_elem_of_filter in Hin as [Hge _]. by apply Qle_bool_iff in Hge.
  - intros i j q Hget Hq. apply Hall, list_elem_of_filter. split.
    + by apply Qle_bool_iff.
    + apply elem_of_concat_get2. eauto.
Qed.

(** A normalized entry that is finite: between 0 and 1 for a raw value
    that is not negative, and 99999 for a negative one. *)
Lemma norm_entry_Fin (raw : matrix) (M r q : Q) a b :
  getitem raw a b = Fin r → (0 <= M)%Q → ((0 <= r)%Q → (r <= M)%Q) →
  norm_entry raw (Fin M) a b = Fin q →
  ((0 <= r)%Q → (0 <= q)%Q ∧ (q <= 1)%Q) ∧ ((r < 0)%Q → q = 99999%Q).
Proof.
  intros Hraw HM HrM. unfold norm_entry. rewrite Hraw. simpl.
  destruct (Qle_bool 0 r) eqn:Hr; simpl.
  - apply Qle_bool_iff in Hr. specialize (HrM Hr).
    destruct (Qeq_bool M 0) eqn:HM0.
    { destruct (Qeq_bool r 0); [done|]. by destruct (Qle_bool 0 r). }
    intros Hq. inversion Hq as [Hq']. clear Hq.
    assert (HMpos : (0 < M)%Q).
    { apply Qle_lteq in HM as [HM|HM]; [done|].
      apply Qeq_bool_neq in HM0. by destruct HM0. }
    split.
    + intros _. split.
      * apply Qle_shift_div_l; [done|]. by rewrite Qmult_0_l.
      * apply Qle_shift_div_r; [done|]. by rewrite Qmult_1_l.
    + intros Hneg. exfalso. by apply (Qlt_not_le r 0).
  - intros Hq. inversion Hq. split; [|done].
    intros Hpos. apply Qle_bool_iff in Hpos. congruence.
Qed.

Section Combined.

Variable geodesic : Q * Q → Q * Q → Q.
Variable X : list observation.
Variable time_limit : Z.
Variable distance_limit : Q.

Hypothesis geodesic_nonneg : ∀ p q, (0 <= geodesic p q)%Q.
Hypothesis not_empty : 0 < length X.

Local Abbreviation n := (length X).
Local Abbreviation distance_matrix :=
  ((calculate_dist_time geodesic X time_limit distance_limit).1).
Local Abbreviation time_matrix :=
  ((calculate_dist_time geodesic X time_limit distance_limit).2).

Lemma distance_matrix_Fin i j v :
  get2 distance_matrix i j = Some v → ∃ q, v = Fin q.
Proof.
  intros Hget.
  destruct (get2_lt n _ i j v (square_distance_matrix _ _ _ _) Hget) as [Hi Hj].
  rewrite get2_distance_matrix in Hget by done. inversion Hget as [Hv].
  destruct (decide (i = j)); [eauto|].
  destruct (raw_dist_cases geodesic X distance_limit (i `min` j) (i `max` j))
    as (d & -> & _); eauto.
Qed.

Lemma time_matrix_Fin i j v :
  get2 time_matrix i j = Some v → ∃ q, v = Fin q.
Proof.
  intros Hget.
  destruct (get2_lt n _ i j v (square_time_matrix geodesic _ _ distance_limit) Hget)
    as [Hi Hj].
  rewrite get2_time_matrix in Hget by done. inversion Hget as [Hv].
  destruct (decide (i = j)); [eauto|].
  destruct (raw_time_cases X time_limit (i `min` j) (i `max` j)) as (d & -> & _); eauto.
Qed.

(** The stage up to the clustering: the three matrices it writes, and
    the two calls of the clustering routine on the combined one. *)
Lemma cluster_records_unfold :
  ∃ Md Mt total,
    NumPy.max (mask_ge0 distance_matrix) = Some (Fin Md) ∧
    NumPy.max (mask_ge0 time_matrix) = Some (Fin Mt) ∧
    (0 <= Md)%Q ∧ (0 <= Mt)%Q ∧
    (∀ i j q, get2 distance_matrix i j = Some (Fin q) → (0 <= q)%Q → (q <= Md)%Q) ∧
    (∀ i j q, get2 time_matrix i j = Some (Fin q) → (0 <= q)%Q → (q <= Mt)%Q) ∧
    total = NumPy.add
              (fill_sym (norm_entry distance_matrix (Fin Md)) n (zeros n n))
              (fill_sym (norm_entry time_matrix (Fin Mt)) n (zeros n n)) ∧
    total_distance geodesic X time_limit distance_limit = Some total ∧
    (cluster_records geodesic X time_limit distance_limit).2 =
      (labels1 ← sklearn.fit_predict
                   {| sklearn.eps := 500; sklearn.min_samples := 1 |} total;
       labels2 ← sklearn.fit_predict
                   {| sklearn.eps := 500; sklearn.min_samples := 2 |} total;
       Ok (labels1, labels2)).
Proof.
  destruct (calculate_normalized_matrices_Ok geodesic X time_limit distance_limit
              not_empty) as (max_dist & max_time & Hd & Ht & Hnorm).
  destruct (max_mask_ge0_spec n distance_matrix max_dist) as (Md & -> & HMd & Hdall);
    [apply square_distance_matrix|apply distance_matrix_Fin|done|].
  destruct (max_mask_ge0_spec n time_matrix max_time) as (Mt & -> & HMt & Htall);
    [apply square_time_matrix|apply time_matrix_Fin|done|].
  eexists Md, Mt, _. split_and!; try done.
  - unfold total_distance, cluster_records.
    destruct (calculate_dist_time geodesic X time_limit distance_limit) as [dm tm].
    simpl in Hnorm. rewrite Hnorm. done.
  - unfold cluster_records.
    destruct (calculate_dist_time geodesic X time_limit distance_limit) as [dm tm].
    simpl in Hnorm. rewrite Hnorm. done.
Qed.

End Combined.

Section CombinedEntries.

Variable geodesic : Q * Q → Q * Q → Q.
Variable X : list observation.
Variable time_limit : Z.
Variable distance_limit : Q.

Hypothesis geodesic_nonneg : ∀ p q, (0 <= geodesic p q)%Q.
Hypothesis not_empty : 0 < length X.

Local Abbreviation n := (length X).
Local Abbreviation distance_matrix :=
  ((calculate_dist_time geodesic X time_limit distance_limit).1).
Local Abbreviation time_matrix :=
  ((calculate_dist_time geodesic X time_limit distance_limit).2).

Lemma getitem_distance_matrix a b :
  a < b → b < n → getitem distance_matrix a b = raw_dist geodesic X distance_limit a b.
Proof.
  intros Hab Hb. unfold getitem.
  rewrite get2_distance_matrix, decide_False by lia.
  by rewrite Nat.min_l, Nat.max_r by lia.
Qed.

Lemma getitem_time_matrix a b :
  a < b → b < n → getitem time_matrix a b = raw_time X time_limit a b.
Proof.
  intros Hab Hb. unfold getitem.
  rewrite get2_time_matrix, decide_False by lia.
  by rewrite Nat.min_l, Nat.max_r by lia.
Qed.

(** The combined matrix the stage writes and clusters.  It is square with
    a zero diagonal.  When it holds no [nan], an entry off the diagonal is
    at most 2 for a pair within both limits and at least 99999 for any
    other pair. *)
Lemma combined_matrix_spec :
  ∃ total,
    total_distance geodesic X time_limit distance_limit = Some total ∧
    (cluster_records geodesic X time_limit distance_limit).2 =
      (labels1 ← sklearn.fit_predict
                   {| sklearn.eps := 500; sklearn.min_samples := 1 |} total;
       labels2 ← sklearn.fit_predict
                   {| sklearn.eps := 500; sklearn.min_samples := 2 |} total;
       Ok (labels1, labels2)) ∧
    square n total ∧
    (∀ i, i < n → get2 total i i = Some (Fin 0)) ∧
    (∀ i j, i < n → j < n → get2 total i j = get2 total j i) ∧
    (all_finite total →
     ∀ i j, i < n → j < n → i ≠ j →
       ∃ v, get2 total i j = Some (Fin v) ∧
            (within_limits geodesic X time_limit distance_limit i j →
               (0 <= v)%Q ∧ (v <= 2)%Q) ∧
            (¬ within_limits geodesic X time_limit distance_limit i j →
               (99999 <= v)%Q)).
Proof.
  destruct (cluster_records_unfold geodesic X time_limit distance_limit
              geodesic_nonneg not_empty)
    as (Md & Mt & total & _ & _ & HMd & HMt & Hdall & Htall & Htotal & Hsaved & Hrun).
  exists total. split; [done|]. split; [done|].
  assert (Hget : ∀ i j, i < n → j < n →
    get2 total i j =
    Some (if decide (i = j) then Fin 0
          else fadd (norm_entry distance_matrix (Fin Md) (i `min` j) (i `max` j))
                    (norm_entry time_matrix (Fin Mt) (i `min` j) (i `max` j)))).
  { intros i j Hi Hj. rewrite Htotal, get2_add.
    rewrite !fill_sym_get2 by (done || apply square_zeros).
    destruct (decide (i = j)) as [->|Hne]; [|done].
    by rewrite get2_zeros. }
  split_and!.
  - rewrite Htotal. apply square_add; apply square_fill_sym, square_zeros.
  - intros i Hi. by rewrite Hget, decide_True.
  - intros i j Hi Hj. rewrite !Hget by done.
    rewrite (Nat.min_comm j i), (Nat.max_comm j i).
    destruct (decide (i = j)) as [->|Hne]; [by rewrite decide_True|].
    by rewrite (decide_False (P := j = i)) by done.
  - intros Hfin i j Hi Hj Hne.
    destruct (all_finite_get2 total i j _ Hfin (Hget i j Hi Hj)) as [v Hv].
    rewrite decide_False in Hv by done.
    exists v. split; [by rewrite Hget, decide_False, Hv|].
    apply fadd_Fin_inv in Hv as (qd & qt & Hqd & Hqt & ->).
    set (a := i `min` j) in *. set (b := i `max` j) in *.
    assert (Hab : a < b) by lia. assert (Hb : b < n) by lia.
    destruct (raw_dist_cases geodesic X distance_limit a b geodesic_nonneg)
      as (rd & Hrd & Hrdc).
    destruct (raw_time_cases X time_limit a b) as (rt & Hrt & Hrtc).
    destruct (norm_entry_Fin distance_matrix Md rd qd a b) as [Hd_in Hd_out];
      [by rewrite getitem_distance_matrix| done | | done |].
    { intros Hrd0. apply (Hdall a b); [|done].
      rewrite (get2_getitem n), getitem_distance_matrix, Hrd by
        (done || lia || apply square_distance_matrix). done. }
    destruct (norm_entry_Fin time_matrix Mt rt qt a b) as [Ht_in Ht_out];
      [by rewrite getitem_time_matrix| done | | done |].
    { intros Hrt0. apply (Htall a b); [|done].
      rewrite (get2_getitem n), getitem_time_matrix, Hrt by
        (done || lia || apply square_time_matrix). done. }
    assert (Hdw : (geodesic (r_lat (iloc X a), r_long (iloc X a))
                     (r_lat (iloc X b), r_long (iloc X b)) <= distance_limit)%Q
                  ↔ (0 <= rd)%Q).
    { unfold raw_dist, within_distance_limit in Hrd.
      destruct (Qle_bool _ distance_limit) eqn:Hle; inversion Hrd; subst rd.
      - apply Qle_bool_iff in Hle. split; [intros _; apply geodesic_nonneg|done].
      - split; [|done]. intros Hle'. apply Qle_bool_iff in Hle'. congruence. }
    assert (Htw : (Z.abs (r_data (iloc X a) - r_data (iloc X b)) <= time_limit)%Z
                  ↔ (0 <= rt)%Q).
    { unfold raw_time, within_time_limit in Hrt.
      destruct (Z.leb_spec (Z.abs (r_data (iloc X a) - r_data (iloc X b))) time_limit)
        as [Hle|Hgt]; inversion Hrt; subst rt.
      - split; [|done]. intros _. change 0%Q with (inject_Z 0).
        rewrite <- Zle_Qle. lia.
      - split; [lia|done]. }
    assert (Hqd0 : (0 <= qd)%Q).
    { destruct Hrdc as [[H0 _]| ->]; [by apply Hd_in|]. by rewrite Hd_out. }
    assert (Hqt0 : (0 <= qt)%Q).
    { destruct Hrtc as [[H0 _]| ->]; [by apply Ht_in|]. by rewrite Ht_out. }
    unfold within_limits. fold a b. cbv zeta. rewrite Hdw, Htw. split.
    + intros [Hrd0 Hrt0]. destruct (Hd_in Hrd0), (Ht_in Hrt0). split; lra.
    + intros Hout.
      destruct Hrdc as [[Hrd0 _]| ->]; [|rewrite Hd_out by done; lra].
      destruct Hrtc as [[Hrt0 _]| ->]; [|rewrite Ht_out by done; lra].
      tauto.
Qed.

End CombinedEntries.

(** ** The depth-first search of the clustering routine *)

Lemma depth_first_search_unfold fuel is_core neighborhoods c i stack labels :
  sklearn.depth_first_search (S fuel) is_core neighborhoods c i stack labels =
  match dfs_step is_core neighborhoods c i stack labels with
  | (labels1, []) => Ok labels1
  | (labels1, v :: s) =>
      sklearn.depth_first_search fuel is_core neighborhoods c v s labels1
  end.
Proof. done. Qed.

Lemma dbscan_inner_unfold is_core neighborhoods labels :
  sklearn.dbscan_inner is_core neighborhoods labels =
  (st ← foldl (scan_step is_core neighborhoods (length labels)) (Ok (labels, 0%Z))
         (range 0 (length labels));
   Ok st.1).
Proof.
  unfold sklearn.dbscan_inner. cbv zeta.
  by destruct (foldl _ _ _) as [[? ?]|?|].
Qed.

Lemma elem_of_push_unlabelled labels stack nb w :
  w ∈ push_unlabelled labels stack nb ↔
  w ∈ stack ∨ (w ∈ nb ∧ labels !! w = Some (-1)%Z).
Proof.
  unfold push_unlabelled. revert stack.
  induction nb as [|v nb IH]; intros stack; simpl.
  - split; [by left|]. intros [?|[H _]]; [done|]. by apply not_elem_of_nil in H.
  - rewrite IH. case_bool_decide as Hv.
    + rewrite !elem_of_cons. split.
      * intros [[->|?]|[? ?]]; auto.
      * intros [?|[[->|?] ?]]; auto.
    + rewrite !elem_of_cons. split.
      * intros [?|[? ?]]; auto.
      * intros [?|[[->|?] ?]]; auto. done.
Qed.

Lemma length_push_unlabelled labels stack nb :
  length (push_unlabelled labels stack nb) ≤ length stack + length nb.
Proof.
  unfold push_unlabelled. revert stack.
  induction nb as [|v nb IH]; intros stack; simpl; [lia|].
  etrans; [apply IH|]. case_bool_decide; simpl; lia.
Qed.

Lemma unlabelled_insert (labels : list Z) i c :
  labels !! i = Some (-1)%Z → c ≠ (-1)%Z →
  S (unlabelled (<[i := c]> labels)) = unlabelled labels.
Proof.
  unfold unlabelled. revert i. induction labels as [|l labels IH]; intros i Hi Hc; [done|].
  destruct i as [|i]; simpl in *.
  - inversion Hi; subst l. rewrite !filter_cons.
    destruct (decide (c = (-1)%Z)); [done|]. by rewrite decide_True.
  - specialize (IH i Hi Hc). rewrite !filter_cons.
    destruct (decide (l = (-1)%Z)); simpl; lia.
Qed.

Lemma dfs_step_cases is_core neighborhoods c i stack labels :
  (labels !! i = Some (-1)%Z ∧
   dfs_step is_core neighborhoods c i stack labels =
     (<[i := c]> labels,
      if default false (is_core !! i)
      then push_unlabelled (<[i := c]> labels) stack (default [] (neighborhoods !! i))
      else stack)) ∨
  (labels !! i ≠ Some (-1)%Z ∧
   dfs_step is_core neighborhoods c i stack labels = (labels, stack)).
Proof.
  unfold dfs_step. case_bool_decide; [left|right]; (split; [done|]).
  - by destruct (default false (is_core !! i)).
  - done.
Qed.

Section DepthFirstSearch.

Variable n : nat.
Variable is_core : list bool.
Variable neighborhoods : list (list nat).

(** A neighbourhood holds at most [n] observations, all below [n]. *)
Hypothesis neighborhoods_size :
  ∀ u nb, neighborhoods !! u = Some nb → length nb ≤ n.
Hypothesis neighborhoods_lt :
  ∀ u v, adjacent neighborhoods u v → u < n ∧ v < n.

Lemma dfs_step_measure c i stack labels labels1 stack1 :
  (0 <= c)%Z →
  dfs_step is_core neighborhoods c i stack labels = (labels1, stack1) →
  unlabelled labels1 * S n + length stack1 ≤ unlabelled labels * S n + length stack.
Proof.
  intros Hc Hstep.
  destruct (dfs_step_cases is_core neighborhoods c i stack labels) as [[Hi H]|[Hi H]];
    rewrite H in Hstep; inversion Hstep; subst labels1 stack1; [|done].
  pose proof (unlabelled_insert labels i c Hi) as Hun.
  rewrite <- Hun by lia.
  destruct (default false (is_core !! i)); [|lia].
  pose proof (length_push_unlabelled (<[i:=c]> labels) stack
                (default [] (neighborhoods !! i))) as Hpush.
  assert (length (default [] (neighborhoods !! i)) ≤ n).
  { destruct (neighborhoods !! i) as [nb|] eqn:Hnb; simpl; [|lia].
    by eapply neighborhoods_size. }
  lia.
Qed.

(** The rule of the search: a property of the labels, the observation at
    hand and the stack that every turn of the loop keeps holds when the
    loop ends, and the loop ends within the budget. *)
Lemma dfs_rule (P : nat → list nat → list Z → Prop) (Q : list Z → Prop) c :
  (0 <= c)%Z →
  (∀ i stack labels labels1 stack1,
     P i stack labels →
     dfs_step is_core neighborhoods c i stack labels = (labels1, stack1) →
     match stack1 with [] => Q labels1 | v :: s => P v s labels1 end) →
  ∀ fuel i stack labels,
    unlabelled labels * S n + length stack < fuel →
    P i stack labels →
    ∃ labels',
      sklearn.depth_first_search fuel is_core neighborhoods c i stack labels = Ok labels' ∧
      Q labels'.
Proof.
  intros Hc Hstep fuel. induction fuel as [|fuel IH]; intros i stack labels Hfuel HP.
  { lia. }
  rewrite depth_first_search_unfold.
  destruct (dfs_step is_core neighborhoods c i stack labels) as [labels1 stack1] eqn:Hs.
  pose proof (Hstep _ _ _ _ _ HP Hs) as Hnext.
  pose proof (dfs_step_measure _ _ _ _ _ _ Hc Hs) as Hmeasure.
  destruct stack1 as [|v s]; [eauto|].
  apply IH; [|done]. simpl in Hmeasure. lia.
Qed.

Lemma unlabelled_le (labels : list Z) : unlabelled labels ≤ length labels.
Proof. apply length_filter. Qed.

(** The rule of the scan: a property of the labels and of the next label
    that every turn of the loop keeps holds when the loop ends. *)
Lemma scan_rule (I : nat → list Z → Z → Prop) labels0 :
  I 0 labels0 0%Z →
  (∀ i labels c, i < n → I i labels c →
     ∃ labels' c',
       scan_step is_core neighborhoods n (Ok (labels, c)) i = Ok (labels', c') ∧
       I (S i) labels' c') →
  ∃ labels' c',
    foldl (scan_step is_core neighborhoods n) (Ok (labels0, 0%Z)) (range 0 n) =
      Ok (labels', c') ∧
    I n labels' c'.
Proof.
  intros Hinit Hstep. unfold range. rewrite Nat.sub_0_r.
  assert (Hgen : ∀ k a labels c, a + k = n → I a labels c →
    ∃ labels' c',
      foldl (scan_step is_core neighborhoods n) (Ok (labels, c)) (seq a k) =
        Ok (labels', c') ∧ I n labels' c').
  { induction k as [|k IH]; intros a labels c Hak HI.
    - exists labels, c. split; [done|]. by replace n with a by lia.
    - destruct (Hstep a labels c) as (labels1 & c1 & Hs & HI1); [lia|done|].
      cbn [seq foldl]. rewrite Hs. apply IH; [lia|done]. }
  by apply Hgen.
Qed.

(** A turn of the scan that starts a search, for a property [I] that the
    search establishes from a property [P] of its turns. *)
Lemma scan_step_search (P : nat → list nat → list Z → Prop) (Q : list Z → Prop)
    i labels c :
  length labels = n → (0 <= c)%Z →
  labels !! i = Some (-1)%Z → default false (is_core !! i) = true →
  (∀ j stack labels labels1 stack1,
     P j stack labels →
     dfs_step is_core neighborhoods c j stack labels = (labels1, stack1) →
     match stack1 with [] => Q labels1 | v :: s => P v s labels1 end) →
  P i [] labels →
  ∃ labels',
    scan_step is_core neighborhoods n (Ok (labels, c)) i = Ok (labels', (c + 1)%Z) ∧
    Q labels'.
Proof.
  intros Hlen Hc Hi Hcore Hstep HP.
  destruct (dfs_rule P Q c Hc Hstep (S (n * S n)) i [] labels) as (labels' & Hrun & HQ);
    [|done|].
  { pose proof (unlabelled_le labels) as Hle. rewrite Hlen in Hle. simpl.
    assert (unlabelled labels * S n ≤ n * S n) by (apply Nat.mul_le_mono_r; lia).
    lia. }
  exists labels'. split; [|done].
  unfold scan_step. rewrite bind_Ok.
  rewrite bool_decide_false, Hcore by (by intros []). cbn [orb negb].
  rewrite Hrun. done.
Qed.

Lemma scan_step_skip i labels c :
  labels !! i ≠ Some (-1)%Z ∨ default false (is_core !! i) = false →
  scan_step is_core neighborhoods n (Ok (labels, c)) i = Ok (labels, c).
Proof.
  intros Hskip. unfold scan_step. rewrite bind_Ok.
  destruct Hskip as [Hl|Hcore].
  - by rewrite bool_decide_true.
  - rewrite Hcore. simpl. by rewrite orb_true_r.
Qed.

End DepthFirstSearch.

Lemma elem_of_neighborhood neighborhoods u v :
  v ∈ default [] (neighborhoods !! u) ↔ adjacent neighborhoods u v.
Proof.
  unfold adjacent. destruct (neighborhoods !! u) as [nb|]; simpl.
  - split; [eauto|]. by intros (nb' & [= <-] & Hv).
  - split; [by intros H%not_elem_of_nil|]. by intros (nb' & ? & _).
Qed.

(** ** Clusters when every observation is a core point *)

Section Closure.

Variable n : nat.
Variable is_core : list bool.
Variable neighborhoods : list (list nat).

Hypothesis neighborhoods_size :
  ∀ u nb, neighborhoods !! u = Some nb → length nb ≤ n.
Hypothesis neighborhoods_lt :
  ∀ u v, adjacent neighborhoods u v → u < n ∧ v < n.
Hypothesis adjacent_sym :
  ∀ u v, adjacent neighborhoods u v → adjacent neighborhoods v u.
Hypothesis all_core : ∀ u, u < n → default false (is_core !! u) = true.

Lemma closure_step c start j stack labels labels1 stack1 :
  (0 <= c)%Z →
  closure_inv neighborhoods n c start (j :: stack) labels →
  dfs_step is_core neighborhoods c j stack labels = (labels1, stack1) →
  closure_inv neighborhoods n c start stack1 labels1.
Proof.
  intros Hc (Hlen & Hpend & Hrng & Hold & Hnew & Hdone & Hstart) Hstep.
  assert (Hj : j < n) by (apply Hpend; left).
  destruct (dfs_step_cases is_core neighborhoods c j stack labels) as [[Hlj H]|[Hlj H]];
    rewrite H in Hstep; inversion Hstep; subst labels1 stack1; clear Hstep H.
  - rewrite (all_core j Hj).
    assert (Hlook : ∀ v, <[j := c]> labels !! v =
                         if decide (v = j) then Some c else labels !! v).
    { intros v. rewrite list_lookup_insert.
      destruct (decide (v = j)) as [->|Hne].
      - rewrite decide_True; [done|]. split; [done|lia].
      - rewrite decide_False; [done|]. intros [? _]. done. }
    split_and!.
    + by rewrite length_insert.
    + intros w Hw. apply elem_of_push_unlabelled in Hw as [Hw|[Hw _]].
      * apply Hpend. by right.
      * apply elem_of_neighborhood in Hw. by apply (neighborhoods_lt j w).
    + intros v l. rewrite Hlook. destruct (decide (v = j)) as [->|Hne]; [|apply Hrng].
      intros [= <-]. right. lia.
    + intros u v l. rewrite !Hlook.
      destruct (decide (u = j)) as [->|Hu]; [by intros [= <-]|].
      intros Hl Hl1 Hlc Hadj. pose proof (Hold u v l Hl Hl1 Hlc Hadj) as Hv.
      destruct (decide (v = j)) as [->|Hv']; [|done]. congruence.
    + intros u v. rewrite !Hlook. intros Hu Hadj.
      destruct (decide (v = j)) as [->|Hv]; [by left|].
      destruct (decide (u = j)) as [->|Hu'].
      * destruct (neighborhoods_lt j v Hadj) as [_ Hvn].
        destruct (lookup_lt_is_Some_2 labels v) as [lv Hlv]; [lia|].
        rewrite Hlv. destruct (decide (lv = c)) as [->|Hlvc]; [by left|].
        destruct (decide (lv = (-1)%Z)) as [->|Hlv1].
        -- right. split; [done|]. apply elem_of_push_unlabelled. right.
           split; [by apply elem_of_neighborhood|].
           by rewrite Hlook, decide_False.
        -- pose proof (Hold v j lv Hlv Hlv1 Hlvc (adjacent_sym j v Hadj)). congruence.
      * destruct (Hnew u v Hu Hadj) as [Hv'|[Hv' Hin]]; [by left|].
        right. split; [done|]. apply elem_of_push_unlabelled. left.
        apply elem_of_cons in Hin as [->|Hin]; done.
    + intros u Hu. rewrite Hlook. destruct (decide (u = j)) as [->|Hne].
      * intros [= ?]. lia.
      * by apply Hdone.
    + rewrite Hlook. destruct (decide (start = j)) as [->|Hne].
      * left. intros [= ?]. lia.
      * destruct Hstart as [Hs|Hs]; [by left|]. right.
        apply elem_of_push_unlabelled. left.
        apply elem_of_cons in Hs as [->|Hs]; done.
  - split_and!; try done.
    + intros w Hw. apply Hpend. by right.
    + intros u v Hu Hadj. destruct (Hnew u v Hu Hadj) as [Hv|[Hv Hin]]; [by left|].
      right. split; [done|]. apply elem_of_cons in Hin as [->|Hin]; done.
    + destruct Hstart as [Hs|Hs]; [by left|].
      apply elem_of_cons in Hs as [->|Hs]; [by left|by right].
Qed.

Lemma closed_labels_step i labels c :
  i < n → closed_labels neighborhoods n i labels c →
  ∃ labels' c',
    scan_step is_core neighborhoods n (Ok (labels, c)) i = Ok (labels', c') ∧
    closed_labels neighborhoods n (S i) labels' c'.
Proof.
  intros Hi (Hlen & Hc & Hrng & Hclosed & Hdone).
  destruct (decide (labels !! i = Some (-1)%Z)) as [Hli|Hli].
  - destruct (scan_step_search n is_core neighborhoods neighborhoods_size
                (λ j stack labels, closure_inv neighborhoods n c i (j :: stack) labels)
                (closure_inv neighborhoods n c i [])
                i labels c Hlen Hc Hli (all_core i Hi))
      as (labels' & Hrun & Hlen' & _ & Hrng' & Hold & Hnew & Hdone' & Hstart).
    + intros j stack l l1 s1 HP Hs.
      pose proof (closure_step c i j stack l l1 s1 Hc HP Hs) as Hinv.
      by destruct s1.
    + split_and!; try done.
      * intros w Hw. apply list_elem_of_singleton in Hw as ->. done.
      * intros v l Hl. destruct (Hrng v l Hl); [by left|right; lia].
      * intros u v l Hl Hl1 _. by apply Hclosed.
      * intros u v Hu. destruct (Hrng u c Hu); lia.
      * right. left.
    + exists labels', (c + 1)%Z. split; [done|]. split_and!; [done|lia| | |].
      * intros v l Hl. destruct (Hrng' v l Hl); [by left|right; lia].
      * intros u v l Hl Hl1 Hadj. destruct (decide (l = c)) as [->|Hlc].
        -- destruct (Hnew u v Hl Hadj) as [Hv|[_ Hin]]; [done|].
           by apply not_elem_of_nil in Hin.
        -- by apply (Hold u v l).
      * intros u Hu. destruct (decide (u = i)) as [->|Hne]; [|apply Hdone'; lia].
        destruct Hstart as [Hs|Hs]; [done|]. by apply not_elem_of_nil in Hs.
  - exists labels, c. split; [apply scan_step_skip; by left|].
    split_and!; try done.
    intros u Hu. destruct (decide (u = i)) as [->|Hne]; [done|apply Hdone; lia].
Qed.

(** With every observation a core point, the scan returns, gives every
    observation a label that is not negative, and gives adjacent
    observations the same label. *)
Lemma dbscan_inner_closed :
  ∃ labels,
    sklearn.dbscan_inner is_core neighborhoods (replicate n (-1)%Z) = Ok labels ∧
    length labels = n ∧
    (∀ u, u < n → ∃ l, labels !! u = Some l ∧ (0 <= l)%Z) ∧
    (∀ u v l, labels !! u = Some l → adjacent neighborhoods u v → labels !! v = Some l).
Proof.
  destruct (scan_rule n is_core neighborhoods (closed_labels neighborhoods n)
              (replicate n (-1)%Z)) as (labels & c & Hrun & Hlen & Hc & Hrng & Hclosed & Hdone).
  - split_and!; [apply length_replicate|done| | |lia].
    + intros v l Hl. apply lookup_replicate in Hl as [-> _]. by left.
    + intros u v l Hl Hl1. apply lookup_replicate in Hl as [-> _]. done.
  - intros i l c Hi HI. by apply closed_labels_step.
  - exists labels. rewrite dbscan_inner_unfold, length_replicate, Hrun.
    assert (Hall : ∀ u, u < n → ∃ l, labels !! u = Some l ∧ (0 <= l)%Z).
    { intros u Hu. destruct (lookup_lt_is_Some_2 labels u) as [l Hl]; [lia|].
      exists l. split; [done|].
      destruct (Hrng u l Hl) as [->|?]; [|lia]. by destruct (Hdone u Hu). }
    split_and!; try done.
    intros u v l Hl Hadj. apply (Hclosed u v l Hl); [|done].
    destruct (neighborhoods_lt u v Hadj) as [Hu _].
    destruct (Hall u Hu) as (l' & Hl' & Hpos). assert (l = l') by congruence. lia.
Qed.

End Closure.

(** ** The scan in general, and observations that are in no neighbourhood *)

Section Scan.

Variable n : nat.
Variable is_core : list bool.
Variable neighborhoods : list (list nat).

Hypothesis neighborhoods_size :
  ∀ u nb, neighborhoods !! u = Some nb → length nb ≤ n.

(** The scan returns within its budget, whatever the neighbourhoods. *)
Lemma dbscan_inner_total :
  ∃ labels,
    sklearn.dbscan_inner is_core neighborhoods (replicate n (-1)%Z) = Ok labels ∧
    length labels = n.
Proof.
  destruct (scan_rule n is_core neighborhoods
              (λ _ labels c, length labels = n ∧ (0 <= c)%Z) (replicate n (-1)%Z))
    as (labels & c & Hrun & Hlen & _).
  - split; [apply length_replicate|done].
  - intros i labels c Hi [Hlen Hc].
    destruct (decide (labels !! i = Some (-1)%Z ∧ default false (is_core !! i) = true))
      as [[Hli Hcore]|Hskip].
    + destruct (scan_step_search n is_core neighborhoods neighborhoods_size
                  (λ _ _ labels, length labels = n) (λ labels, length labels = n)
                  i labels c Hlen Hc Hli Hcore) as (labels' & Hrun & Hlen'); [|done|].
      * intros j stack l l1 s1 HP Hs.
        assert (length l1 = n).
        { destruct (dfs_step_cases is_core neighborhoods c j stack l) as [[_ H]|[_ H]];
            rewrite H in Hs; inversion Hs; subst; [by rewrite length_insert|done]. }
        by destruct s1.
      * exists labels', (c + 1)%Z. split; [done|]. split; [done|lia].
    + exists labels, c. split; [|done]. apply scan_step_skip.
      destruct (decide (labels !! i = Some (-1)%Z)); [|by left].
      right. destruct (default false (is_core !! i)); [|done]. by destruct Hskip.
  - exists labels. by rewrite dbscan_inner_unfold, length_replicate, Hrun.
Qed.

Variable x : nat.
Hypothesis x_lt : x < n.

(** [x] is in no neighbourhood but its own, which holds nothing else. *)
Hypothesis isolated :
  ∀ u, adjacent neighborhoods u x ∨ adjacent neighborhoods x u → u = x.

Lemma avoid_step labels0 c j stack labels labels1 stack1 :
  (0 <= c)%Z →
  avoid_inv x labels0 c (j :: stack) labels →
  dfs_step is_core neighborhoods c j stack labels = (labels1, stack1) →
  avoid_inv x labels0 c stack1 labels1.
Proof.
  intros Hc (Hlen & Hpend & Hframe & Hx) Hstep.
  assert (Hjx : j ≠ x) by (intros ->; apply Hpend; left).
  destruct (dfs_step_cases is_core neighborhoods c j stack labels) as [[Hlj H]|[Hlj H]];
    rewrite H in Hstep; inversion Hstep; subst labels1 stack1; clear Hstep H.
  - assert (Hj : j < length labels) by by apply lookup_lt_Some in Hlj.
    split_and!.
    + by rewrite length_insert.
    + destruct (default false (is_core !! j)).
      * intros Hin. apply elem_of_push_unlabelled in Hin as [Hin|[Hin _]].
        -- apply Hpend. by right.
        -- apply elem_of_neighborhood in Hin. apply Hjx, isolated. by left.
      * intros Hin. apply Hpend. by right.
    + intros v. destruct (decide (v = j)) as [->|Hne].
      * right. rewrite list_lookup_insert_eq by done. split; [|done].
        destruct (Hframe j) as [<-|[_ Hcj]]; [done|].
        rewrite Hcj in Hlj. inversion Hlj. lia.
      * rewrite list_lookup_insert_ne by done. apply Hframe.
    + by rewrite list_lookup_insert_ne.
  - split_and!; try done. intros Hin. apply Hpend. by right.
Qed.

(** A search that starts elsewhere leaves [x] as it is. *)
Lemma scan_step_avoid i labels c :
  length labels = n → (0 <= c)%Z → i ≠ x →
  labels !! i = Some (-1)%Z → default false (is_core !! i) = true →
  ∃ labels',
    scan_step is_core neighborhoods n (Ok (labels, c)) i = Ok (labels', (c + 1)%Z) ∧
    avoid_inv x labels c [] labels'.
Proof.
  intros Hlen Hc Hix Hli Hcore.
  apply (scan_step_search n is_core neighborhoods neighborhoods_size
           (λ j stack l, avoid_inv x labels c (j :: stack) l)); try done.
  - intros j stack l l1 s1 HP Hs.
    pose proof (avoid_step labels c j stack l l1 s1 Hc HP Hs). by destruct s1.
  - split_and!; try done; [|by left].
    intros Hin. by apply list_elem_of_singleton in Hin.
Qed.

(** A search that starts at [x] labels [x] and nothing else. *)
Lemma scan_step_alone labels c :
  length labels = n → (0 <= c)%Z →
  labels !! x = Some (-1)%Z → default false (is_core !! x) = true →
  scan_step is_core neighborhoods n (Ok (labels, c)) x =
    Ok (<[x := c]> labels, (c + 1)%Z).
Proof.
  intros Hlen Hc Hlx Hcore.
  destruct (scan_step_search n is_core neighborhoods neighborhoods_size
              (λ j stack l, j = x ∧ stack = [] ∧ l = labels)
              (λ l, l = <[x := c]> labels) x labels c Hlen Hc Hlx Hcore)
    as (labels' & Hrun & ->); [|done|done].
  intros j stack l l1 s1 (-> & -> & ->) Hs.
  destruct (dfs_step_cases is_core neighborhoods c x [] labels) as [[_ H]|[Hne _]];
    [|done].
  rewrite H, Hcore in Hs. inversion Hs as [[Hl1 Hs1]].
  destruct (push_unlabelled _ _ _) as [|w s] eqn:Hpush; [done|].
  assert (Hw : w ∈ push_unlabelled (<[x:=c]> labels) [] (default [] (neighborhoods !! x))).
  { rewrite Hpush. left. }
  apply elem_of_push_unlabelled in Hw as [Hw|[Hw Hlw]]; [by apply not_elem_of_nil in Hw|].
  apply elem_of_neighborhood in Hw.
  assert (w = x) as -> by (apply isolated; by right).
  rewrite list_lookup_insert_eq in Hlw by lia. inversion Hlw. lia.
Qed.

(** When [x] is not a core point, it is noise. *)
Lemma dbscan_inner_noise :
  default false (is_core !! x) = false →
  ∃ labels,
    sklearn.dbscan_inner is_core neighborhoods (replicate n (-1)%Z) = Ok labels ∧
    length labels = n ∧ labels !! x = Some (-1)%Z.
Proof.
  intros Hx.
  destruct (scan_rule n is_core neighborhoods
              (λ _ labels c, length labels = n ∧ (0 <= c)%Z ∧ labels !! x = Some (-1)%Z)
              (replicate n (-1)%Z))
    as (labels & c & Hrun & Hlen & _ & Hlx).
  - split_and!; [apply length_replicate|done|by apply lookup_replicate_2].
  - intros i labels c Hi (Hlen & Hc & Hlx).
    destruct (decide (labels !! i = Some (-1)%Z ∧ default false (is_core !! i) = true))
      as [[Hli Hcore]|Hskip].
    + destruct (scan_step_avoid i labels c Hlen Hc) as (labels' & Hrun & Hl & _ & _ & Hx');
        [congruence|done..|].
      exists labels', (c + 1)%Z. split; [done|]. split_and!; [congruence|lia|congruence].
    + exists labels, c. split; [|done]. apply scan_step_skip.
      destruct (decide (labels !! i = Some (-1)%Z)); [|by left].
      right. destruct (default false (is_core !! i)); [|done]. by destruct Hskip.
  - exists labels. by rewrite dbscan_inner_unfold, length_replicate, Hrun.
Qed.

(** When every observation is a core point, no other observation has
    the label of [x]. *)
Lemma dbscan_inner_own_label :
  (∀ u, u < n → default false (is_core !! u) = true) →
  ∃ labels,
    sklearn.dbscan_inner is_core neighborhoods (replicate n (-1)%Z) = Ok labels ∧
    ∀ v l, v ≠ x → labels !! x = Some l → l ≠ (-1)%Z → labels !! v ≠ Some l.
Proof.
  intros Hall.
  destruct (scan_rule n is_core neighborhoods
              (λ _ labels c,
                 length labels = n ∧ (0 <= c)%Z ∧
                 (∀ v l, labels !! v = Some l → l = (-1)%Z ∨ (0 <= l < c)%Z) ∧
                 (∀ v l, v ≠ x → labels !! x = Some l → l ≠ (-1)%Z →
                         labels !! v ≠ Some l))
              (replicate n (-1)%Z))
    as (labels & c & Hrun & _ & _ & _ & Hown).
  - split_and!; [apply length_replicate|done| |].
    + intros v l Hl. apply lookup_replicate in Hl as [-> _]. by left.
    + intros v l _ Hl Hl1. apply lookup_replicate in Hl as [-> _]. done.
  - intros i labels c Hi (Hlen & Hc & Hrng & Hown).
    destruct (decide (labels !! i = Some (-1)%Z)) as [Hli|Hli].
    + destruct (decide (i = x)) as [->|Hix].
      * exists (<[x := c]> labels), (c + 1)%Z.
        split; [by apply scan_step_alone; auto|].
        split_and!; [by rewrite length_insert|lia| |].
        -- intros v l. destruct (decide (v = x)) as [->|Hne].
           ++ rewrite list_lookup_insert_eq by lia. intros [= <-]. right. lia.
           ++ rewrite list_lookup_insert_ne by done. intros Hl.
              destruct (Hrng v l Hl); [by left|right; lia].
        -- intros v l Hne. rewrite list_lookup_insert_eq by lia.
           rewrite list_lookup_insert_ne by done. intros [= <-] _ Hv.
           destruct (Hrng v c Hv); lia.
      * destruct (scan_step_avoid i labels c Hlen Hc Hix Hli (Hall i Hi))
          as (labels' & Hrun & Hl & _ & Hframe & Hx').
        exists labels', (c + 1)%Z. split; [done|].
        split_and!; [congruence|lia| |].
        -- intros v l Hv. destruct (Hframe v) as [Heq|[_ Hcv]].
           ++ rewrite Heq in Hv. destruct (Hrng v l Hv); [by left|right; lia].
           ++ rewrite Hcv in Hv. inversion Hv. right. lia.
        -- intros v l Hne Hlx Hl1 Hv. rewrite Hx' in Hlx.
           destruct (Hframe v) as [Heq|[_ Hcv]].
           ++ rewrite Heq in Hv. by apply (Hown v l).
           ++ rewrite Hcv in Hv. inversion Hv; subst l.
              destruct (Hrng x c Hlx); lia.
    + exists labels, c. split; [apply scan_step_skip; by left|done].
  - exists labels. by rewrite dbscan_inner_unfold, length_replicate, Hrun.
Qed.

End Scan.

(** ** Neighbourhoods within a radius *)

Lemma elem_of_where_le r row j0 v :
  v ∈ sklearn.where_le r row j0 ↔
  ∃ d, j0 ≤ v ∧ row !! (v - j0) = Some d ∧ fle d r = true.
Proof.
  revert j0. induction row as [|d0 row IH]; intros j0; simpl.
  - split; [by intros H%not_elem_of_nil|]. by intros (d & _ & ? & _).
  - assert (Htail : (∃ d, S j0 ≤ v ∧ row !! (v - S j0) = Some d ∧ fle d r = true) ↔
                    (∃ d, j0 ≤ v ∧ v ≠ j0 ∧ (d0 :: row) !! (v - j0) = Some d ∧
                          fle d r = true)).
    { split; intros (d & Hle & H).
      - exists d. split; [lia|]. split; [lia|].
        replace (v - j0) with (S (v - S j0)) by lia. done.
      - destruct H as (Hne & Hd & Hfle). exists d. split; [lia|].
        replace (v - j0) with (S (v - S j0)) in Hd by lia. done. }
    destruct (fle d0 r) eqn:Hd0.
    + rewrite elem_of_cons, IH, Htail. split.
      * intros [->|(d & ? & ? & ? & ?)]; [|eauto].
        exists d0. rewrite Nat.sub_diag. done.
      * intros (d & Hle & Hd & Hfle).
        destruct (decide (v = j0)) as [->|Hne]; [by left|]. right. eauto 6.
    + rewrite IH, Htail. split.
      * intros (d & ? & ? & ? & ?). eauto.
      * intros (d & Hle & Hd & Hfle).
        destruct (decide (v = j0)) as [->|Hne]; [|eauto 6].
        rewrite Nat.sub_diag in Hd. simpl in Hd. congruence.
Qed.

Lemma length_where_le r row j0 : length (sklearn.where_le r row j0) ≤ length row.
Proof.
  revert j0. induction row as [|d row IH]; intros j0; simpl; [done|].
  specialize (IH (S j0)). destruct (fle d r); simpl; lia.
Qed.

Lemma NoDup_where_le r row j0 : NoDup (sklearn.where_le r row j0).
Proof.
  revert j0. induction row as [|d row IH]; intros j0; simpl; [constructor|].
  destruct (fle d r); [|apply IH]. constructor; [|apply IH].
  rewrite elem_of_where_le. intros (? & ? & _). lia.
Qed.

Lemma adjacent_radius_neighbors radius (a : matrix) u v :
  adjacent (sklearn.radius_neighbors radius a) u v ↔
  ∃ d, get2 a u v = Some d ∧ fle d (Fin radius) = true.
Proof.
  unfold adjacent, sklearn.radius_neighbors, get2. rewrite list_lookup_fmap.
  destruct (a !! u) as [row|]; simpl.
  - split.
    + intros (nb & [= <-] & Hv). apply elem_of_where_le in Hv as (d & _ & Hd & Hfle).
      rewrite Nat.sub_0_r in Hd. eauto.
    + intros (d & Hd & Hfle). eexists. split; [done|].
      apply elem_of_where_le. exists d. rewrite Nat.sub_0_r. split; [lia|done].
  - split; [by intros (? & ? & _)|by intros (? & ? & _)].
Qed.

Lemma NoDup_singleton_length (l : list nat) (x : nat) :
  NoDup l → (∀ v, v ∈ l → v = x) → length l ≤ 1.
Proof.
  intros Hnd Hall. destruct l as [|a [|b l]]; simpl; [lia..|].
  assert (a = x) by (apply Hall; left).
  assert (b = x) by (apply Hall; right; left).
  subst. apply NoDup_cons in Hnd as [Hnin _]. destruct Hnin. left.
Qed.

(** ** The clustering routine on a combined matrix *)

Section FitPredict.

Variable n : nat.
Variable total : matrix.

Hypothesis total_square : square n total.
Hypothesis total_finite : all_finite total.
Hypothesis total_diagonal : ∀ i, i < n → get2 total i i = Some (Fin 0).
Hypothesis total_symmetric : ∀ i j, i < n → j < n → get2 total i j = get2 total j i.

Local Abbreviation neighborhoods := (sklearn.radius_neighbors 500 total).
Local Abbreviation core_samples k :=
  ((λ m, bool_decide (k ≤ m)) <$> (length <$> neighborhoods)).

Lemma fit_predict_unfold k :
  sklearn.fit_predict {| sklearn.eps := 500; sklearn.min_samples := k |} total =
  sklearn.dbscan_inner (core_samples k) neighborhoods (replicate n (-1)%Z).
Proof.
  unfold sklearn.fit_predict. rewrite total_finite. cbv zeta. simpl.
  unfold shape0. by rewrite (proj1 total_square).
Qed.

Lemma radius_neighbors_size u nb : neighborhoods !! u = Some nb → length nb ≤ n.
Proof.
  unfold sklearn.radius_neighbors. rewrite list_lookup_fmap.
  destruct (total !! u) as [row|] eqn:Hrow; [|done]. intros [= <-].
  destruct total_square as [_ Hrows]. rewrite Forall_lookup in Hrows.
  rewrite <- (Hrows _ _ Hrow). apply length_where_le.
Qed.

Lemma radius_neighbors_lt u v : adjacent neighborhoods u v → u < n ∧ v < n.
Proof.
  intros (d & Hd & _)%adjacent_radius_neighbors. by apply (get2_lt n total u v d).
Qed.

Lemma radius_adjacent_sym u v : adjacent neighborhoods u v → adjacent neighborhoods v u.
Proof.
  intros Hadj. destruct (radius_neighbors_lt u v Hadj) as [Hu Hv].
  apply adjacent_radius_neighbors in Hadj as (d & Hd & Hfle).
  apply adjacent_radius_neighbors. exists d. by rewrite total_symmetric.
Qed.

Lemma radius_adjacent_refl u : u < n → adjacent neighborhoods u u.
Proof.
  intros Hu. apply adjacent_radius_neighbors. exists (Fin 0).
  by rewrite total_diagonal.
Qed.

Lemma core_samples_lookup k u :
  u < n →
  ∃ nb, neighborhoods !! u = Some nb ∧
        default false (core_samples k !! u) = bool_decide (k ≤ length nb).
Proof.
  intros Hu. destruct (lookup_lt_is_Some_2 neighborhoods u) as [nb Hnb].
  { unfold sklearn.radius_neighbors. rewrite length_fmap, (proj1 total_square). done. }
  exists nb. split; [done|]. by rewrite !list_lookup_fmap, Hnb.
Qed.

Lemma all_core_1 u : u < n → default false (core_samples 1 !! u) = true.
Proof.
  intros Hu. destruct (core_samples_lookup 1 u Hu) as (nb & Hnb & ->).
  apply bool_decide_eq_true.
  destruct (radius_adjacent_refl u Hu) as (nb' & Hnb' & Hin).
  assert (nb' = nb) as -> by congruence. destruct nb; [|simpl; lia].
  by apply not_elem_of_nil in Hin.
Qed.

(** The pass with a minimum density of 1: it returns, every observation
    has a label that is not negative, and two observations within [eps]
    of each other have the same label. *)
Lemma fit_predict_1 :
  ∃ labels,
    sklearn.fit_predict {| sklearn.eps := 500; sklearn.min_samples := 1 |} total =
      Ok labels ∧
    length labels = n ∧
    (∀ u, u < n → ∃ l, labels !! u = Some l ∧ (0 <= l)%Z) ∧
    (∀ u v l, labels !! u = Some l → adjacent neighborhoods u v → labels !! v = Some l).
Proof.
  rewrite fit_predict_unfold.
  apply dbscan_inner_closed;
    [exact radius_neighbors_size|exact radius_neighbors_lt|exact radius_adjacent_sym|exact all_core_1].
Qed.

(** The pass with a minimum density of 2 returns. *)
Lemma fit_predict_2 :
  ∃ labels,
    sklearn.fit_predict {| sklearn.eps := 500; sklearn.min_samples := 2 |} total =
      Ok labels ∧
    length labels = n.
Proof.
  rewrite fit_predict_unfold. apply dbscan_inner_total, radius_neighbors_size.
Qed.

Variable x : nat.
Hypothesis x_lt : x < n.

(** No other observation is within [eps] of [x]. *)
Hypothesis x_alone : ∀ u d, u < n → u ≠ x → get2 total x u = Some d → fle d (Fin 500) = false.

Lemma alone_isolated u : adjacent neighborhoods u x ∨ adjacent neighborhoods x u → u = x.
Proof.
  intros Hadj.
  assert (Hxu : adjacent neighborhoods x u).
  { destruct Hadj; [by apply radius_adjacent_sym|done]. }
  destruct (radius_neighbors_lt x u Hxu) as [_ Hu].
  apply adjacent_radius_neighbors in Hxu as (d & Hd & Hfle).
  destruct (decide (u = x)) as [|Hne]; [done|].
  rewrite (x_alone u d Hu Hne Hd) in Hfle. done.
Qed.

Lemma not_core_2 : default false (core_samples 2 !! x) = false.
Proof.
  destruct (core_samples_lookup 2 x x_lt) as (nb & Hnb & ->).
  apply bool_decide_eq_false.
  assert (length nb ≤ 1); [|lia].
  apply (NoDup_singleton_length nb x).
  - unfold sklearn.radius_neighbors in Hnb. rewrite list_lookup_fmap in Hnb.
    destruct (total !! x); [|done]. inversion Hnb. apply NoDup_where_le.
  - intros v Hv. apply alone_isolated. right. by exists nb.
Qed.

(** In the pass with a minimum density of 2 [x] is noise; in the pass
    with a minimum density of 1 it has a label that no other observation
    has. *)
Lemma fit_predict_alone :
  ∃ labels1 labels2,
    sklearn.fit_predict {| sklearn.eps := 500; sklearn.min_samples := 1 |} total =
      Ok labels1 ∧
    sklearn.fit_predict {| sklearn.eps := 500; sklearn.min_samples := 2 |} total =
      Ok labels2 ∧
    labels2 !! x = Some (-1)%Z ∧
    ∃ l, labels1 !! x = Some l ∧ (0 <= l)%Z ∧ ∀ v, v ≠ x → labels1 !! v ≠ Some l.
Proof.
  destruct fit_predict_1 as (labels1 & Hrun1 & _ & Hpos & _).
  destruct (dbscan_inner_own_label n (core_samples 1) neighborhoods radius_neighbors_size
              x x_lt alone_isolated all_core_1) as (labels1' & Hrun1' & Hown).
  destruct (dbscan_inner_noise n (core_samples 2) neighborhoods radius_neighbors_size
              x x_lt alone_isolated not_core_2) as (labels2 & Hrun2 & _ & Hnoise).
  rewrite <- fit_predict_unfold in Hrun1', Hrun2.
  assert (labels1' = labels1) as -> by congruence.
  exists labels1, labels2. split_and!; try done.
  destruct (Hpos x x_lt) as (l & Hl & Hl0). exists l. split_and!; try done.
  intros v Hv. apply Hown; [done|done|lia].
Qed.

End FitPredict.

(** ** The clustering stage on tables whose combined matrix holds no nan *)

Section Stage.

Variable geodesic : Q * Q → Q * Q → Q.
Variable X : list observation.
Variable time_limit : Z.
Variable distance_limit : Q.

Hypothesis geodesic_nonneg : ∀ p q, (0 <= geodesic p q)%Q.
Hypothesis combined_is_finite : finite_combined geodesic X time_limit distance_limit.

Local Abbreviation n := (length X).

Lemma stage_spec :
  0 < n →
  ∃ total,
    total_distance geodesic X time_limit distance_limit = Some total ∧
    (cluster_records geodesic X time_limit distance_limit).2 =
      (labels1 ← sklearn.fit_predict
                   {| sklearn.eps := 500; sklearn.min_samples := 1 |} total;
       labels2 ← sklearn.fit_predict
                   {| sklearn.eps := 500; sklearn.min_samples := 2 |} total;
       Ok (labels1, labels2)) ∧
    square n total ∧ all_finite total ∧
    (∀ i, i < n → get2 total i i = Some (Fin 0)) ∧
    (∀ i j, i < n → j < n → get2 total i j = get2 total j i) ∧
    (∀ i j, i < n → j < n → i ≠ j →
       ∃ v, get2 total i j = Some (Fin v) ∧
            (within_limits geodesic X time_limit distance_limit i j →
               (0 <= v)%Q ∧ (v <= 2)%Q) ∧
            (¬ within_limits geodesic X time_limit distance_limit i j →
               (99999 <= v)%Q)).
Proof.
  intros Hn.
  destruct (combined_matrix_spec geodesic X time_limit distance_limit
              geodesic_nonneg Hn) as (total & Hsaved & Hrun & Hsq & Hdiag & Hsym & Hentry).
  destruct combined_is_finite as (total' & Hsaved' & Hfin).
  assert (total' = total) as -> by congruence.
  exists total. split_and!; auto.
Qed.

(** Observations within both limits of each other are within [eps]. *)
Lemma within_limits_adjacent total i j :
  (∀ i j, i < n → j < n → i ≠ j →
     ∃ v, get2 total i j = Some (Fin v) ∧
          (within_limits geodesic X time_limit distance_limit i j →
             (0 <= v)%Q ∧ (v <= 2)%Q) ∧
          (¬ within_limits geodesic X time_limit distance_limit i j →
             (99999 <= v)%Q)) →
  i < n → j < n → i ≠ j →
  within_limits geodesic X time_limit distance_limit i j →
  adjacent (sklearn.radius_neighbors 500 total) i j.
Proof.
  intros Hentry Hi Hj Hne Hin.
  destruct (Hentry i j Hi Hj Hne) as (v & Hv & Hle & _).
  apply adjacent_radius_neighbors. exists (Fin v). split; [done|].
  apply Qle_bool_iff. destruct (Hle Hin). lra.
Qed.

(** On these tables a pair out of range on an axis has a combined entry
    of at least 99999, which is not below [eps], and neither observation
    is in the neighbourhood of the other. *)
Theorem out_of_range_pair_is_unreachable i j :
  i < n → j < n → i ≠ j →
  let a := iloc X (i `min` j) in
  let b := iloc X (i `max` j) in
  (distance_limit < geodesic (r_lat a, r_long a) (r_lat b, r_long b))%Q ∨
  (time_limit < Z.abs (r_data a - r_data b))%Z →
  ∃ total v,
    total_distance geodesic X time_limit distance_limit = Some total ∧
    get2 total i j = Some (Fin v) ∧ (99999 <= v)%Q ∧
    flt (Fin v) (Fin 500) = false ∧ fle (Fin v) (Fin 500) = false ∧
    ¬ adjacent (sklearn.radius_neighbors 500 total) i j.
Proof.
  intros Hi Hj Hne a b Hout.
  destruct stage_spec as (total & Hsaved & _ & _ & _ & _ & _ & Hentry); [lia|].
  destruct (Hentry i j Hi Hj Hne) as (v & Hv & _ & Hge).
  assert (Hv' : (99999 <= v)%Q).
  { apply Hge. unfold within_limits. fold a b. cbv zeta. intros [Hd Ht].
    destruct Hout as [Hout|Hout]; [|lia]. by apply (Qlt_not_le _ _ Hout). }
  assert (Hfle : fle (Fin v) (Fin 500) = false).
  { simpl. destruct (Qle_bool v 500) eqn:Hle; [|done].
    apply Qle_bool_iff in Hle. lra. }
  exists total, v. split_and!; try done.
  - simpl. apply negb_false_iff, Qle_bool_iff. lra.
  - intros (d & Hd & Hdle)%adjacent_radius_neighbors. congruence.
Qed.

(** On these tables, when A-B and B-C are within both limits, the stage
    returns and A and C have the same Cluster1 label. *)
Theorem chained_observations_share_cluster1 A B C :
  A < n → B < n → C < n →
  within_limits geodesic X time_limit distance_limit A B →
  within_limits geodesic X time_limit distance_limit B C →
  ∃ labels1 labels2 l,
    (cluster_records geodesic X time_limit distance_limit).2 = Ok (labels1, labels2) ∧
    labels1 !! A = Some l ∧ labels1 !! C = Some l ∧ (0 <= l)%Z.
Proof.
  intros HA HB HC HAB HBC.
  destruct stage_spec as (total & _ & Hrun & Hsq & Hfin & Hdiag & Hsym & Hentry); [lia|].
  destruct (fit_predict_1 n total Hsq Hfin Hdiag Hsym)
    as (labels1 & Hrun1 & _ & Hpos & Hclosed).
  destruct (fit_predict_2 n total Hsq Hfin) as (labels2 & Hrun2 & _).
  destruct (Hpos A HA) as (l & Hl & Hl0).
  exists labels1, labels2, l. rewrite Hrun, Hrun1, Hrun2. split_and!; try done.
  assert (Hadj : ∀ u v, u < n → v < n →
            within_limits geodesic X time_limit distance_limit u v →
            adjacent (sklearn.radius_neighbors 500 total) u v).
  { intros u v Hu Hv Huv. destruct (decide (u = v)) as [->|Hne].
    - by apply (radius_adjacent_refl n).
    - by apply within_limits_adjacent. }
  apply (Hclosed B C l); [|by apply Hadj].
  apply (Hclosed A B l); [done|by apply Hadj].
Qed.

(** On these tables an observation that has no other observation within
    both limits is noise in Cluster2 and has in Cluster1 a label that is
    not negative and that no other observation has. *)
Theorem lone_observation_is_noise_with_own_cluster1 x :
  x < n →
  (∀ j, j < n → j ≠ x → ¬ within_limits geodesic X time_limit distance_limit x j) →
  ∃ labels1 labels2 l,
    (cluster_records geodesic X time_limit distance_limit).2 = Ok (labels1, labels2) ∧
    labels2 !! x = Some (-1)%Z ∧
    labels1 !! x = Some l ∧ (0 <= l)%Z ∧
    ∀ v, v ≠ x → labels1 !! v ≠ Some l.
Proof.
  intros Hx Halone.
  destruct stage_spec as (total & _ & Hrun & Hsq & Hfin & Hdiag & Hsym & Hentry); [lia|].
  destruct (fit_predict_alone n total Hsq Hfin Hdiag Hsym x Hx)
    as (labels1 & labels2 & Hrun1 & Hrun2 & Hnoise & l & Hl & Hl0 & Hown).
  { intros u d Hu Hne Hd.
    destruct (Hentry x u Hx Hu) as (v & Hv & _ & Hge); [done|].
    assert (d = Fin v) as -> by congruence.
    simpl. destruct (Qle_bool v 500) eqn:Hle; [|done].
    apply Qle_bool_iff in Hle. specialize (Hge (Halone u Hu Hne)). lra. }
  exists labels1, labels2, l. rewrite Hrun, Hrun1, Hrun2. done.
Qed.

End Stage.

(** On every table the diagonal of the two raw matrices, of the two
    normalized matrices and of the combined matrix is 0, which is within
    [eps]. *)
Theorem diagonals_are_zero (geodesic : Q * Q → Q * Q → Q) (X : list observation)
    (time_limit : Z) (distance_limit : Q) (i : nat) :
  i < length X →
  let distance_matrix := (calculate_dist_time geodesic X time_limit distance_limit).1 in
  let time_matrix := (calculate_dist_time geodesic X time_limit distance_limit).2 in
  get2 distance_matrix i i = Some (Fin 0) ∧
  get2 time_matrix i i = Some (Fin 0) ∧
  ∃ norm_distance_matrix norm_time_matrix,
    calculate_normalized_matrices distance_matrix time_matrix =
      Ok (norm_distance_matrix, norm_time_matrix) ∧
    get2 norm_distance_matrix i i = Some (Fin 0) ∧
    get2 norm_time_matrix i i = Some (Fin 0) ∧
    get2 (NumPy.add norm_distance_matrix norm_time_matrix) i i = Some (Fin 0) ∧
    fle (Fin 0) (Fin 500) = true.
Proof.
  intros Hi. cbv zeta.
  rewrite get2_distance_matrix, get2_time_matrix, !decide_True by done.
  split; [done|]. split; [done|].
  destruct (calculate_normalized_matrices_Ok geodesic X time_limit distance_limit)
    as (max_dist & max_time & _ & _ & ->); [lia|].
  eexists _, _. split; [done|].
  rewrite get2_add, !fill_sym_get2, !decide_True, !get2_zeros
    by (done || apply square_zeros).
  done.
Qed.

(** A run of the stage on the sample table, with the stand-in geodesic:
    the chain is one cluster, the two other observations are clusters of
    their own in Cluster1 and noise in Cluster2. *)
Example sample_run :
  finite_combined planar_km sample_observations 30 1 ∧
  (cluster_records planar_km sample_observations 30 1).2 =
    Ok ([0; 0; 0; 0; 1; 2]%Z, [0; 0; 0; 0; -1; -1]%Z).
Proof.
  split; [|by vm_compute].
  eexists. split; [by vm_compute|]. by vm_compute.
Qed.

(** The scenario of three observations, with the second one half a km
    away from the two others instead of at their place: the first two
    share a cluster, the third is a cluster of its own and noise. *)
Example example_scenario_half_km_apart :
  (cluster_records planar_km [obs 0 0 0; obs 0 (1 # 222) 5; obs 0 0 40] 30 1).2 =
    Ok ([0; 0; 1]%Z, [0; 0; -1]%Z).
Proof. by vm_compute. Qed.

Local Ltac decide_within :=
  unfold within_limits; cbn;
  first
    [ split; [apply Qle_bool_iff; by vm_compute | by vm_compute]
    | intros [Hd Ht];
      first [ apply Qle_bool_iff in Hd; by vm_compute in Hd | by vm_compute in Ht ] ].

(** The properties of the stage applied to the sample table: rows 0, 1
    and 2 chain, row 5 is alone, and rows 0 and 4 are 40 days apart. *)
Example sample_chain_shares_cluster1 :
  ∃ labels1 labels2 l,
    (cluster_records planar_km sample_observations 30 1).2 = Ok (labels1, labels2) ∧
    labels1 !! 0 = Some l ∧ labels1 !! 2 = Some l ∧ (0 <= l)%Z.
Proof.
  apply (chained_observations_share_cluster1 planar_km sample_observations 30 1
           planar_km_nonneg (proj1 sample_run) 0 1 2);
    [simpl; lia..| |]; decide_within.
Qed.

Example sample_chain_ends_are_out_of_range :
  ¬ within_limits planar_km sample_observations 30 1 0 2.
Proof. decide_within. Qed.

Example sample_lone_observation :
  ∃ labels1 labels2 l,
    (cluster_records planar_km sample_observations 30 1).2 = Ok (labels1, labels2) ∧
    labels2 !! 5 = Some (-1)%Z ∧
    labels1 !! 5 = Some l ∧ (0 <= l)%Z ∧
    ∀ v, v ≠ 5 → labels1 !! v ≠ Some l.
Proof.
  apply (lone_observation_is_noise_with_own_cluster1 planar_km sample_observations 30 1
           planar_km_nonneg (proj1 sample_run) 5); [simpl; lia|].
  intros j Hj Hne. simpl in Hj.
  destruct j as [|[|[|[|[|j]]]]]; try lia; decide_within.
Qed.

Example sample_pair_out_of_range :
  ∃ total v,
    total_distance planar_km sample_observations 30 1 = Some total ∧
    get2 total 0 4 = Some (Fin v) ∧ (99999 <= v)%Q ∧
    flt (Fin v) (Fin 500) = false ∧ fle (Fin v) (Fin 500) = false ∧
    ¬ adjacent (sklearn.radius_neighbors 500 total) 0 4.
Proof.
  apply (out_of_range_pair_is_unreachable planar_km sample_observations 30 1
           planar_km_nonneg (proj1 sample_run) 0 4); [simpl; lia..|done|].
  right. by vm_compute.
Qed.

(** ** When the combined matrix holds a nan *)

Lemma all_finite_intro n (a : matrix) :
  square n a →
  (∀ i j, i < n → j < n → ∃ q, get2 a i j = Some (Fin q)) →
  all_finite a.
Proof.
  intros [Hlen Hrows] Hget. unfold all_finite.
  apply forallb_forall. intros row Hrow.
  apply list_elem_of_In, list_elem_of_lookup in Hrow as [i Hi].
  apply forallb_forall. intros v Hv.
  apply list_elem_of_In, list_elem_of_lookup in Hv as [j Hj].
  rewrite Forall_lookup in Hrows. pose proof (Hrows _ _ Hi) as Hr.
  destruct (Hget i j) as [q Hq].
  - apply lookup_lt_Some in Hi. lia.
  - apply lookup_lt_Some in Hj. lia.
  - unfold get2 in Hq. rewrite Hi in Hq. simpl in Hq.
    assert (v = Fin q) as -> by congruence. done.
Qed.

Lemma norm_entry_finite_iff (raw : matrix) (M r : Q) a b :
  getitem raw a b = Fin r →
  (∃ q, norm_entry raw (Fin M) a b = Fin q) ↔ ((0 <= r)%Q → ¬ M == 0).
Proof.
  intros Hraw. unfold norm_entry. rewrite Hraw. simpl.
  destruct (Qle_bool 0 r) eqn:Hr; simpl.
  - apply Qle_bool_iff in Hr. destruct (Qeq_bool M 0) eqn:HM.
    + apply Qeq_bool_iff in HM. split; [|by intros H; destruct (H Hr)].
      intros [q Hq]. destruct (Qeq_bool r 0); [done|]. by destruct (Qle_bool 0 r).
    + apply Qeq_bool_neq in HM. split; [done|eauto].
  - split; [|eauto]. intros _ Hpos. apply Qle_bool_iff in Hpos. congruence.
Qed.

(** The combined matrix holds no [nan] exactly when each axis whose
    maximum is 0 has no pair of distinct observations in range. *)
Theorem finite_combined_iff (geodesic : Q * Q → Q * Q → Q) (X : list observation)
    (time_limit : Z) (distance_limit : Q) :
  (∀ p q, (0 <= geodesic p q)%Q) → 0 < length X →
  let distance_matrix := (calculate_dist_time geodesic X time_limit distance_limit).1 in
  let time_matrix := (calculate_dist_time geodesic X time_limit distance_limit).2 in
  ∃ max_dist max_time,
    NumPy.max (mask_ge0 distance_matrix) = Some (Fin max_dist) ∧
    NumPy.max (mask_ge0 time_matrix) = Some (Fin max_time) ∧
    (finite_combined geodesic X time_limit distance_limit ↔
     (max_dist == 0 → all_out_of_range (length X) distance_matrix) ∧
     (max_time == 0 → all_out_of_range (length X) time_matrix)).
Proof.
  intros Hgeo Hn. cbv zeta.
  destruct (cluster_records_unfold geodesic X time_limit distance_limit Hgeo Hn)
    as (Md & Mt & total & Hd & Ht & _ & _ & _ & _ & Htotal & Hsaved & _).
  exists Md, Mt. split; [done|]. split; [done|].
  set (dm := (calculate_dist_time geodesic X time_limit distance_limit).1) in *.
  set (tm := (calculate_dist_time geodesic X time_limit distance_limit).2) in *.
  assert (Hsq : square (length X) total).
  { rewrite Htotal. apply square_add; apply square_fill_sym, square_zeros. }
  assert (Hget : ∀ i j, i < length X → j < length X → i ≠ j →
    get2 total i j =
    Some (fadd (norm_entry dm (Fin Md) (i `min` j) (i `max` j))
               (norm_entry tm (Fin Mt) (i `min` j) (i `max` j)))).
  { intros i j Hi Hj Hne. rewrite Htotal, get2_add.
    rewrite !fill_sym_get2 by (done || apply square_zeros).
    by rewrite !decide_False. }
  assert (Hdiag : ∀ i, i < length X → get2 total i i = Some (Fin 0)).
  { intros i Hi. rewrite Htotal, get2_add.
    rewrite !fill_sym_get2 by (done || apply square_zeros).
    by rewrite !decide_True, get2_zeros. }
  assert (Hraw_d : ∀ a b, a < b → b < length X →
    ∃ r, getitem dm a b = Fin r ∧ get2 dm a b = Some (Fin r) ∧
         ((0 <= r)%Q ∨ r = (-1)%Q)).
  { intros a b Hab Hb.
    destruct (raw_dist_cases geodesic X distance_limit a b Hgeo) as (r & Hr & Hrc).
    exists r. unfold dm. rewrite (get2_getitem (length X)), getitem_distance_matrix, Hr
      by (done || lia || apply square_distance_matrix). tauto. }
  assert (Hraw_t : ∀ a b, a < b → b < length X →
    ∃ r, getitem tm a b = Fin r ∧ get2 tm a b = Some (Fin r) ∧
         ((0 <= r)%Q ∨ r = (-1)%Q)).
  { intros a b Hab Hb.
    destruct (raw_time_cases X time_limit a b) as (r & Hr & Hrc).
    exists r. unfold tm. rewrite (get2_getitem (length X)), getitem_time_matrix, Hr
      by (done || lia || apply square_time_matrix). tauto. }
  assert (Hside : ∀ (raw : matrix) (M : Q),
    (∀ i j, i < length X → j < length X → get2 raw i j = get2 raw j i) →
    (∀ a b, a < b → b < length X →
       ∃ r, getitem raw a b = Fin r ∧ get2 raw a b = Some (Fin r) ∧
            ((0 <= r)%Q ∨ r = (-1)%Q)) →
    ((∀ a b, a < b → b < length X → ∃ q, norm_entry raw (Fin M) a b = Fin q) ↔
     (M == 0 → all_out_of_range (length X) raw))).
  { intros raw M Hsym Hraw. split.
    - intros Hfin HM i j Hi Hj Hne.
      assert (Hlt : ∀ a b, a < b → b < length X → get2 raw a b = Some (Fin (-1))).
      { intros a b Hab Hb. destruct (Hraw a b Hab Hb) as (r & Hr & Hg & Hrc).
        rewrite Hg. destruct Hrc as [Hpos| ->]; [|done].
        destruct (proj1 (norm_entry_finite_iff raw M r a b Hr) (Hfin a b Hab Hb) Hpos HM). }
      destruct (decide (i < j)); [by apply Hlt|].
      rewrite Hsym by done. apply Hlt; lia.
    - intros Hall a b Hab Hb. destruct (Hraw a b Hab Hb) as (r & Hr & Hg & Hrc).
      apply (norm_entry_finite_iff raw M r a b Hr). intros Hpos HM.
      rewrite (Hall HM a b) in Hg by lia. inversion Hg; subst r. by vm_compute in Hpos. }
  assert (Hsym_d : ∀ i j, i < length X → j < length X → get2 dm i j = get2 dm j i).
  { intros i j Hi Hj. unfold dm. rewrite !get2_distance_matrix by done.
    rewrite (Nat.min_comm j i), (Nat.max_comm j i).
    destruct (decide (i = j)) as [->|?]; [by rewrite decide_True|].
    by rewrite (decide_False (P := j = i)). }
  assert (Hsym_t : ∀ i j, i < length X → j < length X → get2 tm i j = get2 tm j i).
  { intros i j Hi Hj. unfold tm. rewrite !get2_time_matrix by done.
    rewrite (Nat.min_comm j i), (Nat.max_comm j i).
    destruct (decide (i = j)) as [->|?]; [by rewrite decide_True|].
    by rewrite (decide_False (P := j = i)). }
  rewrite <- (Hside dm Md Hsym_d Hraw_d), <- (Hside tm Mt Hsym_t Hraw_t).
  split.
  - intros (total' & Hsaved' & Hfin).
    assert (total' = total) as -> by congruence.
    assert (Hboth : ∀ a b, a < b → b < length X →
      (∃ q, norm_entry dm (Fin Md) a b = Fin q) ∧
      (∃ q, norm_entry tm (Fin Mt) a b = Fin q)).
    { intros a b Hab Hb.
      destruct (all_finite_get2 total a b _ Hfin (Hget a b ltac:(lia) Hb ltac:(lia)))
        as [v Hv].
      rewrite Nat.min_l, Nat.max_r in Hv by lia.
      apply fadd_Fin_inv in Hv as (qd & qt & Hqd & Hqt & _). eauto. }
    split; intros a b Hab Hb; by destruct (Hboth a b Hab Hb).
  - intros [Hfd Hft]. exists total. split; [done|].
    apply (all_finite_intro (length X)); [done|]. intros i j Hi Hj.
    destruct (decide (i = j)) as [->|Hne]; [rewrite Hdiag by done; eauto|].
    rewrite Hget by done.
    destruct (Hfd (i `min` j) (i `max` j)) as [qd ->]; [lia..|].
    destruct (Hft (i `min` j) (i `max` j)) as [qt ->]; [lia..|].
    simpl. eauto.
Qed.

(** ** The stage returns *)

(** The budget of the search is enough on every table: the stage ends
    with labels or with an exception. *)
Theorem cluster_records_returns (geodesic : Q * Q → Q * Q → Q) (X : list observation)
    (time_limit : Z) (distance_limit : Q) :
  (cluster_records geodesic X time_limit distance_limit).2 ≠ Diverge.
Proof.
  unfold cluster_records.
  pose proof (square_distance_matrix geodesic X time_limit distance_limit) as Hsq.
  destruct (calculate_dist_time geodesic X time_limit distance_limit) as [dm tm].
  simpl in Hsq. rewrite calculate_normalized_matrices_fill. cbv zeta.
  destruct (NumPy.max (mask_ge0 dm)) as [max_dist|]; [|done].
  destruct (NumPy.max (mask_ge0 tm)) as [max_time|]; [|done].
  unfold shape0. rewrite (proj1 Hsq). cbn [snd].
  set (total := NumPy.add _ _).
  assert (Htot : square (length X) total).
  { apply square_add; apply square_fill_sym, square_zeros. }
  assert (Hpass : ∀ k, ∃ r,
    sklearn.fit_predict {| sklearn.eps := 500; sklearn.min_samples := k |} total = r ∧
    r ≠ Diverge).
  { intros k. unfold sklearn.fit_predict.
    destruct (forallb (forallb isfinite) total) eqn:Hfin; [|eauto].
    cbv zeta. simpl. unfold shape0. rewrite (proj1 Htot).
    edestruct (dbscan_inner_total (length X)) as (labels & -> & _); [|eauto].
    intros u nb. unfold sklearn.radius_neighbors. rewrite list_lookup_fmap.
    destruct (total !! u) as [row|] eqn:Hrow; [|done]. intros [= <-].
    destruct Htot as [_ Hrows]. rewrite Forall_lookup in Hrows.
    rewrite <- (Hrows _ _ Hrow). apply length_where_le. }
  destruct (Hpass 1) as (r1 & -> & Hr1). destruct (Hpass 2) as (r2 & -> & Hr2).
  destruct r1 as [l1|e1|]; [|done..]. by destruct r2.
Qed.

(** ** Tables of observations made at one place *)

Lemma fill_sym_ext f g n a :
  (∀ i j, i < j → j < n → f i j = g i j) → fill_sym f n a = fill_sym g n a.
Proof.
  intros Hfg. rewrite !fill_sym_pairs.
  assert (Hps : ∀ i j, (i, j) ∈ pairs_below n → i < j ∧ j < n).
  { intros i j. apply elem_of_pairs_below. }
  revert a Hps. generalize (pairs_below n) as ps.
  induction ps as [|[i j] ps IH]; intros a Hps; [done|].
  destruct (Hps i j) as [Hij Hj]; [left|].
  simpl. unfold sym_write at 2 4. rewrite (Hfg i j Hij Hj).
  apply IH. intros i' j' Hin. apply Hps. by right.
Qed.

(** At one place every distance is 0, whatever the geodesic, as long as
    it gives 0 from a point to itself. *)
Lemma calculate_dist_time_one_place geodesic lat long (days : list Z) time_limit
    distance_limit :
  (∀ p, geodesic p p = 0%Q) →
  Qle_bool 0 distance_limit = true →
  calculate_dist_time geodesic (obs lat long <$> days) time_limit distance_limit =
  (fill_sym (λ _ _, Fin 0) (length days) (zeros (length days) (length days)),
   fill_sym (raw_time (obs 0 0 <$> days) time_limit) (length days)
     (zeros (length days) (length days))).
Proof.
  intros Hself Hdl. rewrite calculate_dist_time_fill, length_fmap. f_equal.
  - apply fill_sym_ext. intros i j Hij Hj.
    unfold raw_dist, within_distance_limit, iloc.
    rewrite !(list_lookup_total_fmap _ days) by lia. simpl. by rewrite Hself, Hdl.
  - apply fill_sym_ext. intros i j Hij Hj.
    unfold raw_time, within_time_limit, iloc.
    rewrite !(list_lookup_total_fmap _ days) by lia. done.
Qed.

(** ** Runs of the clustering stage on tables made at one place

    When every pair that is in range on an axis has the raw value 0 there,
    the maximum of that axis is 0 and the normalization divides 0 by 0.
    Observations made at one place are such a table for the spatial axis:
    every entry off the diagonal of the combined matrix is [nan], also
    where the other axis holds 99999, and the clustering routine rejects
    the matrix, so that no label is assigned. *)

Local Ltac run_one_place days Hself :=
  unfold total_distance, cluster_records;
  match goal with
  | |- context [calculate_dist_time ?g ?X ?tl ?dl] =>
      match X with
      | context [obs ?lat ?long _] =>
          change X with (obs lat long <$> days);
          rewrite (calculate_dist_time_one_place g lat long days tl dl Hself eq_refl)
      end
  end.

(** C1 at a failing input: two observations made at one place, 40 days
    apart, with a limit of 30 days.  The pair is out of range on the
    temporal axis, and its combined entry is [nan], which is not at least
    99999. *)
Theorem out_of_range_pair_combined_nan (geodesic : Q * Q → Q * Q → Q) (lat long : Q) :
  (∀ p, geodesic p p = 0%Q) →
  let X := [obs lat long 0; obs lat long 40] in
  (30 < Z.abs (r_data (iloc X 0) - r_data (iloc X 1)))%Z ∧
  ∃ total v,
    total_distance geodesic X 30 1 = Some total ∧
    get2 total 0 1 = Some v ∧ v = NaN ∧ fge v (Fin 99999) = false.
Proof.
  intros Hself X. split; [done|]. subst X.
  run_one_place [0; 40]%Z Hself.
  eexists _, _. vm_compute. done.
Qed.

Lemma out_of_range_pair_combined_nan_witness :
  (∀ p, planar_km p p = 0%Q) ∧
  ∃ total v,
    total_distance planar_km [obs 0 0 0; obs 0 0 40] 30 1 = Some total ∧
    get2 total 0 1 = Some v ∧ v = NaN ∧ fge v (Fin 99999) = false.
Proof.
  split; [exact planar_km_self|].
  exact (proj2 (out_of_range_pair_combined_nan planar_km 0 0 planar_km_self)).
Defined.

(** C2 at its own input: three observations at one place on day 0, day 5
    and day 40, with limits of 30 days and 1 km.  The stage writes the
    three matrices and ends in the exception of the clustering routine;
    no observation receives a label.  In the matrix it has written no two
    observations are within [eps] of each other either. *)
Theorem example_scenario_is_rejected (geodesic : Q * Q → Q * Q → Q) (lat long : Q) :
  (∀ p, geodesic p p = 0%Q) →
  let total := [[Fin 0; NaN; NaN]; [NaN; Fin 0; NaN]; [NaN; NaN; Fin 0]] in
  cluster_records geodesic [obs lat long 0; obs lat long 5; obs lat long 40] 30 1 =
    ([("distance_matrix", [[Fin 0; Fin 0; Fin 0]; [Fin 0; Fin 0; Fin 0];
                           [Fin 0; Fin 0; Fin 0]]);
      ("time_matrix", [[Fin 0; Fin 5; Fin (-1)]; [Fin 5; Fin 0; Fin (-1)];
                       [Fin (-1); Fin (-1); Fin 0]]);
      ("total_distance", total)],
     Raise (ValueError "Input X contains NaN or infinity")) ∧
  sklearn.radius_neighbors 500 total = [[0]; [1]; [2]].
Proof.
  intros Hself total. split; [|done].
  run_one_place [0; 5; 40]%Z Hself. vm_compute. done.
Qed.

Lemma example_scenario_is_rejected_witness :
  (∀ p, planar_km p p = 0%Q) ∧
  (cluster_records planar_km [obs 0 0 0; obs 0 0 5; obs 0 0 40] 30 1).2 =
    Raise (ValueError "Input X contains NaN or infinity").
Proof.
  split; [exact planar_km_self|].
  exact (f_equal snd (proj1 (example_scenario_is_rejected planar_km 0 0 planar_km_self))).
Defined.

(** C4 at a failing input: A, B and C at one place on day 0, day 20 and
    day 40, with a limit of 30 days.  A-B and B-C are within both limits
    and A-C is not; the stage ends in the exception and A and C receive
    no label.  In the matrix it has written no two observations are
    within [eps] of each other, so that no chain links A to C there. *)
Theorem chain_at_one_place_is_rejected (geodesic : Q * Q → Q * Q → Q) (lat long : Q) :
  (∀ p, geodesic p p = 0%Q) →
  let X := [obs lat long 0; obs lat long 20; obs lat long 40] in
  let total := [[Fin 0; NaN; NaN]; [NaN; Fin 0; NaN]; [NaN; NaN; Fin 0]] in
  within_limits geodesic X 30 1 0 1 ∧ within_limits geodesic X 30 1 1 2 ∧
  ¬ within_limits geodesic X 30 1 0 2 ∧
  cluster_records geodesic X 30 1 =
    ([("distance_matrix", [[Fin 0; Fin 0; Fin 0]; [Fin 0; Fin 0; Fin 0];
                           [Fin 0; Fin 0; Fin 0]]);
      ("time_matrix", [[Fin 0; Fin 20; Fin (-1)]; [Fin 20; Fin 0; Fin 20];
                       [Fin (-1); Fin 20; Fin 0]]);
      ("total_distance", total)],
     Raise (ValueError "Input X contains NaN or infinity")) ∧
  sklearn.radius_neighbors 500 total = [[0]; [1]; [2]].
Proof.
  intros Hself X total. subst X. split_and!.
  - unfold within_limits. cbn. by rewrite Hself.
  - unfold within_limits. cbn. by rewrite Hself.
  - unfold within_limits. cbn. by intros [_ ?].
  - run_one_place [0; 20; 40]%Z Hself. vm_compute. done.
  - done.
Qed.

Lemma chain_at_one_place_is_rejected_witness :
  (∀ p, planar_km p p = 0%Q) ∧
  (cluster_records planar_km [obs 0 0 0; obs 0 0 20; obs 0 0 40] 30 1).2 =
    Raise (ValueError "Input X contains NaN or infinity").
Proof.
  split; [exact planar_km_self|].
  destruct (chain_at_one_place_is_rejected planar_km 0 0 planar_km_self)
    as (_ & _ & _ & Hrun & _).
  exact (f_equal snd Hrun).
Defined.

(** C5 at a failing input: three observations at one place, 100 days
    apart from each other, with a limit of 30 days.  Each has itself as
    its only neighbour within the limits; the stage ends in the exception
    and assigns neither a Cluster1 label nor -1 in Cluster2. *)
Theorem isolated_observations_are_rejected (geodesic : Q * Q → Q * Q → Q)
    (lat long : Q) :
  (∀ p, geodesic p p = 0%Q) →
  let X := [obs lat long 0; obs lat long 100; obs lat long 200] in
  (∀ i j, i < 3 → j < 3 → i ≠ j → ¬ within_limits geodesic X 30 1 i j) ∧
  cluster_records geodesic X 30 1 =
    ([("distance_matrix", [[Fin 0; Fin 0; Fin 0]; [Fin 0; Fin 0; Fin 0];
                           [Fin 0; Fin 0; Fin 0]]);
      ("time_matrix", [[Fin 0; Fin (-1); Fin (-1)]; [Fin (-1); Fin 0; Fin (-1)];
                       [Fin (-1); Fin (-1); Fin 0]]);
      ("total_distance", [[Fin 0; NaN; NaN]; [NaN; Fin 0; NaN]; [NaN; NaN; Fin 0]])],
     Raise (ValueError "Input X contains NaN or infinity")).
Proof.
  intros Hself X. subst X. split.
  - intros i j Hi Hj Hne [_ Ht]. revert Ht.
    destruct i as [|[|[|i]]], j as [|[|[|j]]]; try lia; by cbn.
  - run_one_place [0; 100; 200]%Z Hself. vm_compute. done.
Qed.

Lemma isolated_observations_are_rejected_witness :
  (∀ p, planar_km p p = 0%Q) ∧
  (cluster_records planar_km [obs 0 0 0; obs 0 0 100; obs 0 0 200] 30 1).2 =
    Raise (ValueError "Input X contains NaN or infinity").
Proof.
  split; [exact planar_km_self|].
  exact (f_equal snd
           (proj2 (isolated_observations_are_rejected planar_km 0 0 planar_km_self))).
Defined.

(** C10 at a failing input: at one place, two observations three days
    apart and a third on day 90, all of whose pairs are out of range.
    The diagonal of every matrix written is 0, but the stage ends in the
    exception and the third observation receives no cluster. *)
Theorem excluded_observation_is_rejected (geodesic : Q * Q → Q * Q → Q)
    (lat long : Q) :
  (∀ p, geodesic p p = 0%Q) →
  let X := [obs lat long 0; obs lat long 3; obs lat long 90] in
  (∀ j, j < 3 → j ≠ 2 → ¬ within_limits geodesic X 30 1 2 j) ∧
  cluster_records geodesic X 30 1 =
    ([("distance_matrix", [[Fin 0; Fin 0; Fin 0]; [Fin 0; Fin 0; Fin 0];
                           [Fin 0; Fin 0; Fin 0]]);
      ("time_matrix", [[Fin 0; Fin 3; Fin (-1)]; [Fin 3; Fin 0; Fin (-1)];
                       [Fin (-1); Fin (-1); Fin 0]]);
      ("total_distance", [[Fin 0; NaN; NaN]; [NaN; Fin 0; NaN]; [NaN; NaN; Fin 0]])],
     Raise (ValueError "Input X contains NaN or infinity")).
Proof.
  intros Hself X. subst X. split.
  - intros j Hj Hne [_ Ht]. revert Ht.
    destruct j as [|[|[|j]]]; try lia; by cbn.
  - run_one_place [0; 3; 90]%Z Hself. vm_compute. done.
Qed.

Lemma excluded_observation_is_rejected_witness :
  (∀ p, planar_km p p = 0%Q) ∧
  (cluster_records planar_km [obs 0 0 0; obs 0 0 3; obs 0 0 90] 30 1).2 =
    Raise (ValueError "Input X contains NaN or infinity").
Proof.
  split; [exact planar_km_self|].
  exact (f_equal snd
           (proj2 (excluded_observation_is_rejected planar_km 0 0 planar_km_self))).
Defined.

(** ** Witnesses and sample runs of the matrix builder *)

Lemma raw_matrices_symmetric_zero_diagonal_bounded_witness :
  let X := [obs 0 0 0; obs 0 (1 # 200) 5; obs 3 3 50] in
  (∀ p q, (0 <= planar_km p q)%Q) ∧ (0 <= 1)%Q ∧ (0 <= 30)%Z ∧
  0 < length X ∧ 1 < length X ∧
  ∃ d t : Q,
    get2 (calculate_dist_time planar_km X 30 1).1 0 1 = Some (Fin d) ∧
    get2 (calculate_dist_time planar_km X 30 1).1 1 0 = Some (Fin d) ∧
    get2 (calculate_dist_time planar_km X 30 1).1 0 0 = Some (Fin 0) ∧
    ((0 <= d)%Q ∧ (d <= 1)%Q ∨ d = (-1)%Q) ∧
    get2 (calculate_dist_time planar_km X 30 1).2 0 1 = Some (Fin t) ∧
    get2 (calculate_dist_time planar_km X 30 1).2 1 0 = Some (Fin t) ∧
    get2 (calculate_dist_time planar_km X 30 1).2 0 0 = Some (Fin 0) ∧
    ((0 <= t)%Q ∧ (t <= inject_Z 30)%Q ∨ t = (-1)%Q).
Proof.
  intros X.
  assert (H1 : (0 <= 1)%Q) by done.
  assert (H2 : (0 <= 30)%Z) by done.
  assert (H3 : 0 < length X) by (simpl; lia).
  assert (H4 : 1 < length X) by (simpl; lia).
  split_and!; try done; [exact planar_km_nonneg|].
  exact (raw_matrices_symmetric_zero_diagonal_bounded planar_km X 30 1 0 1
           planar_km_nonneg H1 H2 H3 H4).
Defined.

(** C3 as stated fails: two observations five days apart and some
    hundreds of km apart, with limits of 30 days and 1 km.  No pair is in
    range on the spatial axis, the normalization returns and the stage
    writes its clusters. *)
Lemma axis_without_pair_in_range_is_not_fatal :
  let X := [obs 0 0 0; obs 5 5 5] in
  let distance_matrix := (calculate_dist_time planar_km X 30 1).1 in
  let time_matrix := (calculate_dist_time planar_km X 30 1).2 in
  all_out_of_range (length X) distance_matrix ∧
  (¬ ∃ e, calculate_normalized_matrices distance_matrix time_matrix = Raise e) ∧
  (cluster_records planar_km X 30 1).2 = Ok ([0; 1]%Z, [-1; -1]%Z).
Proof.
  cbv zeta. split_and!.
  - intros i j Hi Hj Hne. simpl in Hi, Hj.
    destruct i as [|[|i]], j as [|[|j]]; try lia; by vm_compute.
  - intros [e He]. vm_compute in He. discriminate He.
  - by vm_compute.
Qed.

Lemma normalization_of_axis_without_pair_in_range_witness :
  let X := [obs 0 0 0; obs 5 5 5] in
  let distance_matrix := (calculate_dist_time planar_km X 30 1).1 in
  let time_matrix := (calculate_dist_time planar_km X 30 1).2 in
  0 < length X ∧ all_out_of_range (length X) distance_matrix ∧
  ∃ norm_distance_matrix norm_time_matrix,
    calculate_normalized_matrices distance_matrix time_matrix =
      Ok (norm_distance_matrix, norm_time_matrix) ∧
    get2 norm_distance_matrix 0 1 = Some (Fin 99999).
Proof.
  intros X distance_matrix time_matrix.
  assert (Hn : 0 < length X) by (simpl; lia).
  assert (Hall : all_out_of_range (length X) distance_matrix).
  { intros i j Hi Hj Hne. simpl in Hi, Hj.
    destruct i as [|[|i]], j as [|[|j]]; try lia; by vm_compute. }
  split; [exact Hn|]. split; [exact Hall|].
  destruct (normalization_of_axis_without_pair_in_range planar_km X 30 1 Hn)
    as (nd & nt & Hok & Hd & _).
  exists nd, nt. split; [exact Hok|].
  exact (Hd Hall 0 1 Hn ltac:(simpl; lia)).
Defined.

(** ** The two objectives *)

Lemma foldl_Qplus_total (l : list Q) (a : Q) : foldl Qplus a l == a + total l.
Proof.
  revert a. induction l as [|v l IH]; intros a; simpl.
  - by rewrite Qplus_0_r.
  - rewrite IH. by rewrite Qplus_assoc.
Qed.

Lemma sum_total (l : list Q) : NumPy.sum l == total l.
Proof. unfold NumPy.sum. rewrite foldl_Qplus_total. apply Qplus_0_l. Qed.

Lemma total_Forall2 (l k : list Q) : Forall2 Qeq l k → total l == total k.
Proof.
  induction 1 as [|v w l k Hvw _ IH]; simpl; [done|]. by rewrite Hvw, IH.
Qed.

Lemma dot_alert_cols (w : list Q) (data : list features) :
  length w = 7 →
  NumPy.dot (alert_cols data) w =
  Ok ((λ r, NumPy.sum (zip_with Qmult
         [num_reg r; intervalo r; freq_num_reg r; freq_a_quant r;
          extensao r; perc_mortos r; morto r] w)) <$> data).
Proof.
  intros Hw. unfold NumPy.dot, alert_cols.
  rewrite (proj2 (forallb_forall _ _)).
  - by rewrite <- list_fmap_compose.
  - intros row Hin. apply list_elem_of_In, list_elem_of_fmap in Hin as (r & -> & _).
    simpl. rewrite Hw. done.
Qed.

Lemma Qabs_square (y : Q) : Qabs y ^ 2 == y * y.
Proof.
  simpl. rewrite <- Qabs_Qmult. apply Qabs_pos.
  destruct (Qlt_le_dec y 0%Q) as [Hneg|Hpos].
  - setoid_replace (y * y)%Q with ((- y) * (- y))%Q using relation Qeq by ring.
    apply Qmult_le_0_compat; apply (Qopp_le_compat y 0%Q), Qlt_le_weak, Hneg.
  - by apply Qmult_le_0_compat.
Qed.

Lemma calculate_objective_values_spec (w : list Q) (data : list features) :
  length w = 7 →
  Qeq_bool (NumPy.sum (morto <$> data)) 0 = false →
  ∃ f1 f2,
    calculate_objective_values w data = Ok (f1, Fin f2) ∧
    f1 == f1_spec w data ∧ f2 == f2_spec w data.
Proof.
  intros Hw Hsum.
  assert (Hn : Qeq_bool (inject_Z (Z.of_nat (length data))) 0 = false).
  { by destruct data. }
  unfold calculate_objective_values. rewrite dot_alert_cols by done.
  set (idx := (λ r, NumPy.sum (zip_with Qmult
         [num_reg r; intervalo r; freq_num_reg r; freq_a_quant r;
          extensao r; perc_mortos r; morto r] w)) <$> data).
  assert (Hidx : Forall2 Qeq idx (alert_index w <$> data)).
  { apply Forall2_fmap, Forall_Forall2_diag, Forall_forall. intros r _.
    rewrite sum_total. unfold alert_index. apply total_Forall2.
    do 8 (destruct w as [|? w]; try done).
    repeat constructor; apply Qmult_comm. }
  assert (Hlen : length idx = length data) by apply length_fmap.
  assert (Hmu : total idx == total (alert_index w <$> data)) by by apply total_Forall2.
  rewrite bind_Ok. unfold NumPy.average. rewrite Hsum, bind_Ok.
  unfold NumPy.var, NumPy.mean, fdiv. rewrite Hlen, Hn. cbv beta iota.
  eexists _, _. split; [done|]. split.
  - unfold f1_spec, weighted_mean. rewrite !sum_total.
    apply Qmult_comp; [|done]. apply total_Forall2.
    revert Hidx. generalize (alert_index w <$> data) as k.
    generalize (morto <$> data) as ms. generalize idx as l.
    intros l ms k Hlk. revert ms.
    induction Hlk as [|v v' l k Hv _ IH]; intros [|m ms]; simpl; try done.
    constructor; [|apply IH]. rewrite Hv. apply Qmult_comm.
  - unfold f2_spec, variance. rewrite length_fmap, !sum_total.
    apply Qmult_comp; [|done]. apply total_Forall2.
    apply Forall2_fmap. eapply Forall2_impl; [exact Hidx|].
    intros v v' Hv. cbv beta. rewrite Qabs_square, Hv, sum_total, Hmu. done.
Qed.

(** C9: the scalar the solver minimizes is the negation of
    [alpha * f1 - (1 - alpha) * f2] for the pair [(f1, f2)] that
    [calculate_objective_values] returns on the same weights and table;
    both raise on the same inputs.  On a weight vector of seven elements
    and a table whose deaths do not sum to zero, [f1] is the mean of the
    alert index weighted by the deaths and [f2] is its variance. *)
Theorem objective_function_scalarizes_objective_values
    (w : list Q) (data : list features) (alpha : Q) :
  objective_function w data alpha =
    (f ← calculate_objective_values w data; Ok (scalarized alpha f)) ∧
  (length w = 7 →
   Qeq_bool (NumPy.sum (morto <$> data)) 0 = false →
   ∃ f1 f2,
     calculate_objective_values w data = Ok (f1, Fin f2) ∧
     f1 == f1_spec w data ∧ f2 == f2_spec w data).
Proof.
  split; [|apply calculate_objective_values_spec].
  unfold objective_function, calculate_objective_values.
  destruct (NumPy.dot (alert_cols data) w) as [alert|e|]; [|done..]. simpl.
  by destruct (NumPy.average alert (morto <$> data)).
Qed.

(** ** The optimisation loop *)

Section OptimizationLoop.

Variable minimize : (list Q → result np_float) → list Q → OptimizeResult.
Variable data : list features.

(** The solver returns a vector of the shape of its initial guess. *)
Hypothesis minimize_shape : ∀ f x0, length (x (minimize f x0)) = length x0.

(** The deaths of the table do not sum to zero: the weighted mean is
    defined. *)
Hypothesis deaths_not_zero : Qeq_bool (NumPy.sum (morto <$> data)) 0 = false.

Local Abbreviation solve := (solve minimize data).

Lemma optimization_step_Ok results solution alpha :
  ∃ o1 o2,
    calculate_objective_values (x (solve alpha)) data = Ok (o1, o2) ∧
    optimization_step minimize data (Ok (results, solution)) alpha =
    Ok (<[solution := solution_record (solve alpha) o1 o2]> results, solution + 1).
Proof.
  destruct (calculate_objective_values_spec (x (solve alpha)) data)
    as (o1 & o2 & Hval & _); [|done|].
  { unfold solve. by rewrite minimize_shape. }
  exists o1, (Fin o2). split; [done|].
  unfold optimization_step. rewrite bind_Ok. cbv zeta.
  fold (solve alpha). rewrite Hval. done.
Qed.

Lemma optimization_loop alphas results solution :
  ∃ results',
    foldl (optimization_step minimize data) (Ok (results, solution)) alphas =
      Ok (results', solution + length alphas) ∧
    (∀ k alpha, alphas !! k = Some alpha →
       ∃ o1 o2,
         calculate_objective_values (x (solve alpha)) data = Ok (o1, o2) ∧
         results' !! (solution + k) = Some (solution_record (solve alpha) o1 o2)) ∧
    (∀ s, s < solution ∨ solution + length alphas ≤ s → results' !! s = results !! s).
Proof.
  revert results solution.
  induction alphas as [|alpha alphas IH]; intros results solution.
  - exists results. simpl. rewrite Nat.add_0_r. split_and!; [done| |done].
    intros k alpha Hk. done.
  - destruct (optimization_step_Ok results solution alpha) as (o1 & o2 & Hval & Hstep).
    cbn [foldl]. rewrite Hstep.
    destruct (IH (<[solution := solution_record (solve alpha) o1 o2]> results)
                (solution + 1)) as (results' & Hloop & Hin & Hout).
    exists results'. split_and!.
    + rewrite Hloop. simpl. do 2 f_equal. lia.
    + intros [|k] alpha' Hk; simpl in Hk.
      * inversion Hk; subst alpha'. exists o1, o2. split; [done|].
        rewrite Nat.add_0_r, Hout by lia. apply lookup_insert_eq.
      * destruct (Hin k alpha' Hk) as (o1' & o2' & Hval' & Hlook).
        exists o1', o2'. split; [done|].
        replace (solution + S k) with (solution + 1 + k) by lia. done.
    + intros s Hs. simpl in Hs. rewrite Hout by lia.
      apply lookup_insert_ne. lia.
Qed.

Lemma length_alphas : length (NumPy.arange 0 1.1 0.1) = 11.
Proof. done. Qed.

(** What the script leaves in [results]: a record for each of the eleven
    values of [alpha] under the keys 1 to 11, and the baseline under 12. *)
Lemma optimization_spec :
  ∃ results b1 b2,
    optimization minimize data = Ok results ∧
    calculate_objective_values (NumPy.ones_div 7) data = Ok (b1, b2) ∧
    results !! 12 = Some (baseline_record (NumPy.ones_div 7) b1 b2) ∧
    (∀ k alpha, NumPy.arange 0 1.1 0.1 !! k = Some alpha →
       ∃ o1 o2,
         calculate_objective_values (x (solve alpha)) data = Ok (o1, o2) ∧
         results !! S k = Some (solution_record (solve alpha) o1 o2)) ∧
    (∀ s, s = 0 ∨ 12 < s → results !! s = None).
Proof.
  destruct (optimization_loop (NumPy.arange 0 1.1 0.1) ∅ 1)
    as (results' & Hloop & Hin & Hout).
  destruct (calculate_objective_values_spec (NumPy.ones_div 7) data)
    as (b1 & b2 & Hval & _); [done..|].
  rewrite length_alphas in Hloop, Hout.
  exists (<[12 := baseline_record (NumPy.ones_div 7) b1 (Fin b2)]> results'), b1, (Fin b2).
  split_and!.
  - unfold optimization. cbv zeta. rewrite Hloop, bind_Ok, Hval. done.
  - done.
  - apply lookup_insert_eq.
  - intros k alpha Hk. destruct (Hin k alpha Hk) as (o1 & o2 & Hval' & Hlook).
    exists o1, o2. split; [done|].
    assert (k < 11).
    { rewrite <- length_alphas. by apply lookup_lt_Some in Hk. }
    rewrite lookup_insert_ne by lia. done.
  - intros s Hs. rewrite lookup_insert_ne by lia. rewrite Hout by lia. done.
Qed.

End OptimizationLoop.

(** C7: when the solver reports that it did not converge for an [alpha]
    of the grid, the run goes on to the end, a record is stored for every
    [alpha], and the record of the failed one carries the flag [False],
    the message of the solver, and [None] (not zeros) as its weights. *)
Theorem failed_solve_is_recorded
    (minimize : (list Q → result np_float) → list Q → OptimizeResult)
    (data : list features) (k : nat) (alpha : Q) :
  (∀ f x0, length (x (minimize f x0)) = length x0) →
  Qeq_bool (NumPy.sum (morto <$> data)) 0 = false →
  NumPy.arange 0 1.1 0.1 !! k = Some alpha →
  success (solve minimize data alpha) = false →
  ∃ results record,
    optimization minimize data = Ok results ∧
    results !! S k = Some record ∧
    record !! "success" = Some (VBool false) ∧
    record !! "message" = Some (VStr (message (solve minimize data alpha))) ∧
    record !! "weights" = Some VNone ∧
    (∀ k', k' < 11 → is_Some (results !! S k')).
Proof.
  intros Hshape Hsum Hk Hfail.
  destruct (optimization_spec minimize data Hshape Hsum)
    as (results & b1 & b2 & Hrun & _ & _ & Hin & _).
  destruct (Hin k alpha Hk) as (o1 & o2 & _ & Hlook).
  exists results, (solution_record (solve minimize data alpha) o1 o2).
  split_and!; try done.
  - unfold solution_record. rewrite Hfail. done.
  - unfold solution_record. rewrite Hfail. done.
  - intros k' Hk'.
    destruct (lookup_lt_is_Some_2 (NumPy.arange 0 1.1 0.1) k') as [alpha' Hk''].
    { by rewrite length_alphas. }
    destruct (Hin k' alpha' Hk'') as (? & ? & _ & ->). done.
Qed.

Lemma failed_solve_is_recorded_witness :
  (∀ f x0, length (x (solver_failed f x0)) = length x0) ∧
  Qeq_bool (NumPy.sum (morto <$> sample_table)) 0 = false ∧
  NumPy.arange 0 1.1 0.1 !! 3 = Some ((0 + inject_Z 3 * 0.1))%Q ∧
  success (solve solver_failed sample_table (0 + inject_Z 3 * 0.1)%Q) = false ∧
  ∃ results record,
    optimization solver_failed sample_table = Ok results ∧
    results !! 4 = Some record ∧
    record !! "success" = Some (VBool false) ∧
    record !! "message" = Some (VStr "Iteration limit reached") ∧
    record !! "weights" = Some VNone ∧
    (∀ k', k' < 11 → is_Some (results !! S k')).
Proof.
  assert (H1 : ∀ f x0, length (x (solver_failed f x0)) = length x0) by done.
  assert (H2 : Qeq_bool (NumPy.sum (morto <$> sample_table)) 0 = false) by done.
  assert (H3 : NumPy.arange 0 1.1 0.1 !! 3 = Some ((0 + inject_Z 3 * 0.1))%Q) by done.
  assert (H4 : success (solve solver_failed sample_table (0 + inject_Z 3 * 0.1)%Q)
               = false) by done.
  split_and!; try done.
  exact (failed_solve_is_recorded solver_failed sample_table 3 _ H1 H2 H3 H4).
Defined.

(** C8 as stated fails: on the sample table with a solver that reports
    failure, the record of the first [alpha] holds [None] as its weights,
    and the baseline record has no message. *)
Lemma records_are_not_all_complete :
  ∃ results first baseline,
    optimization solver_failed sample_table = Ok results ∧
    results !! 1 = Some first ∧ first !! "weights" = Some VNone ∧
    results !! 12 = Some baseline ∧ baseline !! "message" = None ∧
    ¬ (∀ s record, results !! s = Some record → complete_record record).
Proof.
  destruct (optimization_spec solver_failed sample_table)
    as (results & b1 & b2 & Hrun & _ & Hbase & Hin & _); [done..|].
  destruct (Hin 0 _ eq_refl) as (o1 & o2 & _ & Hfirst).
  eexists results, _, _. split_and!; try done.
  intros Hall. destruct (Hall _ _ Hbase) as (_ & _ & _ & _ & [v Hv]).
  discriminate Hv.
Qed.

(** C8, as the code has it: the output holds exactly twelve records, one
    for each of the eleven values of [alpha] and the baseline.  The record
    of an [alpha] holds the success flag, the message of the solver, the
    two objectives at the vector the solver returned, and as weights that
    vector of seven elements when the solver succeeded and [None]
    otherwise.  The baseline record holds the uniform vector (1/7 seven
    times), the two objectives at that vector and the flag ['True'], and
    has no message. *)
Theorem optimizer_output_records
    (minimize : (list Q → result np_float) → list Q → OptimizeResult)
    (data : list features) :
  (∀ f x0, length (x (minimize f x0)) = length x0) →
  Qeq_bool (NumPy.sum (morto <$> data)) 0 = false →
  ∃ results,
    optimization minimize data = Ok results ∧
    (∀ s, is_Some (results !! s) ↔ 1 ≤ s ≤ 12) ∧
    (∀ k alpha, NumPy.arange 0 1.1 0.1 !! k = Some alpha →
       ∃ record o1 o2,
         results !! S k = Some record ∧
         calculate_objective_values (x (solve minimize data alpha)) data = Ok (o1, o2) ∧
         record !! "success" = Some (VBool (success (solve minimize data alpha))) ∧
         record !! "message" = Some (VStr (message (solve minimize data alpha))) ∧
         record !! "objective1" = Some (VFloat (Fin o1)) ∧
         record !! "objective2" = Some (VFloat o2) ∧
         record !! "weights" =
           Some (if success (solve minimize data alpha)
                 then VArray (x (solve minimize data alpha)) else VNone) ∧
         length (x (solve minimize data alpha)) = 7) ∧
    (∃ baseline b1 b2,
       results !! 12 = Some baseline ∧
       calculate_objective_values (replicate 7 (1 # 7)) data = Ok (b1, b2) ∧
       baseline !! "weights" = Some (VArray (replicate 7 (1 # 7))) ∧
       baseline !! "objective1" = Some (VFloat (Fin b1)) ∧
       baseline !! "objective2" = Some (VFloat b2) ∧
       baseline !! "success" = Some (VStr "True") ∧
       baseline !! "message" = None).
Proof.
  intros Hshape Hsum.
  destruct (optimization_spec minimize data Hshape Hsum)
    as (results & b1 & b2 & Hrun & Hval & Hbase & Hin & Hout).
  exists results. split_and!; [done| | |].
  - intros s. split.
    + intros Hs. destruct (decide (s = 0 ∨ 12 < s)) as [Hs'|Hs']; [|lia].
      rewrite Hout in Hs by done. by destruct Hs.
    + intros Hs. destruct (decide (s = 12)) as [->|Hne]; [by rewrite Hbase|].
      destruct s as [|k]; [lia|].
      destruct (lookup_lt_is_Some_2 (NumPy.arange 0 1.1 0.1) k) as [alpha Hk].
      { rewrite length_alphas. lia. }
      destruct (Hin k alpha Hk) as (? & ? & _ & ->). done.
  - intros k alpha Hk. destruct (Hin k alpha Hk) as (o1 & o2 & Hval' & Hlook).
    exists (solution_record (solve minimize data alpha) o1 o2), o1, o2.
    split_and!; try done. unfold solve. by rewrite Hshape.
  - exists (baseline_record (NumPy.ones_div 7) b1 b2), b1, b2. done.
Qed.

Lemma optimizer_output_records_witness :
  (∀ f x0, length (x (solver_converged f x0)) = length x0) ∧
  Qeq_bool (NumPy.sum (morto <$> sample_table)) 0 = false ∧
  ∃ results,
    optimization solver_converged sample_table = Ok results ∧
    (∀ s, is_Some (results !! s) ↔ 1 ≤ s ≤ 12).
Proof.
  assert (H1 : ∀ f x0, length (x (solver_converged f x0)) = length x0) by done.
  assert (H2 : Qeq_bool (NumPy.sum (morto <$> sample_table)) 0 = false) by done.
  split; [exact H1|]. split; [exact H2|].
  destruct (optimizer_output_records solver_converged sample_table H1 H2)
    as (results & Hrun & Hkeys & _).
  exists results. split; [exact Hrun|exact Hkeys].
Defined.

Lemma objective_function_scalarizes_objective_values_witness :
  length (NumPy.ones_div 7) = 7 ∧
  Qeq_bool (NumPy.sum (morto <$> sample_table)) 0 = false ∧
  objective_function (NumPy.ones_div 7) sample_table 0.5 =
    (f ← calculate_objective_values (NumPy.ones_div 7) sample_table;
     Ok (scalarized 0.5 f)) ∧
  ∃ f1 f2,
    calculate_objective_values (NumPy.ones_div 7) sample_table = Ok (f1, Fin f2) ∧
    f1 == f1_spec (NumPy.ones_div 7) sample_table ∧
    f2 == f2_spec (NumPy.ones_div 7) sample_table.
Proof.
  assert (H1 : length (NumPy.ones_div 7) = 7) by done.
  assert (H2 : Qeq_bool (NumPy.sum (morto <$> sample_table)) 0 = false) by done.
  split; [exact H1|]. split; [exact H2|].
  destruct (objective_function_scalarizes_objective_values
              (NumPy.ones_div 7) sample_table 0.5) as [Heq Hspec].
  split; [exact Heq|exact (Hspec H1 H2)].
Defined.

(** ** Clusters as chains of neighbourhoods

    The scan of the clustering routine for any choice of core points such
    that an observation with another observation in its neighbourhood is
    a core point: this is so at a minimum density of 1 and of 2. *)

Section Components.

Variable n : nat.
Variable is_core : list bool.
Variable neighborhoods : list (list nat).

Hypothesis neighborhoods_size :
  ∀ u nb, neighborhoods !! u = Some nb → length nb ≤ n.
Hypothesis neighborhoods_lt :
  ∀ u v, adjacent neighborhoods u v → u < n ∧ v < n.
Hypothesis adjacent_sym :
  ∀ u v, adjacent neighborhoods u v → adjacent neighborhoods v u.
(** A neighbour of another observation is a core point. *)
Hypothesis core_neighbour :
  ∀ u v, adjacent neighborhoods u v → u ≠ v → default false (is_core !! v) = true.

Lemma linked_sym u v : linked neighborhoods u v → linked neighborhoods v u.
Proof.
  induction 1 as [|u w v Huw _ IH]; [apply rtc_refl|].
  eapply rtc_r; [exact IH|]. by apply adjacent_sym.
Qed.

Lemma component_step c start labels0 j stack labels labels1 stack1 :
  (0 <= c)%Z →
  (∀ v l, labels0 !! v = Some l → l = (-1)%Z ∨ (0 <= l < c)%Z) →
  (∀ u v l, labels0 !! u = Some l → l ≠ (-1)%Z →
            adjacent neighborhoods u v → labels0 !! v = Some l) →
  component_inv is_core neighborhoods n c start labels0 (j :: stack) labels →
  dfs_step is_core neighborhoods c j stack labels = (labels1, stack1) →
  component_inv is_core neighborhoods n c start labels0 stack1 labels1.
Proof.
  intros Hc Hrng0 Hclosed0 (Hlen & Hpend & Hframe & Hcore & Hnew & Hstart) Hstep.
  destruct (Hpend j) as (Hj & Hjcore & Hjlink); [left|].
  destruct (dfs_step_cases is_core neighborhoods c j stack labels) as [[Hlj H]|[Hlj H]];
    rewrite H in Hstep; inversion Hstep; subst labels1 stack1; clear Hstep H.
  - rewrite Hjcore.
    assert (Hlook : ∀ v, <[j := c]> labels !! v =
                         if decide (v = j) then Some c else labels !! v).
    { intros v. rewrite list_lookup_insert.
      destruct (decide (v = j)) as [->|Hne].
      - rewrite decide_True; [done|]. split; [done|lia].
      - rewrite decide_False; [done|]. intros [? _]. done. }
    assert (Hj0 : labels0 !! j = Some (-1)%Z).
    { destruct (Hframe j) as [<-|[? _]]; done. }
    split_and!.
    + by rewrite length_insert.
    + intros w Hw. apply elem_of_push_unlabelled in Hw as [Hw|[Hw Hlw]].
      * apply Hpend. by right.
      * apply elem_of_neighborhood in Hw.
        assert (Hne : j ≠ w).
        { intros ->. rewrite Hlook, decide_True in Hlw by done. inversion Hlw. lia. }
        split_and!.
        -- by apply (neighborhoods_lt j w).
        -- by apply (core_neighbour j w).
        -- eapply rtc_r; [exact Hjlink|done].
    + intros v. rewrite Hlook. destruct (decide (v = j)) as [->|Hne]; [by right|].
      apply Hframe.
    + intros v. rewrite Hlook. destruct (decide (v = j)) as [->|Hne]; [done|].
      apply Hcore.
    + intros u v. rewrite !Hlook. intros Hu Hadj.
      destruct (decide (v = j)) as [->|Hv]; [by left|].
      destruct (decide (u = j)) as [->|Hu'].
      * destruct (neighborhoods_lt j v Hadj) as [_ Hvn].
        destruct (lookup_lt_is_Some_2 labels v) as [lv Hlv]; [lia|].
        rewrite Hlv. destruct (decide (lv = c)) as [->|Hlvc]; [by left|].
        destruct (decide (lv = (-1)%Z)) as [->|Hlv1].
        -- right. split; [done|]. apply elem_of_push_unlabelled. right.
           split; [by apply elem_of_neighborhood|].
           by rewrite Hlook, decide_False.
        -- exfalso. destruct (Hframe v) as [Hv0|[_ Hv0]]; [|congruence].
           rewrite Hlv in Hv0. symmetry in Hv0.
           pose proof (Hclosed0 v j lv Hv0 Hlv1 (adjacent_sym j v Hadj)). congruence.
      * destruct (Hnew u v Hu Hadj) as [Hv'|[Hv' Hin]]; [by left|].
        right. split; [done|]. apply elem_of_push_unlabelled. left.
        apply elem_of_cons in Hin as [->|Hin]; done.
    + rewrite Hlook. destruct (decide (start = j)) as [->|Hne].
      * left. intros [= ?]. lia.
      * destruct Hstart as [Hs|Hs]; [by left|]. right.
        apply elem_of_push_unlabelled. left.
        apply elem_of_cons in Hs as [->|Hs]; done.
  - split_and!; try done.
    + intros w Hw. apply Hpend. by right.
    + intros u v Hu Hadj. destruct (Hnew u v Hu Hadj) as [Hv|[Hv Hin]]; [by left|].
      right. split; [done|]. apply elem_of_cons in Hin as [->|Hin]; done.
    + destruct Hstart as [Hs|Hs]; [by left|].
      apply elem_of_cons in Hs as [->|Hs]; [by left|by right].
Qed.

Lemma components_step i labels c :
  i < n → components_inv is_core neighborhoods n i labels c →
  ∃ labels' c',
    scan_step is_core neighborhoods n (Ok (labels, c)) i = Ok (labels', c') ∧
    components_inv is_core neighborhoods n (S i) labels' c'.
Proof.
  intros Hi (Hlen & Hc & Hrng & Hclosed & Hsame & Hlab & Hdone).
  destruct (decide (labels !! i = Some (-1)%Z ∧ default false (is_core !! i) = true))
    as [[Hli Hcore]|Hskip].
  - destruct (scan_step_search n is_core neighborhoods neighborhoods_size
                (λ j stack l, component_inv is_core neighborhoods n c i labels (j :: stack) l)
                (component_inv is_core neighborhoods n c i labels [])
                i labels c Hlen Hc Hli Hcore)
      as (labels' & Hrun & Hlen' & _ & Hframe & Hcore' & Hnew & Hstart).
    + intros j stack l l1 s1 HP Hs.
      pose proof (component_step c i labels j stack l l1 s1 Hc Hrng Hclosed HP Hs) as Hinv.
      by destruct s1.
    + split_and!; try done.
      * intros w Hw. apply list_elem_of_singleton in Hw as ->.
        split_and!; [done|done|apply rtc_refl].
      * by left.
      * intros v Hv. destruct (Hrng v c Hv); lia.
      * intros u v Hu. destruct (Hrng u c Hu); lia.
      * right. left.
    + assert (Hold : ∀ v l, labels' !! v = Some l → l ≠ c → labels !! v = Some l).
      { intros v l Hl Hlc. destruct (Hframe v) as [<-|[_ Hv]]; [done|congruence]. }
      assert (Hkeep : ∀ v l, labels !! v = Some l → l ≠ (-1)%Z → labels' !! v = Some l).
      { intros v l Hl Hl1. destruct (Hframe v) as [->|[Hv _]]; [done|congruence]. }
      exists labels', (c + 1)%Z. split; [done|]. split_and!; [done|lia| | | | |].
      * intros v l Hl. destruct (decide (l = c)) as [->|Hlc]; [right; lia|].
        destruct (Hrng v l (Hold v l Hl Hlc)); [by left|right; lia].
      * intros u v l Hl Hl1 Hadj. destruct (decide (l = c)) as [->|Hlc].
        -- destruct (Hnew u v Hl Hadj) as [Hv|[_ Hin]]; [done|].
           by apply not_elem_of_nil in Hin.
        -- apply Hkeep; [|done]. apply (Hclosed u v l); [|done..]. by apply Hold.
      * intros u v l Hu Hv Hl1. destruct (decide (l = c)) as [->|Hlc].
        -- etrans; [apply linked_sym, (Hcore' u Hu)|apply (Hcore' v Hv)].
        -- apply (Hsame u v l); [by apply Hold|by apply Hold|done].
      * intros u l Hl Hl1. destruct (decide (l = c)) as [->|Hlc].
        -- by apply Hcore'.
        -- apply (Hlab u l); [by apply Hold|done].
      * intros u Hu Hucore. destruct (decide (u = i)) as [->|Hne].
        -- destruct Hstart as [Hs|Hs]; [done|]. by apply not_elem_of_nil in Hs.
        -- assert (Hlu : labels !! u ≠ Some (-1)%Z) by (apply Hdone; [lia|done]).
           destruct (Hframe u) as [->|[Hu0 _]]; [done|].
           destruct (lookup_lt_is_Some_2 labels u) as [l Hl]; [lia|].
           rewrite Hl in Hlu, Hu0. congruence.
  - exists labels, c. split.
    + apply scan_step_skip.
      destruct (decide (labels !! i = Some (-1)%Z)); [|by left].
      right. destruct (default false (is_core !! i)); [|done]. by destruct Hskip.
    + split_and!; try done.
      intros u Hu Hucore. destruct (decide (u = i)) as [->|Hne]; [|apply Hdone; [lia|done]].
      intros Hl. by apply Hskip.
Qed.

(** The labels of the scan are the classes of the core points under
    chains of neighbourhoods; the other points are noise. *)
Lemma dbscan_inner_components :
  ∃ labels,
    sklearn.dbscan_inner is_core neighborhoods (replicate n (-1)%Z) = Ok labels ∧
    length labels = n ∧
    (∀ u, u < n → default false (is_core !! u) = true →
          ∃ l, labels !! u = Some l ∧ (0 <= l)%Z) ∧
    (∀ u, u < n → default false (is_core !! u) = false → labels !! u = Some (-1)%Z) ∧
    (∀ u v l, labels !! u = Some l → l ≠ (-1)%Z →
              (labels !! v = Some l ↔ linked neighborhoods u v)).
Proof.
  destruct (scan_rule n is_core neighborhoods (components_inv is_core neighborhoods n)
              (replicate n (-1)%Z))
    as (labels & c & Hrun & Hlen & Hc & Hrng & Hclosed & Hsame & Hlab & Hdone).
  - split_and!; [apply length_replicate|done| | | | |lia].
    + intros v l Hl. apply lookup_replicate in Hl as [-> _]. by left.
    + intros u v l Hl Hl1. apply lookup_replicate in Hl as [-> _]. done.
    + intros u v l Hl _ Hl1. apply lookup_replicate in Hl as [-> _]. done.
    + intros u l Hl Hl1. apply lookup_replicate in Hl as [-> _]. done.
  - intros i l c Hi HI. by apply components_step.
  - exists labels. rewrite dbscan_inner_unfold, length_replicate, Hrun.
    split_and!; try done.
    + intros u Hu Hcore. destruct (lookup_lt_is_Some_2 labels u) as [l Hl]; [lia|].
      exists l. split; [done|].
      destruct (Hrng u l Hl) as [->|?]; [|lia]. by destruct (Hdone u Hu Hcore).
    + intros u Hu Hcore. destruct (lookup_lt_is_Some_2 labels u) as [l Hl]; [lia|].
      destruct (decide (l = (-1)%Z)) as [->|Hl1]; [done|].
      rewrite (Hlab u l Hl Hl1) in Hcore. done.
    + intros u v l Hl Hl1. split; [intros Hv; by apply (Hsame u v l)|].
      induction 1 as [|u w v Huw _ IH]; [done|].
      apply IH. by apply (Hclosed u w l).
Qed.

End Components.

(** ** The two passes of the clustering routine as chains *)

Lemma two_elements_length (l : list nat) (a b : nat) :
  a ∈ l → b ∈ l → a ≠ b → 2 ≤ length l.
Proof.
  intros Ha Hb Hne. destruct l as [|x [|y l]]; simpl; [|..|lia].
  - by apply not_elem_of_nil in Ha.
  - apply list_elem_of_singleton in Ha, Hb. congruence.
Qed.

Section FitPredictComponents.

Variable n : nat.
Variable total : matrix.

Hypothesis total_square : square n total.
Hypothesis total_finite : all_finite total.
Hypothesis total_diagonal : ∀ i, i < n → get2 total i i = Some (Fin 0).
Hypothesis total_symmetric : ∀ i j, i < n → j < n → get2 total i j = get2 total j i.

Local Abbreviation neighborhoods := (sklearn.radius_neighbors 500 total).
Local Abbreviation core_samples k :=
  ((λ m, bool_decide (k ≤ m)) <$> (length <$> neighborhoods)).

Lemma core_samples_neighbour k u v :
  k ≤ 2 → adjacent neighborhoods u v → u ≠ v →
  default false (core_samples k !! v) = true.
Proof.
  intros Hk Hadj Hne.
  destruct (radius_neighbors_lt n total total_square u v Hadj) as [Hu Hv].
  destruct (core_samples_lookup n total total_square k v Hv) as (nb & Hnb & ->).
  apply bool_decide_eq_true.
  assert (Hvu : adjacent neighborhoods v u)
    by by apply (radius_adjacent_sym n total).
  assert (Hvv : adjacent neighborhoods v v)
    by by apply (radius_adjacent_refl n total).
  destruct Hvu as (nb1 & Hnb1 & Hin1). destruct Hvv as (nb2 & Hnb2 & Hin2).
  assert (nb1 = nb) as -> by congruence. assert (nb2 = nb) as -> by congruence.
  pose proof (two_elements_length nb u v Hin1 Hin2 Hne). lia.
Qed.

(** At a minimum density of 2 the core points are the observations with
    another observation in their neighbourhood. *)
Lemma core_samples_2 u :
  u < n →
  default false (core_samples 2 !! u) = true ↔ ∃ v, v ≠ u ∧ adjacent neighborhoods u v.
Proof.
  intros Hu. split.
  - destruct (core_samples_lookup n total total_square 2 u Hu) as (nb & Hnb & ->).
    intros Hlen%bool_decide_eq_true.
    destruct (decide (Forall (λ v, v = u) nb)) as [Hall|Hex].
    + assert (length nb ≤ 1); [|lia]. apply (NoDup_singleton_length nb u).
      * unfold sklearn.radius_neighbors in Hnb. rewrite list_lookup_fmap in Hnb.
        destruct (total !! u); [|done]. inversion Hnb. apply NoDup_where_le.
      * by apply Forall_forall.
    + apply not_Forall_Exists in Hex; [|apply _].
      apply Exists_exists in Hex as (v & Hin & Hne). exists v. split; [done|].
      by exists nb.
  - intros (v & Hne & Hadj). apply (core_samples_neighbour 2 v u); [lia| |done].
    by apply (radius_adjacent_sym n total).
Qed.

(** A pass with a minimum density of 1 or 2: the core points have labels
    that are not negative, the others are noise, and two core points have
    one label exactly when a chain of neighbourhoods joins them. *)
Lemma fit_predict_components k :
  k ≤ 2 →
  ∃ labels,
    sklearn.fit_predict {| sklearn.eps := 500; sklearn.min_samples := k |} total =
      Ok labels ∧
    length labels = n ∧
    (∀ u, u < n → default false (core_samples k !! u) = true →
          ∃ l, labels !! u = Some l ∧ (0 <= l)%Z) ∧
    (∀ u, u < n → default false (core_samples k !! u) = false →
          labels !! u = Some (-1)%Z) ∧
    (∀ u v l, labels !! u = Some l → l ≠ (-1)%Z →
              (labels !! v = Some l ↔ linked neighborhoods u v)).
Proof.
  intros Hk. rewrite (fit_predict_unfold n) by done.
  apply dbscan_inner_components.
  - by apply (radius_neighbors_size n).
  - by apply (radius_neighbors_lt n).
  - by apply (radius_adjacent_sym n).
  - intros u v. by apply core_samples_neighbour.
Qed.

End FitPredictComponents.

(** ** The clusters of the stage in terms of the two limits *)

Lemma within_limits_dec geodesic X time_limit distance_limit i j :
  within_limits geodesic X time_limit distance_limit i j ∨
  ¬ within_limits geodesic X time_limit distance_limit i j.
Proof.
  unfold within_limits. cbv zeta.
  set (a := iloc X (i `min` j)). set (b := iloc X (i `max` j)).
  destruct (Qlt_le_dec distance_limit
              (geodesic (r_lat a, r_long a) (r_lat b, r_long b))) as [Hd|Hd].
  - right. intros [Hd' _]. by apply (Qlt_not_le _ _ Hd).
  - destruct (decide (Z.abs (r_data a - r_data b) <= time_limit)%Z) as [Ht|Ht].
    + by left.
    + right. by intros [_ ?].
Qed.

Lemma finite_combined_not_empty geodesic X time_limit distance_limit :
  finite_combined geodesic X time_limit distance_limit → 0 < length X.
Proof.
  intros (total & Htotal & _). destruct X as [|o X]; [|simpl; lia].
  by vm_compute in Htotal.
Qed.

Section StageComponents.

Variable geodesic : Q * Q → Q * Q → Q.
Variable X : list observation.
Variable time_limit : Z.
Variable distance_limit : Q.

Hypothesis geodesic_nonneg : ∀ p q, (0 <= geodesic p q)%Q.
Hypothesis combined_is_finite : finite_combined geodesic X time_limit distance_limit.

Local Abbreviation n := (length X).
Local Abbreviation within := (within_limits geodesic X time_limit distance_limit).
Local Abbreviation chain := (chained geodesic X time_limit distance_limit).

(** The stage gets to the two passes, and within [eps] means within both
    limits. *)
Lemma stage_adjacency :
  ∃ total,
    total_distance geodesic X time_limit distance_limit = Some total ∧
    (cluster_records geodesic X time_limit distance_limit).2 =
      (labels1 ← sklearn.fit_predict
                   {| sklearn.eps := 500; sklearn.min_samples := 1 |} total;
       labels2 ← sklearn.fit_predict
                   {| sklearn.eps := 500; sklearn.min_samples := 2 |} total;
       Ok (labels1, labels2)) ∧
    square n total ∧ all_finite total ∧
    (∀ i, i < n → get2 total i i = Some (Fin 0)) ∧
    (∀ i j, i < n → j < n → get2 total i j = get2 total j i) ∧
    (∀ r u v, (2 <= r)%Q → (r < 99999)%Q →
       adjacent (sklearn.radius_neighbors r total) u v ↔
       u < n ∧ v < n ∧ (u = v ∨ within u v)).
Proof.
  destruct (stage_spec geodesic X time_limit distance_limit geodesic_nonneg
              combined_is_finite)
    as (total & Hsaved & Hrun & Hsq & Hfin & Hdiag & Hsym & Hentry).
  { by eapply finite_combined_not_empty. }
  exists total. split_and!; try done.
  intros r u v Hr2 Hr9. rewrite adjacent_radius_neighbors. split.
  - intros (d & Hd & Hle).
    destruct (get2_lt n total u v d Hsq Hd) as [Hu Hv]. split_and!; [done..|].
    destruct (decide (u = v)) as [|Hne]; [by left|right].
    destruct (Hentry u v Hu Hv Hne) as (q & Hq & _ & Hout).
    destruct (within_limits_dec geodesic X time_limit distance_limit u v) as [|Hnot];
      [done|].
    specialize (Hout Hnot). assert (d = Fin q) as -> by congruence.
    simpl in Hle. apply Qle_bool_iff in Hle. lra.
  - intros (Hu & Hv & [->|Hin]).
    + exists (Fin 0). split; [by apply Hdiag|]. simpl. apply Qle_bool_iff. lra.
    + destruct (decide (u = v)) as [->|Hne].
      * exists (Fin 0). split; [by apply Hdiag|]. simpl. apply Qle_bool_iff. lra.
      * destruct (Hentry u v Hu Hv Hne) as (q & Hq & Hle & _).
        exists (Fin q). split; [done|]. simpl. apply Qle_bool_iff.
        destruct (Hle Hin). lra.
Qed.

Lemma linked_chained total u v :
  (∀ u v, adjacent (sklearn.radius_neighbors 500 total) u v ↔
          u < n ∧ v < n ∧ (u = v ∨ within u v)) →
  linked (sklearn.radius_neighbors 500 total) u v ↔ chain u v.
Proof.
  intros Hadj. split.
  - induction 1 as [|u w v Huw _ IH]; [apply rtc_refl|].
    apply Hadj in Huw as (Hu & Hw & [->|Hin]); [done|].
    eapply rtc_l; [|exact IH]. done.
  - induction 1 as [|u w v (Hu & Hw & Hin) _ IH]; [apply rtc_refl|].
    eapply rtc_l; [|exact IH]. apply Hadj. auto.
Qed.

Lemma lone_chained u v : lone geodesic X time_limit distance_limit u → chain u v → v = u.
Proof.
  intros Hlone Hch. induction Hch as [|u w v (Hu & Hw & Hin) _ IH]; [done|].
  destruct (decide (w = u)) as [->|Hne]; [by apply IH|].
  destruct (Hlone w Hw Hne Hin).
Qed.

Lemma stage_labels :
  ∃ labels1 labels2,
    (cluster_records geodesic X time_limit distance_limit).2 = Ok (labels1, labels2) ∧
    length labels1 = n ∧ length labels2 = n ∧
    (∀ u, u < n → ∃ l, labels1 !! u = Some l ∧ (0 <= l)%Z) ∧
    (∀ u v l, labels1 !! u = Some l → (labels1 !! v = Some l ↔ chain u v)) ∧
    (∀ u, u < n → ¬ lone geodesic X time_limit distance_limit u →
          ∃ l, labels2 !! u = Some l ∧ (0 <= l)%Z) ∧
    (∀ u, u < n → lone geodesic X time_limit distance_limit u →
          labels2 !! u = Some (-1)%Z) ∧
    (∀ u v l, labels2 !! u = Some l → l ≠ (-1)%Z →
              (labels2 !! v = Some l ↔ chain u v)).
Proof.
  destruct stage_adjacency as (total & _ & Hrun & Hsq & Hfin & Hdiag & Hsym & Hadj).
  assert (Hadj5 : ∀ u v, adjacent (sklearn.radius_neighbors 500 total) u v ↔
                         u < n ∧ v < n ∧ (u = v ∨ within u v)).
  { intros u v. apply Hadj; lra. }
  destruct (fit_predict_components n total Hsq Hfin Hdiag Hsym 1)
    as (labels1 & Hrun1 & Hlen1 & Hcore1 & _ & Hsame1); [lia|].
  destruct (fit_predict_components n total Hsq Hfin Hdiag Hsym 2)
    as (labels2 & Hrun2 & Hlen2 & Hcore2 & Hnoise2 & Hsame2); [lia|].
  assert (Hpos1 : ∀ u, u < n → ∃ l, labels1 !! u = Some l ∧ (0 <= l)%Z).
  { intros u Hu. apply Hcore1; [done|]. by apply (all_core_1 n total). }
  assert (Hlone : ∀ u, u < n →
    lone geodesic X time_limit distance_limit u ↔
    ¬ ∃ v, v ≠ u ∧ adjacent (sklearn.radius_neighbors 500 total) u v).
  { intros u Hu. split.
    - intros Hl (v & Hne & (_ & Hv & [->|Hin])%Hadj5); [done|]. by apply (Hl v).
    - intros Hno j Hj Hne Hin. apply Hno. exists j. split; [done|].
      apply Hadj5. auto. }
  exists labels1, labels2. rewrite Hrun, Hrun1, Hrun2.
  split_and!; try done.
  - intros u v l Hl. rewrite <- (linked_chained total u v Hadj5).
    apply Hsame1; [done|].
    assert (Hu : u < n) by (rewrite <- Hlen1; by apply lookup_lt_Some in Hl).
    destruct (Hpos1 u Hu) as (l' & Hl' & Hl0). assert (l = l') by congruence. lia.
  - intros u Hu Hnl. apply Hcore2; [done|].
    destruct (default false _) eqn:Hc; [done|]. destruct Hnl.
    apply Hlone; [done|]. intros Hex.
    apply (core_samples_2 n total Hsq Hdiag Hsym u Hu) in Hex. congruence.
  - intros u Hu Hl. apply Hnoise2; [done|].
    destruct (default false _) eqn:Hc; [|done].
    apply (core_samples_2 n total Hsq Hdiag Hsym u Hu) in Hc.
    by apply Hlone in Hl.
  - intros u v l Hl Hl1. rewrite <- (linked_chained total u v Hadj5).
    by apply Hsame2.
Qed.

End StageComponents.

(** ** The labels the stage writes *)

Lemma where_le_ext r r' row j0 :
  (∀ d, d ∈ row → fle d r = fle d r') →
  sklearn.where_le r row j0 = sklearn.where_le r' row j0.
Proof.
  revert j0. induction row as [|d row IH]; intros j0 Hrow; [done|]. simpl.
  rewrite (Hrow d) by left. rewrite (IH (S j0)); [done|].
  intros d' Hd'. apply Hrow. by right.
Qed.

(** X1: on a table whose combined matrix holds no nan the stage returns,
    every observation has a Cluster1 label that is not negative, and two
    observations have the same Cluster1 label exactly when a chain of
    observations, each within both limits of the next, joins them. *)
Theorem cluster1_labels_are_the_chains (geodesic : Q * Q → Q * Q → Q)
    (X : list observation) (time_limit : Z) (distance_limit : Q) :
  (∀ p q, (0 <= geodesic p q)%Q) →
  finite_combined geodesic X time_limit distance_limit →
  ∃ labels1 labels2,
    (cluster_records geodesic X time_limit distance_limit).2 = Ok (labels1, labels2) ∧
    length labels1 = length X ∧
    (∀ u, u < length X → ∃ l, labels1 !! u = Some l ∧ (0 <= l)%Z) ∧
    (∀ u v, u < length X → v < length X →
       labels1 !! u = labels1 !! v ↔ chained geodesic X time_limit distance_limit u v).
Proof.
  intros Hgeo Hfin.
  destruct (stage_labels geodesic X time_limit distance_limit Hgeo Hfin)
    as (labels1 & labels2 & Hrun & Hlen1 & _ & Hpos1 & Hsame1 & _).
  exists labels1, labels2. split_and!; try done.
  intros u v Hu Hv. destruct (Hpos1 u Hu) as (l & Hl & _).
  rewrite <- (Hsame1 u v l Hl), Hl. done.
Qed.

(** X2: on a table whose combined matrix holds no nan, Cluster2 is -1
    exactly for the observations that have no other observation within
    both limits; every other label is not negative; two observations of
    which one is not noise have the same Cluster2 label exactly when a
    chain joins them; and observations with one Cluster1 label have one
    Cluster2 label, so that grouping by the pair of labels is grouping by
    Cluster1. *)
Theorem cluster2_labels_are_the_chains_of_two_or_more (geodesic : Q * Q → Q * Q → Q)
    (X : list observation) (time_limit : Z) (distance_limit : Q) :
  (∀ p q, (0 <= geodesic p q)%Q) →
  finite_combined geodesic X time_limit distance_limit →
  ∃ labels1 labels2,
    (cluster_records geodesic X time_limit distance_limit).2 = Ok (labels1, labels2) ∧
    length labels2 = length X ∧
    (∀ u l, labels2 !! u = Some l → (-1 <= l)%Z) ∧
    (∀ u, u < length X →
       labels2 !! u = Some (-1)%Z ↔ lone geodesic X time_limit distance_limit u) ∧
    (∀ u v, u < length X → v < length X → labels2 !! u ≠ Some (-1)%Z →
       labels2 !! u = labels2 !! v ↔ chained geodesic X time_limit distance_limit u v) ∧
    (∀ u v, u < length X → v < length X →
       labels1 !! u = labels1 !! v → labels2 !! u = labels2 !! v).
Proof.
  intros Hgeo Hfin.
  destruct (stage_labels geodesic X time_limit distance_limit Hgeo Hfin)
    as (labels1 & labels2 & Hrun & Hlen1 & Hlen2 & Hpos1 & Hsame1 & Hpos2 & Hnoise2 & Hsame2).
  assert (Hcases : ∀ u, u < length X →
    (lone geodesic X time_limit distance_limit u ∧ labels2 !! u = Some (-1)%Z) ∨
    (¬ lone geodesic X time_limit distance_limit u ∧
     ∃ l, labels2 !! u = Some l ∧ (0 <= l)%Z)).
  { intros u Hu. destruct (lookup_lt_is_Some_2 labels2 u) as [l Hl]; [lia|].
    destruct (decide (l = (-1)%Z)) as [->|Hl1].
    - left. split; [|done]. intros j Hj Hne Hin.
      destruct (Hpos2 u Hu) as (l & Hl' & Hl0).
      { intros Hlone. by apply (Hlone j). }
      rewrite Hl in Hl'. inversion Hl'. lia.
    - right. assert (Hnl : ¬ lone geodesic X time_limit distance_limit u).
      { intros Hlone. rewrite (Hnoise2 u Hu Hlone) in Hl. congruence. }
      split; [done|]. by apply Hpos2. }
  exists labels1, labels2. split_and!; try done.
  - intros u l Hl.
    assert (Hu : u < length X) by (rewrite <- Hlen2; by apply lookup_lt_Some in Hl).
    destruct (Hcases u Hu) as [[_ Hu1]|(_ & l' & Hl' & Hl0)];
      rewrite Hl in *; simplify_eq; lia.
  - intros u Hu. split; [|by apply Hnoise2].
    intros Hl. destruct (Hcases u Hu) as [[? _]|(_ & l' & Hl' & Hl0)]; [done|].
    rewrite Hl in Hl'. inversion Hl'. lia.
  - intros u v Hu Hv Hl. destruct (Hcases u Hu) as [[_ ?]|(_ & l & Hlu & Hl0)]; [done|].
    rewrite <- (Hsame2 u v l Hlu) by lia. by rewrite Hlu.
  - intros u v Hu Hv Heq. destruct (Hpos1 u Hu) as (l & Hl & _).
    assert (Hch : chained geodesic X time_limit distance_limit u v).
    { apply (Hsame1 u v l Hl). by rewrite <- Heq. }
    destruct (Hcases u Hu) as [[Hlone _]|(_ & l2 & Hlu & Hl0)].
    + by rewrite (lone_chained geodesic X time_limit distance_limit u v Hlone Hch).
    + rewrite Hlu. symmetry. apply (Hsame2 u v l2 Hlu); [lia|done].
Qed.

(** X3: on a table whose combined matrix holds no nan, an entry off the
    diagonal of the combined matrix is between 0 and 2 for a pair within
    both limits and at least 99999 for any other pair; hence every radius
    from 2 up to (not including) 99999 gives the neighbourhoods that
    [eps = 500] gives. *)
Theorem combined_entries_separate_the_pairs (geodesic : Q * Q → Q * Q → Q)
    (X : list observation) (time_limit : Z) (distance_limit : Q) :
  (∀ p q, (0 <= geodesic p q)%Q) →
  finite_combined geodesic X time_limit distance_limit →
  ∃ total,
    total_distance geodesic X time_limit distance_limit = Some total ∧
    (∀ i j, i < length X → j < length X → i ≠ j →
       ∃ v, get2 total i j = Some (Fin v) ∧
            (within_limits geodesic X time_limit distance_limit i j →
               (0 <= v)%Q ∧ (v <= 2)%Q) ∧
            (¬ within_limits geodesic X time_limit distance_limit i j →
               (99999 <= v)%Q)) ∧
    (∀ r, (2 <= r)%Q → (r < 99999)%Q →
       sklearn.radius_neighbors r total = sklearn.radius_neighbors 500 total).
Proof.
  intros Hgeo Hfin.
  destruct (stage_spec geodesic X time_limit distance_limit Hgeo Hfin)
    as (total & Hsaved & _ & Hsq & _ & Hdiag & _ & Hentry).
  { by eapply finite_combined_not_empty. }
  exists total. split_and!; [done|done|].
  intros r Hr2 Hr9. unfold sklearn.radius_neighbors.
  apply list_eq. intros i. rewrite !list_lookup_fmap.
  destruct (total !! i) as [row|] eqn:Hrow; [|done]. simpl. f_equal.
  apply where_le_ext. intros d Hd. apply list_elem_of_lookup in Hd as [j Hj].
  assert (Hget : get2 total i j = Some d) by (unfold get2; by rewrite Hrow).
  destruct (get2_lt (length X) total i j d Hsq Hget) as [Hi Hjn].
  destruct (decide (i = j)) as [->|Hne].
  - rewrite Hdiag in Hget by done. inversion Hget. simpl.
    transitivity true; [|symmetry]; apply Qle_bool_iff; lra.
  - destruct (Hentry i j Hi Hjn Hne) as (v & Hv & Hin & Hout).
    assert (d = Fin v) as -> by congruence. simpl.
    destruct (within_limits_dec geodesic X time_limit distance_limit i j) as [Hw|Hw].
    + destruct (Hin Hw). transitivity true; [|symmetry]; apply Qle_bool_iff; lra.
    + specialize (Hout Hw). transitivity false; [|symmetry].
      * destruct (Qle_bool v r) eqn:Hle; [|done]. apply Qle_bool_iff in Hle. lra.
      * destruct (Qle_bool v 500) eqn:Hle; [|done]. apply Qle_bool_iff in Hle. lra.
Qed.

(** ** How the stage ends *)

Lemma fit_predict_outcome n (total : matrix) k :
  square n total →
  (all_finite total →
   ∃ labels,
     sklearn.fit_predict {| sklearn.eps := 500; sklearn.min_samples := k |} total =
       Ok labels ∧ length labels = n) ∧
  (¬ all_finite total →
   sklearn.fit_predict {| sklearn.eps := 500; sklearn.min_samples := k |} total =
     Raise (ValueError "Input X contains NaN or infinity")).
Proof.
  intros Hsq. split.
  - intros Hfin. rewrite (fit_predict_unfold n) by done.
    apply dbscan_inner_total. by apply (radius_neighbors_size n).
  - intros Hnf. unfold sklearn.fit_predict, all_finite in *.
    by destruct (forallb (forallb isfinite) total).
Qed.

Lemma stage_cases (geodesic : Q * Q → Q * Q → Q) (X : list observation)
    (time_limit : Z) (distance_limit : Q) :
  0 < length X →
  ∃ total,
    (cluster_records geodesic X time_limit distance_limit).1 =
      [("distance_matrix", (calculate_dist_time geodesic X time_limit distance_limit).1);
       ("time_matrix", (calculate_dist_time geodesic X time_limit distance_limit).2);
       ("total_distance", total)] ∧
    total_distance geodesic X time_limit distance_limit = Some total ∧
    square (length X) total ∧
    (all_finite total →
     ∃ labels1 labels2,
       (cluster_records geodesic X time_limit distance_limit).2 = Ok (labels1, labels2) ∧
       length labels1 = length X ∧ length labels2 = length X) ∧
    (¬ all_finite total →
     (cluster_records geodesic X time_limit distance_limit).2 =
       Raise (ValueError "Input X contains NaN or infinity")).
Proof.
  intros Hn.
  destruct (calculate_normalized_matrices_Ok geodesic X time_limit distance_limit Hn)
    as (max_dist & max_time & _ & _ & Hnorm).
  unfold total_distance, cluster_records.
  destruct (calculate_dist_time geodesic X time_limit distance_limit) as [dm tm].
  simpl in Hnorm. rewrite Hnorm. cbn [fst snd].
  set (total := NumPy.add _ _).
  assert (Hsq : square (length X) total).
  { apply square_add; apply square_fill_sym, square_zeros. }
  exists total. split; [done|]. split; [done|]. split; [done|].
  destruct (fit_predict_outcome (length X) total 1 Hsq) as [Hok1 Hno1].
  destruct (fit_predict_outcome (length X) total 2 Hsq) as [Hok2 Hno2].
  split.
  - intros Hfin. destruct (Hok1 Hfin) as (labels1 & -> & Hlen1).
    destruct (Hok2 Hfin) as (labels2 & -> & Hlen2). by exists labels1, labels2.
  - intros Hnf. by rewrite (Hno1 Hnf).
Qed.

Lemma stage_result_cases (geodesic : Q * Q → Q * Q → Q) (X : list observation)
    (time_limit : Z) (distance_limit : Q) :
  0 < length X →
  (finite_combined geodesic X time_limit distance_limit ∧
   ∃ labels1 labels2,
     (cluster_records geodesic X time_limit distance_limit).2 = Ok (labels1, labels2)) ∨
  (¬ finite_combined geodesic X time_limit distance_limit ∧
   (cluster_records geodesic X time_limit distance_limit).2 =
     Raise (ValueError "Input X contains NaN or infinity")).
Proof.
  intros Hn.
  destruct (stage_cases geodesic X time_limit distance_limit Hn)
    as (total & _ & Htotal & _ & Hok & Hno).
  destruct (forallb (forallb isfinite) total) eqn:Hfin.
  - left. split; [by exists total|].
    destruct (Hok Hfin) as (labels1 & labels2 & Hrun & _). eauto.
  - right. assert (Hnf : ¬ all_finite total) by (unfold all_finite; congruence).
    split; [|by apply Hno]. intros (total' & Htotal' & Hfin').
    assert (total' = total) as -> by congruence. done.
Qed.

(** X5: how the stage ends.  On an empty table it has written two empty
    matrices and ends in the [ValueError] of [np.max] on an empty
    selection.  On any other table it has written the two raw matrices
    and the combined matrix, in this order, before it clusters; it ends
    with two columns of one label per observation when the combined
    matrix holds no nan, and in the [ValueError] of the clustering routine
    otherwise. *)
Theorem stage_outcomes (geodesic : Q * Q → Q * Q → Q) (X : list observation)
    (time_limit : Z) (distance_limit : Q) :
  (X = [] →
   cluster_records geodesic X time_limit distance_limit =
     ([("distance_matrix", []); ("time_matrix", [])],
      Raise (ValueError
               "zero-size array to reduction operation maximum which has no identity"))) ∧
  (X ≠ [] →
   ∃ total,
     (cluster_records geodesic X time_limit distance_limit).1 =
       [("distance_matrix", (calculate_dist_time geodesic X time_limit distance_limit).1);
        ("time_matrix", (calculate_dist_time geodesic X time_limit distance_limit).2);
        ("total_distance", total)] ∧
     square (length X) total ∧
     (all_finite total →
      ∃ labels1 labels2,
        (cluster_records geodesic X time_limit distance_limit).2 = Ok (labels1, labels2) ∧
        length labels1 = length X ∧ length labels2 = length X) ∧
     (¬ all_finite total →
      (cluster_records geodesic X time_limit distance_limit).2 =
        Raise (ValueError "Input X contains NaN or infinity"))).
Proof.
  split; [by intros ->|]. intros Hne.
  assert (Hn : 0 < length X) by (destruct X; [done|simpl; lia]).
  destruct (stage_cases geodesic X time_limit distance_limit Hn)
    as (total & Hsaved & _ & Hsq & Hok & Hno).
  by exists total.
Qed.

(** X4: the stage returns labels exactly when no axis has 0 as the
    largest of its values in range while a pair of distinct observations
    is in range on it; in the other case it ends in the [ValueError] of
    the clustering routine. *)
Theorem labels_are_written_exactly_when (geodesic : Q * Q → Q * Q → Q)
    (X : list observation) (time_limit : Z) (distance_limit : Q) :
  (∀ p q, (0 <= geodesic p q)%Q) → 0 < length X →
  let distance_matrix := (calculate_dist_time geodesic X time_limit distance_limit).1 in
  let time_matrix := (calculate_dist_time geodesic X time_limit distance_limit).2 in
  ∃ max_dist max_time,
    NumPy.max (mask_ge0 distance_matrix) = Some (Fin max_dist) ∧
    NumPy.max (mask_ge0 time_matrix) = Some (Fin max_time) ∧
    ((∃ labels1 labels2,
        (cluster_records geodesic X time_limit distance_limit).2 = Ok (labels1, labels2)) ↔
     (max_dist == 0 → all_out_of_range (length X) distance_matrix) ∧
     (max_time == 0 → all_out_of_range (length X) time_matrix)) ∧
    (¬ ((max_dist == 0 → all_out_of_range (length X) distance_matrix) ∧
        (max_time == 0 → all_out_of_range (length X) time_matrix)) →
     (cluster_records geodesic X time_limit distance_limit).2 =
       Raise (ValueError "Input X contains NaN or infinity")).
Proof.
  intros Hgeo Hn. cbv zeta.
  destruct (finite_combined_iff geodesic X time_limit distance_limit Hgeo Hn)
    as (max_dist & max_time & Hd & Ht & Hiff).
  exists max_dist, max_time. split; [done|]. split; [done|].
  destruct (stage_result_cases geodesic X time_limit distance_limit Hn)
    as [[Hfin (labels1 & labels2 & Hrun)]|[Hnf Hrun]]; rewrite Hrun.
  - split.
    + split; [intros _; by apply Hiff|eauto].
    + intros Hno. destruct Hno. by apply Hiff.
  - split; [|done].
    split; [by intros (? & ? & ?)|]. intros Hcrit. by apply Hiff in Hcrit.
Qed.

(** ** Limits that are zero or negative *)

(** The maximum of the selection is one of its entries. *)
Lemma max_mask_ge0_entry (raw : matrix) (M : Q) :
  (∀ i j v, get2 raw i j = Some v → ∃ q, v = Fin q) →
  NumPy.max (mask_ge0 raw) = Some (Fin M) →
  (0 <= M)%Q ∧ ∃ i j, get2 raw i j = Some (Fin M).
Proof.
  intros Hfin Hmax.
  destruct (max_Fin (mask_ge0 raw) (Fin M)) as (M' & HM & Hin & _); [|done|].
  { apply Forall_forall. intros v Hv.
    apply list_elem_of_filter in Hv as [_ Hv].
    apply elem_of_concat_get2 in Hv as (i & j & Hv). eauto. }
  inversion HM; subst M'.
  apply list_elem_of_filter in Hin as [Hge Hin].
  split; [by apply Qle_bool_iff in Hge|]. by apply elem_of_concat_get2.
Qed.

Section ZeroLimit.

Variable geodesic : Q * Q → Q * Q → Q.
Variable X : list observation.
Variable time_limit : Z.
Variable distance_limit : Q.

Hypothesis geodesic_nonneg : ∀ p q, (0 <= geodesic p q)%Q.
Hypothesis not_empty : 0 < length X.

Lemma max_time_le_limit M :
  NumPy.max (mask_ge0 (calculate_dist_time geodesic X time_limit distance_limit).2)
    = Some (Fin M) →
  (0 <= M)%Q ∧ (M == 0 ∨ (M <= inject_Z time_limit)%Q).
Proof.
  intros Hmax.
  destruct (max_mask_ge0_entry _ M
              (time_matrix_Fin geodesic X time_limit distance_limit) Hmax)
    as (HM & i & j & Hget).
  split; [done|].
  destruct (get2_lt (length X) _ i j _
              (square_time_matrix geodesic X time_limit distance_limit) Hget) as [Hi Hj].
  rewrite get2_time_matrix in Hget by done.
  destruct (decide (i = j)) as [_|_]; [left; by inversion Hget|].
  destruct (raw_time_cases X time_limit (i `min` j) (i `max` j)) as (t & Ht & Hcase).
  rewrite Ht in Hget. inversion Hget; subst t.
  destruct Hcase as [[_ Hle]| ->]; [by right|]. by vm_compute in HM.
Qed.

Lemma max_dist_le_limit M :
  NumPy.max (mask_ge0 (calculate_dist_time geodesic X time_limit distance_limit).1)
    = Some (Fin M) →
  (0 <= M)%Q ∧ (M == 0 ∨ (M <= distance_limit)%Q).
Proof.
  intros Hmax.
  destruct (max_mask_ge0_entry _ M
              (distance_matrix_Fin geodesic X time_limit distance_limit geodesic_nonneg)
              Hmax)
    as (HM & i & j & Hget).
  split; [done|].
  destruct (get2_lt (length X) _ i j _
              (square_distance_matrix geodesic X time_limit distance_limit) Hget)
    as [Hi Hj].
  rewrite get2_distance_matrix in Hget by done.
  destruct (decide (i = j)) as [_|_]; [left; by inversion Hget|].
  destruct (raw_dist_cases geodesic X distance_limit (i `min` j) (i `max` j)
              geodesic_nonneg) as (t & Ht & Hcase).
  rewrite Ht in Hget. inversion Hget; subst t.
  destruct Hcase as [[_ Hle]| ->]; [by right|]. by vm_compute in HM.
Qed.

Lemma out_of_range_time_not_within i j :
  i < length X → j < length X → i ≠ j →
  get2 (calculate_dist_time geodesic X time_limit distance_limit).2 i j
    = Some (Fin (-1)) →
  ¬ within_limits geodesic X time_limit distance_limit i j.
Proof.
  intros Hi Hj Hne Hget [_ Ht].
  rewrite get2_time_matrix, decide_False in Hget by done.
  unfold raw_time, within_time_limit in Hget. cbv zeta in Hget.
  rewrite (proj2 (Z.leb_le _ _) Ht) in Hget. inversion Hget as [Heq].
  assert (H0 : (0 <= inject_Z (Z.abs (r_data (iloc X (i `min` j)) -
                                       r_data (iloc X (i `max` j)))))%Q).
  { change 0%Q with (inject_Z 0). rewrite <- Zle_Qle. lia. }
  rewrite Heq in H0. by vm_compute in H0.
Qed.

Lemma out_of_range_dist_not_within i j :
  i < length X → j < length X → i ≠ j →
  get2 (calculate_dist_time geodesic X time_limit distance_limit).1 i j
    = Some (Fin (-1)) →
  ¬ within_limits geodesic X time_limit distance_limit i j.
Proof.
  intros Hi Hj Hne Hget [Hd _].
  rewrite get2_distance_matrix, decide_False in Hget by done.
  unfold raw_dist, within_distance_limit in Hget. cbv zeta in Hget.
  rewrite (proj2 (Qle_bool_iff _ _) Hd) in Hget. inversion Hget as [Heq].
  pose proof (geodesic_nonneg
                (r_lat (iloc X (i `min` j)), r_long (iloc X (i `min` j)))
                (r_lat (iloc X (i `max` j)), r_long (iloc X (i `max` j)))) as H0.
  rewrite Heq in H0. by vm_compute in H0.
Qed.

Lemma zero_limit_all_lone :
  (time_limit <= 0)%Z ∨ (distance_limit <= 0)%Q →
  finite_combined geodesic X time_limit distance_limit →
  ∀ u, u < length X → lone geodesic X time_limit distance_limit u.
Proof.
  intros Hlim Hfin u Hu j Hj Hne.
  destruct (finite_combined_iff geodesic X time_limit distance_limit geodesic_nonneg
              not_empty) as (Md & Mt & Hd & Ht & Hiff).
  apply Hiff in Hfin as [Hfd Hft].
  destruct Hlim as [Hlim|Hlim].
  - apply out_of_range_time_not_within; [done..|]. apply Hft; [|done..].
    destruct (max_time_le_limit Mt Ht) as [H0 [?|Hle]]; [done|].
    apply Qle_antisym; [|done]. eapply Qle_trans; [exact Hle|].
    change 0%Q with (inject_Z 0). by rewrite <- Zle_Qle.
  - apply out_of_range_dist_not_within; [done..|]. apply Hfd; [|done..].
    destruct (max_dist_le_limit Md Hd) as [H0 [?|Hle]]; [done|].
    apply Qle_antisym; [|done]. by eapply Qle_trans.
Qed.

End ZeroLimit.

(** X6: with a time limit or a distance limit that is zero or negative
    the stage never forms a cluster of two or more observations: either it
    ends in the [ValueError] of the clustering routine (some pair is in
    range on that axis, with the value 0), or every observation is noise
    in Cluster2 and has a Cluster1 label of its own. *)
Theorem zero_limit_never_clusters (geodesic : Q * Q → Q * Q → Q)
    (X : list observation) (time_limit : Z) (distance_limit : Q) :
  (∀ p q, (0 <= geodesic p q)%Q) → 0 < length X →
  (time_limit <= 0)%Z ∨ (distance_limit <= 0)%Q →
  (cluster_records geodesic X time_limit distance_limit).2 =
    Raise (ValueError "Input X contains NaN or infinity") ∨
  ∃ labels1 labels2,
    (cluster_records geodesic X time_limit distance_limit).2 = Ok (labels1, labels2) ∧
    (∀ u, u < length X → labels2 !! u = Some (-1)%Z) ∧
    (∀ u v, u < length X → v < length X → labels1 !! u = labels1 !! v → u = v).
Proof.
  intros Hgeo Hn Hlim.
  destruct (stage_result_cases geodesic X time_limit distance_limit Hn)
    as [[Hfin _]|[_ Hrun]]; [right|by left].
  pose proof (zero_limit_all_lone geodesic X time_limit distance_limit Hgeo Hn Hlim Hfin)
    as Hlone.
  destruct (stage_labels geodesic X time_limit distance_limit Hgeo Hfin)
    as (labels1 & labels2 & Hrun & _ & _ & Hpos1 & Hsame1 & _ & Hnoise2 & _).
  exists labels1, labels2. split_and!; [done| |].
  - intros u Hu. by apply Hnoise2, Hlone.
  - intros u v Hu Hv Heq. destruct (Hpos1 u Hu) as (l & Hl & _).
    symmetry. apply (lone_chained geodesic X time_limit distance_limit u v).
    + by apply Hlone.
    + apply (Hsame1 u v l Hl). by rewrite <- Heq.
Qed.

(** ** Sample runs for the properties of the labels *)

Lemma cluster1_labels_are_the_chains_witness :
  (∀ p q, (0 <= planar_km p q)%Q) ∧
  finite_combined planar_km sample_observations 30 1 ∧
  ∃ labels1 labels2,
    (cluster_records planar_km sample_observations 30 1).2 = Ok (labels1, labels2) ∧
    length labels1 = length sample_observations ∧
    (∀ u, u < length sample_observations → ∃ l, labels1 !! u = Some l ∧ (0 <= l)%Z) ∧
    (∀ u v, u < length sample_observations → v < length sample_observations →
       labels1 !! u = labels1 !! v ↔ chained planar_km sample_observations 30 1 u v).
Proof.
  split; [exact planar_km_nonneg|]. split; [exact (proj1 sample_run)|].
  exact (cluster1_labels_are_the_chains planar_km sample_observations 30 1
           planar_km_nonneg (proj1 sample_run)).
Defined.

Lemma cluster2_labels_are_the_chains_of_two_or_more_witness :
  (∀ p q, (0 <= planar_km p q)%Q) ∧
  finite_combined planar_km sample_observations 30 1 ∧
  ∃ labels1 labels2,
    (cluster_records planar_km sample_observations 30 1).2 = Ok (labels1, labels2) ∧
    length labels2 = length sample_observations ∧
    (∀ u, u < length sample_observations →
       labels2 !! u = Some (-1)%Z ↔ lone planar_km sample_observations 30 1 u) ∧
    (∀ u v, u < length sample_observations → v < length sample_observations →
       labels1 !! u = labels1 !! v → labels2 !! u = labels2 !! v).
Proof.
  split; [exact planar_km_nonneg|]. split; [exact (proj1 sample_run)|].
  destruct (cluster2_labels_are_the_chains_of_two_or_more planar_km sample_observations
              30 1 planar_km_nonneg (proj1 sample_run))
    as (labels1 & labels2 & Hrun & Hlen & _ & Hnoise & _ & Hsame).
  exists labels1, labels2. split; [exact Hrun|]. split; [exact Hlen|].
  split; [exact Hnoise|exact Hsame].
Defined.

Lemma combined_entries_separate_the_pairs_witness :
  (∀ p q, (0 <= planar_km p q)%Q) ∧
  finite_combined planar_km sample_observations 30 1 ∧
  ∃ total,
    total_distance planar_km sample_observations 30 1 = Some total ∧
    sklearn.radius_neighbors 2 total = sklearn.radius_neighbors 500 total ∧
    sklearn.radius_neighbors 99998 total = sklearn.radius_neighbors 500 total.
Proof.
  split; [exact planar_km_nonneg|]. split; [exact (proj1 sample_run)|].
  destruct (combined_entries_separate_the_pairs planar_km sample_observations 30 1
              planar_km_nonneg (proj1 sample_run)) as (total & Htotal & _ & Hradius).
  exists total. split; [exact Htotal|].
  split; apply Hradius; by vm_compute.
Defined.

Lemma labels_are_written_exactly_when_witness :
  (∀ p q, (0 <= planar_km p q)%Q) ∧ 0 < length [obs 0 0 0; obs 0 0 5] ∧
  ∃ max_dist max_time,
    NumPy.max (mask_ge0 (calculate_dist_time planar_km [obs 0 0 0; obs 0 0 5] 30 1).1)
      = Some (Fin max_dist) ∧
    NumPy.max (mask_ge0 (calculate_dist_time planar_km [obs 0 0 0; obs 0 0 5] 30 1).2)
      = Some (Fin max_time) ∧
    (¬ ((max_dist == 0 →
         all_out_of_range 2 (calculate_dist_time planar_km [obs 0 0 0; obs 0 0 5] 30 1).1) ∧
        (max_time == 0 →
         all_out_of_range 2 (calculate_dist_time planar_km [obs 0 0 0; obs 0 0 5] 30 1).2)) →
     (cluster_records planar_km [obs 0 0 0; obs 0 0 5] 30 1).2 =
       Raise (ValueError "Input X contains NaN or infinity")).
Proof.
  assert (Hn : 0 < length [obs 0 0 0; obs 0 0 5]) by (simpl; lia).
  split; [exact planar_km_nonneg|]. split; [exact Hn|].
  destruct (labels_are_written_exactly_when planar_km [obs 0 0 0; obs 0 0 5] 30 1
              planar_km_nonneg Hn) as (max_dist & max_time & Hd & Ht & _ & Hraise).
  exists max_dist, max_time. split; [exact Hd|]. split; [exact Ht|exact Hraise].
Defined.

Lemma zero_limit_never_clusters_witness :
  (∀ p q, (0 <= planar_km p q)%Q) ∧ 0 < length [obs 0 0 0; obs 0 0 3] ∧
  ((0 <= 0)%Z ∨ (1 <= 0)%Q) ∧
  ((cluster_records planar_km [obs 0 0 0; obs 0 0 3] 0 1).2 =
     Raise (ValueError "Input X contains NaN or infinity") ∨
   ∃ labels1 labels2,
     (cluster_records planar_km [obs 0 0 0; obs 0 0 3] 0 1).2 = Ok (labels1, labels2) ∧
     (∀ u, u < length [obs 0 0 0; obs 0 0 3] → labels2 !! u = Some (-1)%Z) ∧
     (∀ u v, u < length [obs 0 0 0; obs 0 0 3] → v < length [obs 0 0 0; obs 0 0 3] →
        labels1 !! u = labels1 !! v → u = v)).
Proof.
  assert (Hn : 0 < length [obs 0 0 0; obs 0 0 3]) by (simpl; lia).
  assert (Hlim : (0 <= 0)%Z ∨ (1 <= 0)%Q) by (left; lia).
  split; [exact planar_km_nonneg|]. split; [exact Hn|]. split; [exact Hlim|].
  exact (zero_limit_never_clusters planar_km [obs 0 0 0; obs 0 0 3] 0 1
           planar_km_nonneg Hn Hlim).
Defined.

(** ** A table whose deaths sum to zero *)

Lemma foldl_optimization_step_Raise minimize data e alphas :
  foldl (optimization_step minimize data) (Raise e) alphas = Raise e.
Proof. induction alphas as [|alpha alphas IH]; [done|]. simpl. apply IH. Qed.

Lemma calculate_objective_values_zero_deaths (w : list Q) (data : list features) :
  length w = 7 →
  Qeq_bool (NumPy.sum (morto <$> data)) 0 = true →
  calculate_objective_values w data =
    Raise (ZeroDivisionError "Weights sum to zero, can't be normalized").
Proof.
  intros Hw Hsum. unfold calculate_objective_values.
  rewrite dot_alert_cols, bind_Ok by done. unfold NumPy.average. by rewrite Hsum.
Qed.

(** X7: when the deaths of the table sum to zero (an empty table is
    one), both objective functions raise [ZeroDivisionError] on every
    vector of seven weights, and the optimisation stops with that
    exception: no record and no report is produced. *)
Theorem zero_deaths_stop_the_optimisation
    (minimize : (list Q → result np_float) → list Q → OptimizeResult)
    (data : list features) :
  (∀ f x0, length (x (minimize f x0)) = length x0) →
  Qeq_bool (NumPy.sum (morto <$> data)) 0 = true →
  let e := ZeroDivisionError "Weights sum to zero, can't be normalized" in
  (∀ w alpha, length w = 7 →
     calculate_objective_values w data = Raise e ∧
     objective_function w data alpha = Raise e) ∧
  optimization minimize data = Raise e ∧
  optimization_report minimize data = Raise e.
Proof.
  intros Hshape Hsum e.
  assert (Hrun : optimization minimize data = Raise e).
  { unfold optimization. cbv zeta.
    assert (Hloop : ∀ alphas st, alphas ≠ [] →
      foldl (optimization_step minimize data) (Ok st) alphas = Raise e).
    { intros [|alpha alphas] [results solution] Hne; [done|]. cbn [foldl].
      replace (optimization_step minimize data (Ok (results, solution)) alpha)
        with (Raise (A := gmap nat (gmap string value) * nat) e).
      - apply foldl_optimization_step_Raise.
      - unfold optimization_step. rewrite bind_Ok. cbv zeta.
        rewrite calculate_objective_values_zero_deaths; [done| |done].
        by rewrite Hshape. }
    by rewrite Hloop. }
  split_and!; [|done|].
  - intros w alpha Hw.
    pose proof (calculate_objective_values_zero_deaths w data Hw Hsum) as Hval.
    split; [done|].
    unfold objective_function. rewrite dot_alert_cols, bind_Ok by done.
    unfold NumPy.average. by rewrite Hsum.
  - unfold optimization_report. by rewrite Hrun.
Qed.

(** ** The table of the solver *)

(** The rows of [df_standardized] at the index labels of the rows of
    [df_original] that the two masks keep. *)
Lemma df_standardized_confirmed_spec (df_original df_standardized : list cluster_row) :
  Forall2 (λ o s, Cluster2 o = Cluster2 s) df_original df_standardized →
  boolean_index (filter (λ r, Cluster2 r ≠ (-1)%Z) df_standardized)
    ((λ r, negb (Qeq_bool (confirmado r) 0)) <$>
       filter (λ r, Cluster2 r ≠ (-1)%Z) df_original) =
  snd <$> filter (λ p, kept p.1) (zip df_original df_standardized).
Proof.
  unfold boolean_index.
  induction 1 as [|o s orig std Hos _ IH]; [done|].
  cbn [zip zip_with]. rewrite !filter_cons. cbn [fst snd].
  destruct (decide (kept o)) as [[Ho Hc]|Hk].
  - rewrite !decide_True by congruence. cbn [fmap list_fmap zip zip_with].
    rewrite filter_cons. cbn [snd]. rewrite decide_True by done.
    cbn [fmap list_fmap fst snd]. f_equal. exact IH.
  - destruct (decide (Cluster2 s ≠ (-1)%Z)) as [Hs|Hs].
    + rewrite decide_True by congruence. cbn [fmap list_fmap zip zip_with].
      rewrite filter_cons. cbn [snd].
      rewrite decide_False; [exact IH|].
      intros Hc. apply Hk. split; [by rewrite Hos|done].
    + rewrite decide_False by (by rewrite Hos). exact IH.
Qed.

Lemma elem_of_drop_duplicates seen df r :
  r ∈ drop_duplicates seen df → r ∈ df ∧ Cluster1 r ∉ seen.
Proof.
  revert seen. induction df as [|r0 df IH]; intros seen; simpl.
  - by intros ?%not_elem_of_nil.
  - destruct (decide (Cluster1 r0 ∈ seen)) as [Hin|Hin].
    + intros [? ?]%IH. split; [by right|done].
    + intros [->|[? Hr]%IH]%elem_of_cons; [split; [by left|done]|].
      split; [by right|]. intros ?. apply Hr. by right.
Qed.

Lemma NoDup_drop_duplicates seen df : NoDup (Cluster1 <$> drop_duplicates seen df).
Proof.
  revert seen. induction df as [|r0 df IH]; intros seen; simpl; [constructor|].
  destruct (decide (Cluster1 r0 ∈ seen)) as [Hin|Hin]; [apply IH|].
  cbn [fmap list_fmap]. constructor; [|apply IH].
  intros (r & Heq & [_ Hr]%elem_of_drop_duplicates)%list_elem_of_fmap.
  apply Hr. rewrite Heq. left.
Qed.

Lemma sublist_drop_duplicates seen df : sublist (drop_duplicates seen df) df.
Proof.
  revert seen. induction df as [|r0 df IH]; intros seen; simpl; [constructor|].
  destruct (decide (Cluster1 r0 ∈ seen)); [by constructor|]. by constructor.
Qed.

Lemma drop_duplicates_covers seen df r :
  r ∈ df → Cluster1 r ∉ seen →
  ∃ r', r' ∈ drop_duplicates seen df ∧ Cluster1 r' = Cluster1 r.
Proof.
  revert seen. induction df as [|r0 df IH]; intros seen Hr Hseen; simpl.
  - by apply not_elem_of_nil in Hr.
  - destruct (decide (Cluster1 r0 ∈ seen)) as [Hin|Hin].
    + apply elem_of_cons in Hr as [->|Hr]; [done|]. by apply IH.
    + destruct (decide (Cluster1 r0 = Cluster1 r)) as [Heq|Hne].
      * exists r0. split; [left|done].
      * apply elem_of_cons in Hr as [->|Hr]; [done|].
        destruct (IH (Cluster1 r0 :: seen) Hr) as (r' & Hr' & Heq).
        { intros [?|?]%elem_of_cons; [congruence|done]. }
        exists r'. split; [by right|done].
Qed.

(** The row kept for a value of [Cluster1] is the first one. *)
Lemma drop_duplicates_first seen df i r :
  df !! i = Some r → Cluster1 r ∉ seen →
  (∀ j r', j < i → df !! j = Some r' → Cluster1 r' ≠ Cluster1 r) →
  r ∈ drop_duplicates seen df.
Proof.
  revert seen i. induction df as [|r0 df IH]; intros seen i Hi Hseen Hfirst; [done|].
  simpl. destruct i as [|i]; simpl in Hi.
  - inversion Hi; subst r0. rewrite decide_False by done. left.
  - assert (Hne : Cluster1 r0 ≠ Cluster1 r) by (apply (Hfirst 0); [lia|done]).
    assert (Hrest : ∀ j r', j < i → df !! j = Some r' → Cluster1 r' ≠ Cluster1 r).
    { intros j r' Hj Hr'. apply (Hfirst (S j)); [lia|done]. }
    destruct (decide (Cluster1 r0 ∈ seen)); [by apply (IH seen i)|].
    right. apply (IH _ i); [done| |done].
    intros [?|?]%elem_of_cons; [congruence|done].
Qed.

Lemma fmap_eq_Forall2 {A B} (f : A → B) (l k : list A) :
  f <$> l = f <$> k → Forall2 (λ a b, f a = f b) l k.
Proof.
  revert k. induction l as [|a l IH]; intros [|b k] Heq; try done.
  inversion Heq. constructor; [done|by apply IH].
Qed.

Section SolverTable.

Local Abbreviation confirmed orig std :=
  ((filter (λ p : cluster_row * cluster_row, kept p.1) (zip orig std)).*2).

Lemma elem_of_confirmed orig std r :
  r ∈ confirmed orig std →
  ∃ i o, std !! i = Some r ∧ orig !! i = Some o ∧ kept o.
Proof.
  revert std. induction orig as [|o orig IH]; intros [|s std]; simpl;
    try by intros ?%not_elem_of_nil.
  rewrite filter_cons. cbn [fst].
  destruct (decide (kept o)) as [Hk|Hk].
  - intros [->|Hr]%elem_of_cons.
    + by exists 0, o.
    + destruct (IH std Hr) as (i & o' & ? & ? & ?). by exists (S i), o'.
  - intros Hr. destruct (IH std Hr) as (i & o' & ? & ? & ?). by exists (S i), o'.
Qed.

Lemma sublist_confirmed orig std : sublist (confirmed orig std) std.
Proof.
  revert std. induction orig as [|o orig IH]; intros [|s std]; simpl;
    try apply sublist_nil_l.
  rewrite filter_cons. cbn [fst].
  destruct (decide (kept o)); [by apply sublist_skip|by apply sublist_cons].
Qed.

Lemma drop_duplicates_confirmed_first seen orig std i r o :
  std !! i = Some r → orig !! i = Some o → kept o → Cluster1 r ∉ seen →
  (∀ j r' o', j < i → std !! j = Some r' → orig !! j = Some o' → kept o' →
              Cluster1 r' ≠ Cluster1 r) →
  r ∈ drop_duplicates seen (confirmed orig std).
Proof.
  revert seen std i. induction orig as [|o0 orig IH]; intros seen [|s std] i Hs Ho Hk Hseen
    Hfirst; try done.
  simpl. rewrite filter_cons. cbn [fst].
  destruct i as [|i]; simpl in Hs, Ho.
  - inversion Hs; inversion Ho; subst. rewrite decide_True by done.
    cbn [fmap list_fmap snd drop_duplicates]. rewrite decide_False by done. left.
  - assert (Hrest : ∀ j r' o', j < i → std !! j = Some r' → orig !! j = Some o' →
                      kept o' → Cluster1 r' ≠ Cluster1 r).
    { intros j r' o' Hj Hr' Ho'. apply (Hfirst (S j)); [lia|done..]. }
    destruct (decide (kept o0)) as [Hk0|Hk0]; [|by apply (IH seen std i)].
    cbn [fmap list_fmap snd drop_duplicates].
    assert (Hne : Cluster1 s ≠ Cluster1 r) by (apply (Hfirst 0 s o0); [lia|done..]).
    destruct (decide (Cluster1 s ∈ seen)); [by apply (IH seen std i)|].
    right. apply (IH _ std i); [done..| |done].
    intros [?|?]%elem_of_cons; [congruence|done].
Qed.

Lemma confirmed_lookup orig std i r o :
  std !! i = Some r → orig !! i = Some o → kept o → r ∈ confirmed orig std.
Proof.
  revert std i. induction orig as [|o0 orig IH]; intros [|s std] i Hs Ho Hk; try done.
  simpl. rewrite filter_cons. cbn [fst]. destruct i as [|i]; simpl in Hs, Ho.
  - inversion Hs; inversion Ho; subst. rewrite decide_True by done. left.
  - destruct (decide (kept o0)); [right|]; by apply (IH std i).
Qed.

End SolverTable.

(** X8: the table the solver works on.  When standardization has left the
    column [Cluster2] as it was, the table holds at most one row for each
    value of [Cluster1], in the order of the input; each of its rows is a
    standardized row whose row in [df_original] has [Cluster2 != -1] and
    [confirmado != 0]; every cluster with such a row is in the table, and
    the row kept for it is the first such row. *)
Theorem solver_table_has_the_first_row_of_each_confirmed_cluster
    (df_original df_standardized : list cluster_row) :
  Cluster2 <$> df_standardized = Cluster2 <$> df_original →
  let table := df_standardized_filtered df_original df_standardized in
  NoDup (Cluster1 <$> table) ∧
  sublist table df_standardized ∧
  (∀ r, r ∈ table →
     ∃ i o, df_standardized !! i = Some r ∧ df_original !! i = Some o ∧ kept o) ∧
  (∀ i r o, df_standardized !! i = Some r → df_original !! i = Some o → kept o →
     ∃ r', r' ∈ table ∧ Cluster1 r' = Cluster1 r) ∧
  (∀ i r o, df_standardized !! i = Some r → df_original !! i = Some o → kept o →
     (∀ j r' o', j < i → df_standardized !! j = Some r' → df_original !! j = Some o' →
                 kept o' → Cluster1 r' ≠ Cluster1 r) →
     r ∈ table).
Proof.
  intros Hlabels table.
  assert (Htable : table =
    drop_duplicates [] ((filter (λ p, kept p.1) (zip df_original df_standardized)).*2)).
  { unfold table, df_standardized_filtered. cbv zeta.
    rewrite df_standardized_confirmed_spec; [done|].
    by apply (fmap_eq_Forall2 Cluster2). }
  rewrite Htable. split_and!.
  - apply NoDup_drop_duplicates.
  - etrans; [apply sublist_drop_duplicates|apply sublist_confirmed].
  - intros r [Hr _]%elem_of_drop_duplicates. by apply elem_of_confirmed.
  - intros i r o Hs Ho Hk. apply drop_duplicates_covers; [|apply not_elem_of_nil].
    by apply (confirmed_lookup _ _ i r o).
  - intros i r o Hs Ho Hk Hfirst.
    apply (drop_duplicates_confirmed_first [] _ _ i r o); try done.
    apply not_elem_of_nil.
Qed.

(** ** The report at the end of the script *)

Section Report.

Variable results : gmap nat (gmap string value).

Lemma print_rows_ok (ks : list nat) :
  (∀ k, k ∈ ks → ∃ data l, results !! k = Some data ∧ format_row k data = inr l) →
  ∃ rows,
    print_rows (omap (λ k, pair k <$> results !! k) ks) = (rows, None) ∧
    length rows = length ks.
Proof.
  induction ks as [|k ks IH]; intros Hok; [by exists []|].
  destruct (Hok k) as (data & l & Hdata & Hl); [left|].
  destruct IH as (rows & Hrows & Hlen).
  { intros k' Hk'. apply Hok. by right. }
  exists (l :: rows). cbn [omap list_omap]. rewrite Hdata. cbn [fmap option_fmap option_map].
  cbn [print_rows]. rewrite Hl, Hrows. simpl. by rewrite Hlen.
Qed.

Lemma print_rows_stops (ks1 ks2 : list nat) (k : nat) data e :
  (∀ k', k' ∈ ks1 → ∃ data l, results !! k' = Some data ∧ format_row k' data = inr l) →
  results !! k = Some data → format_row k data = inl e →
  ∃ rows,
    print_rows (omap (λ k, pair k <$> results !! k) (ks1 ++ k :: ks2)) = (rows, Some e) ∧
    length rows = length ks1.
Proof.
  intros Hok Hdata He. induction ks1 as [|k1 ks1 IH].
  - exists []. cbn [app omap list_omap]. rewrite Hdata.
    cbn [fmap option_fmap option_map print_rows]. by rewrite He.
  - destruct (Hok k1) as (data1 & l & Hdata1 & Hl); [left|].
    destruct IH as (rows & Hrows & Hlen).
    { intros k' Hk'. apply Hok. by right. }
    exists (l :: rows). cbn [app omap list_omap]. rewrite Hdata1.
    cbn [fmap option_fmap option_map print_rows].
    change (list_omap ?f ?l) with (omap f l). rewrite Hl, Hrows. simpl. by rewrite Hlen.
Qed.

End Report.

Lemma format_row_solution_record k (result : OptimizeResult) o1 o2 :
  length (x result) = 7 →
  format_row k (solution_record result o1 o2) =
    if success result then inr (Row k (x result) (Fin o1) o2)
    else inl (TypeError "'NoneType' object is not subscriptable").
Proof.
  intros Hlen. unfold format_row, solution_record.
  destruct (success result).
  - rewrite lookup_insert_ne, lookup_insert_eq by done.
    rewrite decide_True by lia.
    rewrite (lookup_insert_ne _ "success"), (lookup_insert_ne _ "weights") by done.
    rewrite lookup_insert_eq.
    do 3 (rewrite lookup_insert_ne by done). rewrite lookup_insert_eq.
    by rewrite <- Hlen, firstn_all.
  - by rewrite lookup_insert_ne, lookup_insert_eq by done.
Qed.

Lemma format_row_baseline_record k b1 b2 :
  format_row k (baseline_record (NumPy.ones_div 7) b1 b2) =
    inr (Row k (NumPy.ones_div 7) (Fin b1) b2).
Proof. done. Qed.

Lemma last_alphas :
  last (NumPy.arange 0%Q 1.1%Q 0.1%Q) = Some (0 + inject_Z 10 * 0.1)%Q.
Proof. reflexivity. Qed.

Section ReportOfTheRun.

Variable minimize : (list Q → result np_float) → list Q → OptimizeResult.
Variable data : list features.

Hypothesis minimize_shape : ∀ f x0, length (x (minimize f x0)) = length x0.
Hypothesis deaths_not_zero : Qeq_bool (NumPy.sum (morto <$> data)) 0 = false.

Local Abbreviation alphas := (NumPy.arange 0%Q 1.1%Q 0.1%Q).

(** The records of the run, as the report reads them. *)
Lemma optimization_records :
  ∃ results,
    optimization minimize data = Ok results ∧
    size results = 12 ∧
    (∀ k, k < 11 →
       ∃ data_k,
         results !! S k = Some data_k ∧
         (converged minimize data k = true → ∃ l, format_row (S k) data_k = inr l) ∧
         (converged minimize data k = false →
          format_row (S k) data_k =
            inl (TypeError "'NoneType' object is not subscriptable"))) ∧
    (∃ data_12 l, results !! 12 = Some data_12 ∧ format_row 12 data_12 = inr l).
Proof.
  destruct (optimization_spec minimize data minimize_shape deaths_not_zero)
    as (results & b1 & b2 & Hrun & _ & Hbase & Hin & Hout).
  exists results. split; [done|].
  assert (Hkeys : ∀ k, k < 11 → ∃ alpha o1 o2,
    alphas !! k = Some alpha ∧
    results !! S k = Some (solution_record (solve minimize data alpha) o1 o2)).
  { intros k Hk. destruct (lookup_lt_is_Some_2 alphas k) as [alpha Halpha].
    { by rewrite length_alphas. }
    destruct (Hin k alpha Halpha) as (o1 & o2 & _ & Hlook). eauto. }
  split_and!.
  - rewrite <- size_dom.
    assert (Hdom : dom results = list_to_set (C := gset nat) (seq 1 12)).
    { apply set_eq. intros s. rewrite elem_of_dom, elem_of_list_to_set, elem_of_seq.
      split.
      - intros Hs. destruct (decide (s = 0 ∨ 12 < s)) as [Hs'|Hs']; [|lia].
        rewrite Hout in Hs by done. by destruct Hs.
      - intros Hs. destruct (decide (s = 12)) as [->|Hne]; [by rewrite Hbase|].
        destruct s as [|k]; [lia|].
        destruct (Hkeys k) as (? & ? & ? & _ & ->); [lia|done]. }
    rewrite Hdom, size_list_to_set; [done|apply NoDup_seq].
  - intros k Hk. destruct (Hkeys k Hk) as (alpha & o1 & o2 & Halpha & Hlook).
    eexists. split; [exact Hlook|].
    rewrite format_row_solution_record by (unfold solve; by rewrite minimize_shape).
    unfold converged. rewrite Halpha. simpl.
    split; intros ->; eauto.
  - eexists _, _. split; [exact Hbase|]. apply format_row_baseline_record.
Qed.

End ReportOfTheRun.

(** X9: the report at the end of the script looks at the solver's report
    for the last [alpha] only.  When that solve failed, two lines of
    failure are printed and no row, whatever the ten other solves did.
    When it succeeded and some solve before it failed, the report prints
    the rows before the first failed one and stops with [TypeError]: the
    record of a failed solve holds [None] as its weights.  When all
    eleven solves succeeded it prints twelve rows. *)
Theorem report_depends_on_the_last_solve
    (minimize : (list Q → result np_float) → list Q → OptimizeResult)
    (data : list features) :
  (∀ f x0, length (x (minimize f x0)) = length x0) →
  Qeq_bool (NumPy.sum (morto <$> data)) 0 = false →
  ∃ results report,
    optimization_report minimize data = Ok (results, report) ∧
    (converged minimize data 10 = false →
     report =
       ([Failed;
         ErrorMessage (message (solve minimize data (0 + inject_Z 10 * 0.1)%Q))],
        None)) ∧
    (converged minimize data 10 = true →
     ∀ k, k < 10 → converged minimize data k = false →
       (∀ k', k' < k → converged minimize data k' = true) →
       ∃ rows,
         report =
           (Header :: rows, Some (TypeError "'NoneType' object is not subscriptable")) ∧
         length rows = k) ∧
    ((∀ k, k < 11 → converged minimize data k = true) →
     ∃ rows, report = (Header :: rows, None) ∧ length rows = 12).
Proof.
  intros minimize_shape deaths_not_zero.
  destruct (optimization_records minimize data minimize_shape deaths_not_zero)
    as (results & Hrun & Hsize & Hrec & Hbase).
  eexists results, _. split.
  { unfold optimization_report. rewrite Hrun, bind_Ok. cbv zeta. reflexivity. }
  rewrite last_alphas. cbn [default].
  change (minimize _ (NumPy.ones_div 7))
    with (solve minimize data (0 + inject_Z 10 * 0.1)%Q).
  change (converged minimize data 10)
    with (success (solve minimize data (0 + inject_Z 10 * 0.1)%Q)).
  unfold final_report, items. rewrite Hsize.
  split_and!.
  - by intros ->.
  - intros -> k Hk Hfail Hbefore.
    destruct (Hrec k) as (data_k & Hlook & _ & Hfmt); [lia|]. specialize (Hfmt Hfail).
    destruct (print_rows_stops results (seq 1 k) (seq (S (S k)) (11 - k)) (S k) data_k
                (TypeError "'NoneType' object is not subscriptable"))
      as (rows & Hrows & Hlen); [|done|done|].
    { intros k' [Hk1 Hk2]%elem_of_seq. destruct k' as [|j]; [lia|].
      destruct (Hrec j) as (data_j & Hlookj & Hok & _); [lia|].
      destruct Hok as [l Hl]; [apply Hbefore; lia|]. eauto. }
    exists rows. rewrite length_seq in Hlen. split; [|done].
    replace (seq 1 12) with (seq 1 k ++ S k :: seq (S (S k)) (11 - k)).
    + by rewrite Hrows.
    + change (S k :: seq (S (S k)) (11 - k)) with (seq (S k) (S (11 - k))).
      replace (S k) with (1 + k) at 1 by lia. rewrite <- seq_app. f_equal. lia.
  - intros Hall. pose proof (Hall 10 ltac:(lia)) as H10.
    change (converged minimize data 10)
      with (success (solve minimize data (0 + inject_Z 10 * 0.1)%Q)) in H10.
    rewrite H10.
    destruct (print_rows_ok results (seq 1 12)) as (rows & Hrows & Hlen).
    { intros k' [Hk1 Hk2]%elem_of_seq.
      destruct (decide (k' = 12)) as [->|Hne]; [exact Hbase|].
      destruct k' as [|j]; [lia|].
      destruct (Hrec j) as (data_j & Hlookj & Hok & _); [lia|].
      destruct Hok as [l Hl]; [apply Hall; lia|]. eauto. }
    exists rows. by rewrite Hrows.
Qed.

(** ** The objective value of the baseline record *)

(** X10: the [objective_value] the script stores in the baseline record
    (record 12) is [0.5 * f1 - 0.5 * f2] at the uniform weights, which is
    the negation of what [objective_function] returns for these weights
    and [alpha = 0.5]. *)
Theorem baseline_objective_value_is_negated
    (minimize : (list Q → result np_float) → list Q → OptimizeResult)
    (data : list features) :
  (∀ f x0, length (x (minimize f x0)) = length x0) →
  Qeq_bool (NumPy.sum (morto <$> data)) 0 = false →
  ∃ results baseline v,
    optimization minimize data = Ok results ∧
    results !! 12 = Some baseline ∧
    baseline !! "objective_value" = Some (VFloat v) ∧
    objective_function (NumPy.ones_div 7) data 0.5 = Ok (fneg v).
Proof.
  intros Hshape Hsum.
  destruct (optimization_spec minimize data Hshape Hsum)
    as (results & b1 & b2 & Hrun & Hval & Hbase & _).
  eexists results, _, _. split; [done|]. split; [exact Hbase|]. split; [done|].
  revert Hval. unfold calculate_objective_values, objective_function.
  destruct (NumPy.dot (alert_cols data) (NumPy.ones_div 7)) as [idx|e|]; [|done..].
  rewrite !bind_Ok.
  destruct (NumPy.average idx (morto <$> data)) as [f1|e|]; [|done..].
  rewrite !bind_Ok. by intros [= -> ->].
Qed.

(** ** Sample runs of the script *)

Lemma zero_deaths_stop_the_optimisation_witness :
  (∀ f x0, length (x (solver_converged f x0)) = length x0) ∧
  Qeq_bool (NumPy.sum (morto <$> [])) 0 = true ∧
  optimization solver_converged [] =
    Raise (ZeroDivisionError "Weights sum to zero, can't be normalized").
Proof.
  assert (H1 : ∀ f x0, length (x (solver_converged f x0)) = length x0) by done.
  assert (H2 : Qeq_bool (NumPy.sum (morto <$> [])) 0 = true) by done.
  split; [exact H1|]. split; [exact H2|].
  exact (proj1 (proj2 (zero_deaths_stop_the_optimisation solver_converged [] H1 H2))).
Defined.

Lemma solver_table_has_the_first_row_of_each_confirmed_cluster_witness :
  Cluster2 <$> sample_df_standardized = Cluster2 <$> sample_df_original ∧
  NoDup (Cluster1 <$> df_standardized_filtered sample_df_original sample_df_standardized) ∧
  Cluster1 <$> df_standardized_filtered sample_df_original sample_df_standardized
    = [0; 3]%Z.
Proof.
  assert (H1 : Cluster2 <$> sample_df_standardized = Cluster2 <$> sample_df_original)
    by done.
  split; [exact H1|]. split; [|done].
  exact (proj1 (solver_table_has_the_first_row_of_each_confirmed_cluster
                  sample_df_original sample_df_standardized H1)).
Defined.

Lemma report_depends_on_the_last_solve_witness :
  (∀ f x0, length (x (solver_failed f x0)) = length x0) ∧
  Qeq_bool (NumPy.sum (morto <$> sample_table)) 0 = false ∧
  converged solver_failed sample_table 10 = false ∧
  ∃ results report,
    optimization_report solver_failed sample_table = Ok (results, report) ∧
    report = ([Failed; ErrorMessage "Iteration limit reached"], None).
Proof.
  assert (H1 : ∀ f x0, length (x (solver_failed f x0)) = length x0) by done.
  assert (H2 : Qeq_bool (NumPy.sum (morto <$> sample_table)) 0 = false) by done.
  assert (H3 : converged solver_failed sample_table 10 = false) by done.
  split; [exact H1|]. split; [exact H2|]. split; [exact H3|].
  destruct (report_depends_on_the_last_solve solver_failed sample_table H1 H2)
    as (results & report & Hrun & Hfail & _).
  exists results, report. split; [exact Hrun|exact (Hfail H3)].
Defined.

Lemma baseline_objective_value_is_negated_witness :
  (∀ f x0, length (x (solver_converged f x0)) = length x0) ∧
  Qeq_bool (NumPy.sum (morto <$> sample_table)) 0 = false ∧
  ∃ results baseline v,
    optimization solver_converged sample_table = Ok results ∧
    results !! 12 = Some baseline ∧
    baseline !! "objective_value" = Some (VFloat v) ∧
    objective_function (NumPy.ones_div 7) sample_table 0.5 = Ok (fneg v).
Proof.
  assert (H1 : ∀ f x0, length (x (solver_converged f x0)) = length x0) by done.
  assert (H2 : Qeq_bool (NumPy.sum (morto <$> sample_table)) 0 = false) by done.
  split; [exact H1|]. split; [exact H2|].
  exact (baseline_objective_value_is_negated solver_converged sample_table H1 H2).
Defined.

(** ** Groups of records *)

Section Groups.

Import cluster_characterization.

Lemma elem_of_insert_key k ks x :
  x ∈ insert_key k ks ↔ x = k ∨ x ∈ ks.
Proof.
  induction ks as [|k' ks IH]; simpl.
  - rewrite list_elem_of_singleton. split; [by left|].
    intros [?|?%not_elem_of_nil]; done.
  - destruct (decide (k = k')) as [->|Hne].
    + split; [by right|]. intros [->|?]; [left|done].
    + destruct (key_lt k k').
      * by rewrite elem_of_cons.
      * rewrite !elem_of_cons, IH. tauto.
Qed.

Lemma elem_of_group_keys df k :
  k ∈ group_keys df ↔
  ∃ r, r ∈ df ∧ key r = k.
Proof.
  unfold group_keys.
  induction df as [|r df IH]; simpl.
  - split; [by intros ?%not_elem_of_nil|]. by intros (r & ?%not_elem_of_nil & _).
  - rewrite elem_of_insert_key, IH. split.
    + intros [->|(r' & Hr' & Hk)]; [exists r; split; [left|done]|].
      exists r'. split; [by right|done].
    + intros (r' & [->|Hr']%elem_of_cons & Hk); [by left|].
      right. by exists r'.
Qed.

Lemma key_lt_spec a b :
  key_lt a b = true ↔
  (a.1 < b.1)%Z ∨ (a.1 = b.1 ∧ a.2 < b.2)%Z.
Proof.
  unfold key_lt.
  rewrite orb_true_iff, andb_true_iff, !Z.ltb_lt, Z.eqb_eq. tauto.
Qed.

Lemma key_lt_trans a b c :
  key_lt a b = true →
  key_lt b c = true →
  key_lt a c = true.
Proof. rewrite !key_lt_spec. lia. Qed.

Lemma key_lt_irrefl a : key_lt a a = false.
Proof.
  destruct (key_lt a a) eqn:H; [|done].
  apply key_lt_spec in H. lia.
Qed.

Lemma key_lt_total a b :
  a ≠ b → key_lt a b = false →
  key_lt b a = true.
Proof.
  intros Hne Hlt. apply key_lt_spec.
  assert (Hn : ¬ ((a.1 < b.1)%Z ∨ (a.1 = b.1 ∧ a.2 < b.2)%Z)).
  { rewrite <- key_lt_spec. congruence. }
  destruct a as [a1 a2], b as [b1 b2]. simpl in *.
  destruct (decide (a1 = b1)) as [->|?]; [|lia].
  destruct (decide (a2 = b2)) as [->|?]; [done|lia].
Qed.

(** The keys of the groups are in strictly increasing order. *)
Lemma Sorted_insert_key k ks :
  StronglySorted (λ a b, key_lt a b = true) ks →
  StronglySorted (λ a b, key_lt a b = true)
    (insert_key k ks).
Proof.
  induction 1 as [|k' ks Hks IH Hk']; simpl.
  - repeat constructor.
  - destruct (decide (k = k')) as [->|Hne]; [by constructor|].
    destruct (key_lt k k') eqn:Hlt.
    + constructor; [by constructor|]. constructor; [done|].
      eapply Forall_impl; [exact Hk'|]. intros x Hx. by eapply key_lt_trans.
    + constructor; [done|]. apply Forall_forall. intros x [->|Hx]%elem_of_insert_key.
      * by apply key_lt_total.
      * rewrite Forall_forall in Hk'. by apply Hk'.
Qed.

Lemma Sorted_group_keys df :
  StronglySorted (λ a b, key_lt a b = true)
    (group_keys df).
Proof.
  unfold group_keys.
  induction df as [|r df IH]; simpl; [constructor|]. by apply Sorted_insert_key.
Qed.

Lemma NoDup_group_keys df : NoDup (group_keys df).
Proof.
  pose proof (Sorted_group_keys df) as Hs.
  induction Hs as [|k ks Hks IH Hk]; constructor; [|done].
  intros Hin. rewrite Forall_forall in Hk. specialize (Hk k Hin).
  by rewrite key_lt_irrefl in Hk.
Qed.

Lemma join_fmap {V} (f : Z * Z → V) (ks : list (Z * Z)) k :
  join k ((λ k, (k, f k)) <$> ks) =
    if decide (k ∈ ks) then Some (f k) else None.
Proof.
  induction ks as [|k' ks IH].
  - destruct (decide (k ∈ [])) as [Hin|_]; [by apply not_elem_of_nil in Hin|done].
  - cbn [fmap list_fmap join]. rewrite IH.
    destruct (decide (k = k')) as [->|Hne].
    + destruct (decide (k' ∈ k' :: ks)) as [_|Hn]; [done|]. destruct Hn. left.
    + destruct (decide (k ∈ ks)) as [Hin|Hin];
        destruct (decide (k ∈ k' :: ks)) as [Hin'|Hin']; try done.
      * destruct Hin'. by right.
      * apply elem_of_cons in Hin' as [?|?]; done.
Qed.

Lemma join_groupby {V} df (agg : list registro → V) k :
  join k (groupby df agg) =
    if decide (k ∈ group_keys df)
    then Some (agg (group df k)) else None.
Proof. unfold groupby. apply (join_fmap (λ k, agg _)). Qed.

Lemma group_not_empty df k :
  k ∈ group_keys df →
  group df k ≠ [].
Proof.
  intros (r & Hr & Hk)%elem_of_group_keys Hnil.
  assert (Hin : r ∈ group df k).
  { by apply list_elem_of_filter. }
  rewrite Hnil in Hin. by apply not_elem_of_nil in Hin.
Qed.

Lemma join_fmap_values {V W} (F : Z * Z * V → Z * Z * W) (h : V → W) frame k :
  (∀ i v, F (i, v) = (i, h v)) → join k (F <$> frame) = h <$> join k frame.
Proof.
  intros HF. induction frame as [|[i v] frame IH]; [done|].
  cbn [fmap list_fmap]. rewrite HF. cbn [join]. rewrite IH.
  by destruct (decide (k = i)).
Qed.

Lemma group_filter (P : registro → Prop) `{∀ r, Decision (P r)} df k :
  group (filter P df) k = filter P (group df k).
Proof.
  unfold group. induction df as [|r df IH]; [done|].
  rewrite !filter_cons. destruct (decide (P r)), (decide (key r = k));
    rewrite ?filter_cons, ?decide_True, ?decide_False by done; by rewrite ?IH.
Qed.

Lemma existsb_elem {A} (f : A → bool) (l : list A) :
  existsb f l = true ↔ ∃ a, a ∈ l ∧ f a = true.
Proof.
  rewrite existsb_exists. split; intros (a & Ha & Hf); exists a;
    (split; [by apply list_elem_of_In|done]).
Qed.

Lemma filter_none {A} (P : A → Prop) `{∀ x, Decision (P x)} (l : list A) :
  (∀ x, x ∈ l → ¬ P x) → filter P l = [].
Proof.
  induction l as [|x l IH]; intros Hl; [done|]. rewrite filter_cons.
  rewrite decide_False by (apply Hl; left). apply IH. intros x' Hx'. apply Hl. by right.
Qed.

Lemma filter_all {A} (P : A → Prop) `{∀ x, Decision (P x)} (l : list A) :
  (∀ x, x ∈ l → P x) → filter P l = l.
Proof.
  induction l as [|x l IH]; intros Hl; [done|]. rewrite filter_cons.
  rewrite decide_True by (apply Hl; left). f_equal. apply IH. intros x' Hx'.
  apply Hl. by right.
Qed.

Lemma elem_of_group df k r : r ∈ group df k ↔ r ∈ df ∧ key r = k.
Proof. unfold group. rewrite list_elem_of_filter. tauto. Qed.

(** The cell of a group in a column of [count_situacao], after the join. *)
Lemma join_count_situacao df k s :
  k ∈ group_keys df →
  cell ((λ f : situacao → Q, f s) <$>
        join k (groupby (filter (λ r, a_situacao r ≠ None) df)
                  (λ g s, NumPy.sum (a_quantidade <$>
                                       filter (λ r, a_situacao r = Some s) g)))) =
  situacao_sum (group df k) s.
Proof.
  intros Hk. rewrite join_groupby. unfold situacao_sum.
  destruct (decide (k ∈ group_keys (filter (λ r, a_situacao r ≠ None) df))) as [Hin|Hin].
  - rewrite (proj2 (existsb_elem _ _)).
    + cbn [fmap option_fmap option_map cell from_option]. do 3 f_equal.
      rewrite group_filter. apply list_filter_filter_l. intros r ->. done.
    + apply elem_of_group_keys in Hin as (r & [Hs Hr]%list_elem_of_filter & Hkr).
      exists r. split; [by apply elem_of_group|]. by apply bool_decide_eq_true.
  - destruct (existsb _ (group df k)) eqn:Hex; [|done].
    apply existsb_elem in Hex as (r & [Hr Hkr]%elem_of_group & Hs%bool_decide_eq_true).
    destruct Hin. apply elem_of_group_keys. exists r. split; [|done].
    by apply list_elem_of_filter.
Qed.

End Groups.

(** ** The uniform labels *)

Section Labels.

Import cluster_characterization.

Lemma prefix_refl (s : string) : String.prefix s s = true.
Proof.
  induction s as [|a s IH]; [done|]. simpl.
  destruct (Ascii.ascii_dec a a) as [_|Hne]; [exact IH|by destruct Hne].
Qed.

Lemma str_contains_refl (s : string) : str_contains s s = true.
Proof.
  destruct s as [|a s]; [done|].
  change (String.prefix (String a s) (String a s) ||
          str_contains (String a s) s = true).
  by rewrite prefix_refl.
Qed.

Lemma str_accessor_spec (col : registro → option string) (df : list registro) :
  str_accessor (col <$> df) = true ↔ df = [] ∨ ∃ r, r ∈ df ∧ col r ≠ None.
Proof.
  destruct df as [|r0 df]; [by split; [left|]|].
  unfold str_accessor. cbn [fmap list_fmap].
  change (col r0 :: (col <$> df)) with (col <$> (r0 :: df)).
  rewrite existsb_elem. split.
  - intros (c & (r & -> & Hr)%list_elem_of_fmap & Hc%bool_decide_eq_true).
    right. by exists r.
  - intros [?|(r & Hr & Hc)]; [done|]. exists (col r).
    split; [by apply list_elem_of_fmap_2|]. by apply bool_decide_eq_true.
Qed.

Lemma text_columns_spec (df : list registro) :
  text_columns df ↔
  str_accessor (d_classificacao <$> df) = true ∧ str_accessor (d_doenca <$> df) = true.
Proof.
  rewrite !str_accessor_spec. unfold text_columns. split.
  - intros [->|[? ?]]; [by split; left|by split; right].
  - intros [[->|?] [?|?]]; try (by left). by right.
Qed.

Lemma standardize_data_spec (df : list registro) :
  (text_columns df ∧ standardize_data df = inr (standardize_row <$> df)) ∨
  (¬ text_columns df ∧ standardize_data df = inl AttributeError).
Proof.
  rewrite text_columns_spec. unfold standardize_data. cbv zeta.
  destruct (str_accessor (d_classificacao <$> df)) eqn:Hc; cbn [negb];
    [|right; split; [by intros [? ?]|done]].
  rewrite <- !list_fmap_compose.
  lazymatch goal with
  | |- context [negb (str_accessor (?f <$> df))] =>
      change (str_accessor (f <$> df)) with (str_accessor (d_doenca <$> df))
  end.
  destruct (str_accessor (d_doenca <$> df)) eqn:Hd; cbn [negb];
    [|right; split; [by intros [? ?]|done]].
  left. split; [done|]. f_equal. apply list_fmap_ext. intros i r _.
  unfold compose, standardize_row. cbv zeta.
  destruct r as [c1 c2 lat long day q sit beh cls dis gc mun uf].
  unfold set_d_doenca, set_d_classificacao. cbn.
  destruct (notna_contains cls (quoted "Confirmada")); [done|].
  destruct (notna_contains cls (quoted "Indeterminada")); [done|].
  by destruct (notna_contains cls (quoted "Descartada")).
Qed.




End Labels.

(** ** Minima and maxima of a column over a group *)

Section Aggregates.

Import cluster_characterization.

Lemma foldl_Zmin_spec (l : list Z) (v : Z) :
  foldl Z.min v l ∈ v :: l ∧ ∀ x, x ∈ v :: l → (foldl Z.min v l <= x)%Z.
Proof.
  revert v. induction l as [|w l IH]; intros v; simpl.
  - split; [left|]. intros x ->%list_elem_of_singleton. lia.
  - destruct (IH (Z.min v w)) as [Hin Hle]. split.
    + apply elem_of_cons in Hin as [Hin|Hin]; [|by do 2 right].
      rewrite Hin. destruct (Z.min_spec v w) as [[_ ->]|[_ ->]]; [left|right; left].
    + intros x Hx. assert (Hm : (foldl Z.min (Z.min v w) l <= Z.min v w)%Z).
      { apply Hle. left. }
      apply elem_of_cons in Hx as [->|[->|Hx]%elem_of_cons]; [lia|lia|].
      apply Hle. by right.
Qed.

Lemma foldl_Zmax_spec (l : list Z) (v : Z) :
  foldl Z.max v l ∈ v :: l ∧ ∀ x, x ∈ v :: l → (x <= foldl Z.max v l)%Z.
Proof.
  revert v. induction l as [|w l IH]; intros v; simpl.
  - split; [left|]. intros x ->%list_elem_of_singleton. lia.
  - destruct (IH (Z.max v w)) as [Hin Hle]. split.
    + apply elem_of_cons in Hin as [Hin|Hin]; [|by do 2 right].
      rewrite Hin. destruct (Z.max_spec v w) as [[_ ->]|[_ ->]]; [right; left|left].
    + intros x Hx. assert (Hm : (Z.max v w <= foldl Z.max (Z.max v w) l)%Z).
      { apply Hle. left. }
      apply elem_of_cons in Hx as [->|[->|Hx]%elem_of_cons]; [lia|lia|].
      apply Hle. by right.
Qed.

Lemma min_Z_spec (l : list Z) :
  l ≠ [] → min_Z l ∈ l ∧ ∀ x, x ∈ l → (min_Z l <= x)%Z.
Proof. destruct l as [|v l]; [done|]. intros _. apply foldl_Zmin_spec. Qed.

Lemma max_Z_spec (l : list Z) :
  l ≠ [] → max_Z l ∈ l ∧ ∀ x, x ∈ l → (x <= max_Z l)%Z.
Proof. destruct l as [|v l]; [done|]. intros _. apply foldl_Zmax_spec. Qed.

Lemma Qmin_cases (a b : Q) : Qmin a b = a ∨ Qmin a b = b.
Proof. unfold Qmin, GenericMinMax.gmin. destruct (a ?= b)%Q; auto. Qed.

Lemma Qmax_cases (a b : Q) : Qmax a b = a ∨ Qmax a b = b.
Proof. unfold Qmax, GenericMinMax.gmax. destruct (a ?= b)%Q; auto. Qed.

Lemma foldl_Qmin_spec (l : list Q) (v : Q) :
  foldl Qmin v l ∈ v :: l ∧ ∀ x, x ∈ v :: l → (foldl Qmin v l <= x)%Q.
Proof.
  revert v. induction l as [|w l IH]; intros v; simpl.
  - split; [left|]. intros x ->%list_elem_of_singleton. apply Qle_refl.
  - destruct (IH (Qmin v w)) as [Hin Hle]. split.
    + apply elem_of_cons in Hin as [Hin|Hin]; [|by do 2 right].
      rewrite Hin. destruct (Qmin_cases v w) as [->| ->]; [left|right; left].
    + intros x Hx. assert (Hm : (foldl Qmin (Qmin v w) l <= Qmin v w)%Q).
      { apply Hle. left. }
      apply elem_of_cons in Hx as [->|[->|Hx]%elem_of_cons].
      * eapply Qle_trans; [exact Hm|apply Q.le_min_l].
      * eapply Qle_trans; [exact Hm|apply Q.le_min_r].
      * apply Hle. by right.
Qed.

Lemma foldl_Qmax_spec (l : list Q) (v : Q) :
  foldl Qmax v l ∈ v :: l ∧ ∀ x, x ∈ v :: l → (x <= foldl Qmax v l)%Q.
Proof.
  revert v. induction l as [|w l IH]; intros v; simpl.
  - split; [left|]. intros x ->%list_elem_of_singleton. apply Qle_refl.
  - destruct (IH (Qmax v w)) as [Hin Hle]. split.
    + apply elem_of_cons in Hin as [Hin|Hin]; [|by do 2 right].
      rewrite Hin. destruct (Qmax_cases v w) as [->| ->]; [left|right; left].
    + intros x Hx. assert (Hm : (Qmax v w <= foldl Qmax (Qmax v w) l)%Q).
      { apply Hle. left. }
      apply elem_of_cons in Hx as [->|[->|Hx]%elem_of_cons].
      * eapply Qle_trans; [apply Q.le_max_l|exact Hm].
      * eapply Qle_trans; [apply Q.le_max_r|exact Hm].
      * apply Hle. by right.
Qed.

Lemma min_Q_spec (l : list Q) :
  l ≠ [] → min_Q l ∈ l ∧ ∀ x, x ∈ l → (min_Q l <= x)%Q.
Proof. destruct l as [|v l]; [done|]. intros _. apply foldl_Qmin_spec. Qed.

Lemma max_Q_spec (l : list Q) :
  l ≠ [] → max_Q l ∈ l ∧ ∀ x, x ∈ l → (x <= max_Q l)%Q.
Proof. destruct l as [|v l]; [done|]. intros _. apply foldl_Qmax_spec. Qed.

End Aggregates.

(** ** Records and rows after the uniform labels *)

Section FeatureLemmas.

Import cluster_characterization.

Lemma group_keys_standardize_data data :
  group_keys (standardize_row <$> data) = group_keys data.
Proof. unfold group_keys. by rewrite <- list_fmap_compose. Qed.

Lemma group_standardize_data data k :
  group (standardize_row <$> data) k = standardize_row <$> group data k.
Proof.
  unfold group.
  induction data as [|r data IH]; [done|].
  cbn [fmap list_fmap]. rewrite !filter_cons.
  change (key (standardize_row r)) with (key r).
  destruct (decide (key r = k)); [cbn [fmap list_fmap]; f_equal|]; exact IH.
Qed.

Lemma has_situacao_standardize_data data s :
  existsb (λ r, bool_decide (a_situacao r = Some s)) (standardize_row <$> data) = true ↔
  has_situacao data s.
Proof.
  rewrite existsb_elem. unfold has_situacao. split.
  - intros (r' & (r & -> & Hr)%list_elem_of_fmap & Hs%bool_decide_eq_true). by exists r.
  - intros (r & Hr & Hs). exists (standardize_row r).
    split; [by apply list_elem_of_fmap_2|]. by apply bool_decide_eq_true.
Qed.

Lemma has_comportamento_standardize_data data c :
  existsb (λ r, bool_decide (a_comportamento r = c)) (standardize_row <$> data) = true ↔
  has_comportamento data c.
Proof.
  rewrite existsb_elem. unfold has_comportamento. split.
  - intros (r' & (r & -> & Hr)%list_elem_of_fmap & Hs%bool_decide_eq_true). by exists r.
  - intros (r & Hr & Hs). exists (standardize_row r).
    split; [by apply list_elem_of_fmap_2|]. by apply bool_decide_eq_true.
Qed.

Lemma confirmada_standardize_row r :
  d_classificacao (standardize_row r) = Some (quoted "Confirmada") ↔
  notna_contains (d_classificacao r) (quoted "Confirmada") = true.
Proof.
  unfold standardize_row. cbv zeta. cbn.
  destruct (notna_contains (d_classificacao r) (quoted "Confirmada")) eqn:Hc; [done|].
  destruct (notna_contains (d_classificacao r) (quoted "Indeterminada")); [done|].
  destruct (notna_contains (d_classificacao r) (quoted "Descartada")); [done|].
  split; [|done]. intros Hraw. rewrite Hraw in Hc.
  change (str_contains (quoted "Confirmada") (quoted "Confirmada") = false) in Hc.
  by rewrite str_contains_refl in Hc.
Qed.

Lemma length_confirmada g :
  length (filter (λ r, d_classificacao r = Some (quoted "Confirmada"))
            (standardize_row <$> g)) =
  length (filter (λ r, notna_contains (d_classificacao r) (quoted "Confirmada") = true) g).
Proof.
  induction g as [|r g IH]; [done|]. cbn [fmap list_fmap]. rewrite !filter_cons.
  destruct (decide (notna_contains (d_classificacao r) (quoted "Confirmada") = true))
    as [Hc|Hc].
  - rewrite decide_True by by apply confirmada_standardize_row. simpl. by rewrite IH.
  - rewrite decide_False; [done|]. by rewrite confirmada_standardize_row.
Qed.

Lemma intervalo_of_spec g :
  intervalo_of g = Z.max 1 (max_Z (r_data <$> g) - min_Z (r_data <$> g)) ∧
  (1 <= intervalo_of g)%Z.
Proof.
  unfold intervalo_of. cbv zeta.
  destruct (Z.ltb_spec 0 (max_Z (r_data <$> g) - min_Z (r_data <$> g))); lia.
Qed.

Lemma fdiv_intervalo (a : Q) (d : Z) :
  (1 <= d)%Z → fdiv (Fin a) (Fin (inject_Z d)) = Fin (a / inject_Z d).
Proof.
  intros Hd. unfold fdiv.
  destruct (Qeq_bool (inject_Z d) 0) eqn:H0; [|done].
  apply Qeq_bool_iff in H0. unfold Qeq in H0. simpl in H0. lia.
Qed.

Lemma total_nonneg (l : list Q) : Forall (λ v, (0 <= v)%Q) l → (0 <= total l)%Q.
Proof.
  induction 1 as [|v l Hv _ IH]; simpl; [done|].
  rewrite <- (Qplus_0_l 0). by apply Qplus_le_compat.
Qed.

Lemma sum_nonneg (l : list Q) : Forall (λ v, (0 <= v)%Q) l → (0 <= NumPy.sum l)%Q.
Proof. intros Hl. rewrite sum_total. by apply total_nonneg. Qed.

Lemma sum_filter_le (P : registro → Prop) `{∀ r, Decision (P r)} (g : list registro) :
  Forall (λ r, (0 <= a_quantidade r)%Q) g →
  (NumPy.sum (a_quantidade <$> filter P g) <= NumPy.sum (a_quantidade <$> g))%Q.
Proof.
  intros Hg. rewrite !sum_total.
  induction Hg as [|r g Hr _ IH]; [done|]. rewrite filter_cons.
  destruct (decide (P r)); cbn [fmap list_fmap total].
  - by apply Qplus_le_compat; [apply Qle_refl|].
  - rewrite <- (Qplus_0_l (total _)). by apply Qplus_le_compat.
Qed.

Lemma filter_standardize_row (P : registro → Prop) `{∀ r, Decision (P r)}
    (g : list registro) :
  (∀ r, P (standardize_row r) ↔ P r) →
  filter P (standardize_row <$> g) = standardize_row <$> filter P g.
Proof.
  intros HP. induction g as [|r g IH]; [done|].
  cbn [fmap list_fmap]. rewrite !filter_cons.
  destruct (decide (P r)) as [Hr|Hr].
  - rewrite decide_True by by apply HP. cbn [fmap list_fmap]. by rewrite IH.
  - rewrite decide_False; [done|]. by rewrite HP.
Qed.

Lemma comportamento_sum_standardize_row g c :
  comportamento_sum (standardize_row <$> g) c = comportamento_sum g c.
Proof.
  unfold comportamento_sum. rewrite filter_standardize_row by done.
  by rewrite <- list_fmap_compose.
Qed.

Lemma situacao_sum_standardize_row g s :
  situacao_sum (standardize_row <$> g) s = situacao_sum g s.
Proof.
  unfold situacao_sum. rewrite filter_standardize_row by done.
  rewrite <- list_fmap_compose.
  replace (existsb (λ r, bool_decide (a_situacao r ≠ None)) (standardize_row <$> g))
    with (existsb (λ r, bool_decide (a_situacao r ≠ None)) g); [done|].
  induction g as [|r g IH]; [done|]. cbn [fmap list_fmap existsb]. by rewrite IH.
Qed.

(** A percentage column: [nan] becomes 0, and a count between 0 and the
    total gives a finite value between 0 and 1. *)
Lemma perc_spec (v : np_float) (a : Q) :
  (v = NaN ∨ ∃ m, v = Fin m ∧ (0 <= m)%Q ∧ (m <= a)%Q) →
  ∃ p, fillna0 (fdiv v (Fin a)) = Fin p ∧ (0 <= p)%Q ∧ (p <= 1)%Q ∧
       (a == 0 → p = 0%Q).
Proof.
  intros [->|(m & -> & Hm0 & Hma)]; [by exists 0%Q|].
  unfold fdiv. destruct (Qeq_bool a 0) eqn:Ha.
  - apply Qeq_bool_iff in Ha.
    assert (Hm : m == 0) by (apply Qle_antisym; [by rewrite <- Ha|done]).
    rewrite (proj2 (Qeq_bool_iff m 0) Hm). by exists 0%Q.
  - apply Qeq_bool_neq in Ha.
    assert (Hpos : (0 < a)%Q).
    { assert (H0a : (0 <= a)%Q) by by eapply Qle_trans.
      apply Qle_lteq in H0a as [|H0a]; [done|]. destruct Ha. by symmetry. }
    exists (m / a)%Q. split; [done|]. split_and!.
    + apply Qle_shift_div_l; [done|]. by rewrite Qmult_0_l.
    + apply Qle_shift_div_r; [done|]. by rewrite Qmult_1_l.
    + intros H0. by destruct Ha.
Qed.

Lemma situacao_sum_cases (g : list registro) (s : situacao) :
  Forall (λ r, (0 <= a_quantidade r)%Q) g →
  situacao_sum g s = NaN ∨
  ∃ m, situacao_sum g s = Fin m ∧ (0 <= m)%Q ∧ (m <= NumPy.sum (a_quantidade <$> g))%Q.
Proof.
  intros Hg. unfold situacao_sum. destruct (existsb _ g); [right|by left].
  eexists. split; [done|]. split; [|by apply sum_filter_le].
  apply sum_nonneg, Forall_fmap, Forall_forall. intros r [_ Hr]%list_elem_of_filter.
  rewrite Forall_forall in Hg. by apply Hg.
Qed.

Lemma comportamento_sum_cases (g : list registro) (c : comportamento) :
  Forall (λ r, (0 <= a_quantidade r)%Q) g →
  (0 <= comportamento_sum g c)%Q ∧
  (comportamento_sum g c <= NumPy.sum (a_quantidade <$> g))%Q.
Proof.
  intros Hg. unfold comportamento_sum. split; [|by apply sum_filter_le].
  apply sum_nonneg, Forall_fmap, Forall_forall. intros r [_ Hr]%list_elem_of_filter.
  rewrite Forall_forall in Hg. by apply Hg.
Qed.

End FeatureLemmas.

(** ** Distinct values, sorted lists and the exploded table *)

Section Exploded.

Import cluster_characterization.

Lemma elem_of_unique {A} `{EqDecision A} (l : list A) (x : A) :
  x ∈ unique l ↔ x ∈ l.
Proof.
  induction l as [|y l IH]; [done|]. cbn [unique].
  rewrite !elem_of_cons, list_elem_of_filter, IH.
  destruct (decide (x = y)); tauto.
Qed.

Lemma NoDup_unique {A} `{EqDecision A} (l : list A) : NoDup (unique l).
Proof.
  induction l as [|y l IH]; cbn [unique]; constructor.
  - rewrite list_elem_of_filter. by intros [? _].
  - by apply NoDup_filter.
Qed.

Lemma filter_unique {A} `{EqDecision A} (P : A → Prop) `{∀ x, Decision (P x)}
    (l : list A) :
  filter P (unique l) = unique (filter P l).
Proof.
  induction l as [|x l IH]; [done|]. cbn [unique]. rewrite !filter_cons.
  destruct (decide (P x)) as [Hx|Hx].
  - cbn [unique]. f_equal. rewrite <- IH, !list_filter_filter.
    apply list_filter_iff. intros y. tauto.
  - rewrite <- IH, list_filter_filter. apply list_filter_iff.
    intros y. split; [tauto|]. intros Hy. split; [done|]. by intros ->.
Qed.

(** The distinct keys of a table that lists, for each key of [ks] in
    turn, one or more rows of that key. *)
Lemma unique_keys {A B} `{EqDecision B} (key : A → B) (f : B → list A) (ks : list B) :
  NoDup ks →
  (∀ k, k ∈ ks → f k ≠ [] ∧ ∀ a, a ∈ f k → key a = k) →
  unique (key <$> (ks ≫= f)) = ks.
Proof.
  induction 1 as [|k ks Hk Hks IH]; intros Hf; [done|].
  rewrite bind_cons, fmap_app.
  destruct (Hf k) as [Hne Hkey]; [left|].
  destruct (f k) as [|a l] eqn:Hfk; [done|].
  cbn [fmap list_fmap app unique]. rewrite (Hkey a) by left. f_equal.
  rewrite filter_unique, filter_app.
  rewrite (filter_none _ (key <$> l)).
  2:{ intros y (a' & -> & Ha')%list_elem_of_fmap Hy. destruct Hy.
      apply Hkey. by right. }
  rewrite filter_all.
  2:{ intros y (a' & -> & (k' & Ha' & Hk')%list_elem_of_bind)%list_elem_of_fmap Heq.
      destruct (Hf k') as [_ Hkey']; [by right|]. rewrite (Hkey' a' Ha') in Heq.
      by subst. }
  apply IH. intros k' Hk'. apply Hf. by right.
Qed.

Lemma filter_keys {A B} `{EqDecision B} (key : A → B) (f : B → list A) (ks : list B)
    (k : B) :
  NoDup ks → k ∈ ks →
  (∀ k a, a ∈ f k → key a = k) →
  filter (λ a, key a = k) (ks ≫= f) = f k.
Proof.
  intros Hnd Hk Hkey. induction Hnd as [|k' ks Hk' Hks IH]; [by apply not_elem_of_nil in Hk|].
  rewrite bind_cons, filter_app.
  apply elem_of_cons in Hk as [->|Hk].
  - rewrite filter_all by (intros a Ha; by apply Hkey).
    rewrite filter_none; [by rewrite app_nil_r|].
    intros a (k'' & Ha & Hk'')%list_elem_of_bind Hak.
    rewrite (Hkey k'' a Ha) in Hak. by subst.
  - rewrite filter_none; [by apply IH|].
    intros a Ha Hak. rewrite (Hkey k' a Ha) in Hak. by subst.
Qed.

Lemma elem_of_insert_sorted (x y : Z) (l : list Z) :
  y ∈ insert_sorted x l ↔ y = x ∨ y ∈ l.
Proof.
  induction l as [|z l IH]; cbn [insert_sorted].
  - rewrite list_elem_of_singleton. split; [by left|].
    intros [?|?%not_elem_of_nil]; done.
  - destruct (x <=? z)%Z; rewrite !elem_of_cons; [done|]. rewrite IH. tauto.
Qed.

Lemma elem_of_sorted (y : Z) (l : list Z) : y ∈ sorted l ↔ y ∈ l.
Proof.
  unfold sorted. induction l as [|x l IH]; [done|]. cbn [foldr].
  by rewrite elem_of_insert_sorted, elem_of_cons, IH.
Qed.

Lemma Sorted_insert_sorted (x : Z) (l : list Z) :
  StronglySorted Z.le l → StronglySorted Z.le (insert_sorted x l).
Proof.
  induction 1 as [|z l Hl IH Hz]; cbn [insert_sorted].
  - repeat constructor.
  - destruct (Z.leb_spec x z).
    + constructor; [by constructor|]. constructor; [done|].
      eapply Forall_impl; [exact Hz|]. intros y Hy. simpl in Hy. lia.
    + constructor; [done|]. apply Forall_forall.
      intros y [->|Hy]%elem_of_insert_sorted; [lia|].
      rewrite Forall_forall in Hz. by apply Hz.
Qed.

Lemma Sorted_sorted (l : list Z) : StronglySorted Z.le (sorted l).
Proof.
  unfold sorted. induction l as [|x l IH]; [constructor|].
  by apply Sorted_insert_sorted.
Qed.

Lemma insert_sorted_Permutation (x : Z) (l : list Z) : insert_sorted x l ≡ₚ x :: l.
Proof.
  induction l as [|z l IH]; cbn [insert_sorted]; [done|].
  destruct (x <=? z)%Z; [done|]. rewrite IH. apply Permutation_swap.
Qed.

Lemma sorted_Permutation (l : list Z) : sorted l ≡ₚ l.
Proof.
  unfold sorted. induction l as [|x l IH]; [done|]. cbn [foldr].
  by rewrite insert_sorted_Permutation, IH.
Qed.

Lemma NoDup_all_equal {A} (l : list A) :
  NoDup l → l ≠ [] → (∀ x y, x ∈ l → y ∈ l → x = y) → ∃ x, l = [x].
Proof.
  intros Hnd Hne Heq. destruct l as [|x [|y l]]; [done|by exists x|].
  apply NoDup_cons in Hnd as [Hx _]. destruct Hx.
  rewrite (Heq x y); [left|left|right; left].
Qed.

Lemma Sorted_lt (l : list Z) :
  StronglySorted Z.le l → NoDup l → StronglySorted Z.lt l.
Proof.
  induction 1 as [|x l Hl IH Hx]; intros Hnd; [constructor|].
  apply NoDup_cons in Hnd as [Hnx Hnd]. constructor; [by apply IH|].
  apply Forall_forall. intros y Hy. rewrite Forall_forall in Hx.
  specialize (Hx y Hy). assert (x ≠ y) by (by intros ->). lia.
Qed.

Lemma merge_app (l1 l2 : list (characteristics * option Z)) right :
  merge (l1 ++ l2) right = merge l1 right ++ merge l2 right.
Proof. unfold merge. apply bind_app. Qed.

Lemma merge_geocodes (c : characteristics) (gs : list Z) right :
  (∀ g, g ∈ gs → ∃ t, t ∈ right ∧ t.1.1 = g) →
  merge ((λ x, (c, Some x)) <$> gs) right =
  gs ≫= λ g,
    (λ t, {| union := c; e_geocode := Some g; e_MUN := Some t.1.2; e_UF := Some t.2 |})
      <$> filter (λ t, t.1.1 = g) right.
Proof.
  induction gs as [|g gs IH]; intros Hgs; [done|].
  cbn [fmap list_fmap].
  change (merge ((c, Some g) :: ((λ x, (c, Some x)) <$> gs)) right)
    with (merge ([(c, Some g)] ++ ((λ x, (c, Some x)) <$> gs)) right).
  rewrite merge_app, IH by (intros g' Hg'; apply Hgs; by right).
  rewrite bind_cons. f_equal.
  unfold merge. rewrite bind_singleton.
  rewrite (list_filter_iff (λ t : Z * string * string, Some t.1.1 = Some g)
             (λ t, t.1.1 = g))
    by (intros t; split; [by intros [= ?]|by intros ->]).
  destruct (filter (λ t : Z * string * string, t.1.1 = g) right) as [|t ts] eqn:Hf;
    [|done].
  destruct (Hgs g) as (t & Ht & Htg); [left|].
  assert (Hin : t ∈ filter (λ t : Z * string * string, t.1.1 = g) right)
    by by apply list_elem_of_filter.
  rewrite Hf in Hin. by apply not_elem_of_nil in Hin.
Qed.

Lemma merge_explode (c : Z * Z → characteristics) (gs : Z * Z → list Z)
    (ks : list (Z * Z)) right :
  (∀ k, k ∈ ks → gs k ≠ [] ∧ ∀ g, g ∈ gs k → ∃ t, t ∈ right ∧ t.1.1 = g) →
  merge (explode ((λ k, (c k, Some (gs k))) <$> ks)) right =
  ks ≫= λ k, gs k ≫= λ g,
    (λ t, {| union := c k; e_geocode := Some g; e_MUN := Some t.1.2; e_UF := Some t.2 |})
      <$> filter (λ t, t.1.1 = g) right.
Proof.
  induction ks as [|k ks IH]; intros Hks; [done|].
  cbn [fmap list_fmap]. unfold explode. rewrite !bind_cons.
  fold (explode ((λ k, (c k, Some (gs k))) <$> ks)).
  rewrite merge_app, IH by (intros k' Hk'; apply Hks; by right). f_equal.
  destruct (Hks k) as [Hne Hg]; [left|].
  rewrite <- (merge_geocodes (c k) (gs k) right Hg).
  by destruct (gs k).
Qed.

Lemma elem_of_rows_of geodesic data k w :
  w ∈ rows_of geodesic data k ↔
  ∃ r r', r ∈ group data k ∧ r' ∈ data ∧ geocode r' = geocode r ∧
    w = {| union := row_of geodesic (standardize_row <$> group data k) k;
           e_geocode := Some (geocode r);
           e_MUN := Some (MUN r'); e_UF := Some (UF r') |}.
Proof.
  unfold rows_of, places. cbv zeta. rewrite list_elem_of_bind. split.
  - intros (g & (t & -> & [Htg Ht]%list_elem_of_filter)%list_elem_of_fmap & Hg).
    apply elem_of_sorted, elem_of_unique, list_elem_of_fmap in Hg as (r & -> & Hr).
    apply elem_of_unique, list_elem_of_fmap in Ht as (r' & -> & Hr').
    by exists r, r'.
  - intros (r & r' & Hr & Hr' & Hg & ->). exists (geocode r). split.
    + apply list_elem_of_fmap. exists (geocode r', MUN r', UF r'). split; [done|].
      apply list_elem_of_filter. split; [done|].
      apply elem_of_unique. by apply (list_elem_of_fmap_2 (λ r, (geocode r, MUN r, UF r))).
    + apply elem_of_sorted, elem_of_unique. by apply list_elem_of_fmap_2.
Qed.

Lemma rows_of_not_empty geodesic data k :
  k ∈ group_keys data → rows_of geodesic data k ≠ [].
Proof.
  intros Hk Hnil. pose proof (group_not_empty data k Hk) as Hg.
  destruct (group data k) as [|r g] eqn:Hgr; [done|].
  assert (Hr : r ∈ group data k) by (rewrite Hgr; left).
  assert (Hin : {| union := row_of geodesic (standardize_row <$> group data k) k;
                   e_geocode := Some (geocode r);
                   e_MUN := Some (MUN r); e_UF := Some (UF r) |}
                ∈ rows_of geodesic data k).
  { apply elem_of_rows_of. exists r, r. split; [done|]. split; [|done].
    by apply elem_of_group in Hr as [? _]. }
  rewrite Hnil in Hin. by apply not_elem_of_nil in Hin.
Qed.

End Exploded.

(** ** The features of the clusters *)

Section Features.

Import cluster_characterization.

Variable geodesic : Q * Q → Q * Q → Q.

Lemma characteristics_written data written :
  calculate_cluster_characteristics geodesic data = inr written →
  written = group_keys data ≫= rows_of geodesic data.
Proof.
  unfold calculate_cluster_characteristics. cbv zeta.
  destruct (standardize_data_spec data) as [[_ ->]|[_ ->]]; [|done].
  set (df := standardize_row <$> data).
  repeat (match goal with
          | |- context [if negb ?b then _ else _] => destruct b; cbn [negb]; [|done]
          end).
  intros [= <-].
  lazymatch goal with
  | |- merge (explode (?G <$> (?F <$> groupby ?d ?agg))) ?right = ?R =>
      assert (Hunion : F <$> groupby d agg =
                       (λ k, row_of geodesic (group d k) k) <$> group_keys d)
  end.
  { lazymatch goal with
    | |- ?F <$> groupby ?d ?agg = ?R =>
        change (F <$> ((λ k, (k, agg (group d k))) <$> group_keys d) = R)
    end.
    rewrite <- list_fmap_compose.
    apply list_fmap_ext. intros i k Hk%list_elem_of_lookup_2. unfold compose.
    rewrite !join_count_situacao by done.
    rewrite !join_groupby. rewrite !decide_True by done.
    unfold calculate_spatial_extent.
    rewrite (join_fmap_values _
               (λ t : Q * Q * Q * Q, geodesic (t.1.1.1, t.1.2) (t.1.1.2, t.2)))
      by (by intros ? [[[? ?] ?] ?]).
    rewrite !join_groupby. rewrite !decide_True by done.
    reflexivity. }
  rewrite Hunion. clear Hunion. rewrite <- list_fmap_compose.
  rewrite (list_fmap_ext _
    (λ k, (row_of geodesic (group df k) k,
           Some (sorted (unique (geocode <$> group df k))))) (group_keys df)).
  2:{ intros i k Hk%list_elem_of_lookup_2. unfold compose.
      cbn [c_Cluster1 c_Cluster2 row_of]. rewrite <- surjective_pairing.
      by rewrite join_groupby, decide_True. }
  rewrite (merge_explode (λ k, row_of geodesic (group df k) k)
             (λ k, sorted (unique (geocode <$> group df k)))).
  2:{ intros k Hk. split.
      - destruct (group df k) as [|r g] eqn:Hg; [by apply group_not_empty in Hk|].
        intros Hnil.
        assert (Hin : geocode r ∈ sorted (unique (geocode <$> r :: g)))
          by (apply elem_of_sorted, elem_of_unique; left).
        rewrite Hnil in Hin. by apply not_elem_of_nil in Hin.
      - intros g (r & -> & [Hr _]%elem_of_group)%elem_of_sorted%elem_of_unique%list_elem_of_fmap.
        exists (geocode r, MUN r, UF r). split; [|done].
        apply elem_of_unique. by apply (list_elem_of_fmap_2 (λ r, (geocode r, MUN r, UF r))). }
  unfold df. rewrite group_keys_standardize_data.
  apply list_bind_ext; [|done]. intros k.
  unfold rows_of, places. cbv zeta.
  by rewrite group_standardize_data, <- !list_fmap_compose.
Qed.

(** X12: the characterization needs text in two columns and a record of
    every category.  On a table with rows it ends in the [AttributeError]
    of [standardize_data] when no record has a classification or no
    record has a disease.  Otherwise it ends in a [KeyError] for the
    column ['sem_info'] when every record has a behaviour, and for the
    column ['vivo'] when some record has no behaviour and no record is
    alive.  It gets to the table it writes exactly when the two columns
    hold text and the table has a record without a behaviour, a live and
    a dead one, and one of each of the four behaviours. *)
Theorem characterization_needs_every_category (data : list registro) :
  (data ≠ [] →
   (∀ r, r ∈ data → d_classificacao r = None) ∨ (∀ r, r ∈ data → d_doenca r = None) →
   calculate_cluster_characteristics geodesic data = inl AttributeError) ∧
  (text_columns data → ¬ has_comportamento data None →
   calculate_cluster_characteristics geodesic data =
     inl (KeyError "['sem_info'] not found in axis")) ∧
  (text_columns data → has_comportamento data None → ¬ has_situacao data Vivo →
   calculate_cluster_characteristics geodesic data = inl (KeyError "vivo")) ∧
  ((∃ written, calculate_cluster_characteristics geodesic data = inr written) ↔
   text_columns data ∧
   has_comportamento data None ∧ has_situacao data Vivo ∧ has_situacao data Morto ∧
   ∀ c, has_comportamento data (Some c)).
Proof.
  pose proof (has_comportamento_standardize_data data) as Hc.
  pose proof (has_situacao_standardize_data data) as Hs.
  unfold calculate_cluster_characteristics. cbv zeta.
  destruct (standardize_data_spec data) as [[Ht ->]|[Ht ->]].
  2:{ split_and!; [done|done|done|]. split; [by intros [? ?]|]. by intros [? _]. }
  assert (Hattr : ¬ (data ≠ [] ∧
    ((∀ r, r ∈ data → d_classificacao r = None) ∨
     (∀ r, r ∈ data → d_doenca r = None)))).
  { intros [Hne Hnone]. destruct Ht as [?|[(r1 & Hr1 & H1) (r2 & Hr2 & H2)]]; [done|].
    destruct Hnone as [Hnone|Hnone]; [by apply H1, Hnone|by apply H2, Hnone]. }
  set (df := standardize_row <$> data) in *.
  destruct (existsb (λ r, bool_decide (a_comportamento r = None)) df) eqn:H0;
    cbn [negb].
  2:{ assert (Hno : ¬ has_comportamento data None).
      { rewrite <- Hc. congruence. }
      split_and!; [by intros ? ?; destruct Hattr|done|done|].
      split; [by intros [? ?]|]. by intros (_ & ? & _). }
  apply Hc in H0.
  destruct (existsb (λ r, bool_decide (a_situacao r = Some Vivo)) df) eqn:H1;
    cbn [negb].
  2:{ assert (Hno : ¬ has_situacao data Vivo).
      { rewrite <- Hs. congruence. }
      split_and!; [by intros ? ?; destruct Hattr|done|done|].
      split; [by intros [? ?]|]. by intros (_ & _ & ? & _). }
  apply Hs in H1.
  destruct (existsb (λ r, bool_decide (a_situacao r = Some Morto)) df) eqn:H2;
    cbn [negb].
  2:{ assert (Hno : ¬ has_situacao data Morto).
      { rewrite <- Hs. congruence. }
      split_and!; [by intros ? ?; destruct Hattr|done|done|].
      split; [by intros [? ?]|]. by intros (_ & _ & _ & ? & _). }
  apply Hs in H2.
  destruct (existsb (λ r, bool_decide (a_comportamento r = Some Normal)) df) eqn:H3;
    cbn [negb].
  2:{ assert (Hno : ¬ has_comportamento data (Some Normal)).
      { rewrite <- Hc. congruence. }
      split_and!; [by intros ? ?; destruct Hattr|done|done|].
      split; [by intros [? ?]|].
      intros (_ & _ & _ & _ & Hall). destruct (Hno (Hall Normal)). }
  apply Hc in H3.
  destruct (existsb (λ r, bool_decide (a_comportamento r = Some Estranho)) df) eqn:H4;
    cbn [negb].
  2:{ assert (Hno : ¬ has_comportamento data (Some Estranho)).
      { rewrite <- Hc. congruence. }
      split_and!; [by intros ? ?; destruct Hattr|done|done|].
      split; [by intros [? ?]|].
      intros (_ & _ & _ & _ & Hall). destruct (Hno (Hall Estranho)). }
  apply Hc in H4.
  destruct (existsb (λ r, bool_decide (a_comportamento r = Some Doente)) df) eqn:H5;
    cbn [negb].
  2:{ assert (Hno : ¬ has_comportamento data (Some Doente)).
      { rewrite <- Hc. congruence. }
      split_and!; [by intros ? ?; destruct Hattr|done|done|].
      split; [by intros [? ?]|].
      intros (_ & _ & _ & _ & Hall). destruct (Hno (Hall Doente)). }
  apply Hc in H5.
  destruct (existsb (λ r, bool_decide (a_comportamento r = Some Agressivo)) df) eqn:H6;
    cbn [negb].
  2:{ assert (Hno : ¬ has_comportamento data (Some Agressivo)).
      { rewrite <- Hc. congruence. }
      split_and!; [by intros ? ?; destruct Hattr|done|done|].
      split; [by intros [? ?]|].
      intros (_ & _ & _ & _ & Hall). destruct (Hno (Hall Agressivo)). }
  apply Hc in H6.
  split_and!; [by intros ? ?; destruct Hattr|done|done|]. split; [|eauto].
  intros _. split_and!; try done. by intros [].
Qed.

Lemma cluster_of_rows_of data k w :
  w ∈ rows_of geodesic data k → cluster_of w = k.
Proof.
  intros (r & r' & _ & _ & _ & ->)%elem_of_rows_of.
  unfold cluster_of. cbn [union c_Cluster1 c_Cluster2 row_of].
  by rewrite <- surjective_pairing.
Qed.

Lemma elem_of_written data written w :
  calculate_cluster_characteristics geodesic data = inr written → w ∈ written →
  ∃ k, k ∈ group_keys data ∧ group data k ≠ [] ∧ cluster_of w = k ∧
       union w = row_of geodesic (standardize_row <$> group data k) k.
Proof.
  intros Hw%characteristics_written Hin. rewrite Hw in Hin.
  apply list_elem_of_bind in Hin as (k & Hin & Hk).
  exists k. split; [done|]. split; [by apply group_not_empty|].
  split; [by eapply cluster_of_rows_of|].
  by apply elem_of_rows_of in Hin as (r & r' & _ & _ & _ & ->).
Qed.

(** X13: the clusters of the table that is written.  The table lists the
    clusters, which are the pairs of labels of the records, in increasing
    order of the pair, with one or more rows for each; the rows of a
    cluster hold the same features.  A row holds the number of records of
    its cluster (at least 1) as [num_reg], the sum of their quantities as
    [a_quant], and as [confirmado] the number of its records whose
    classification, as read, mentions "Confirmada". *)
Theorem written_table_lists_each_cluster (data : list registro)
    (written : list exploded) :
  calculate_cluster_characteristics geodesic data = inr written →
  unique (cluster_of <$> written) = group_keys data ∧
  NoDup (group_keys data) ∧
  StronglySorted (λ a b, key_lt a b = true) (group_keys data) ∧
  (∀ k, k ∈ group_keys data ↔ ∃ r, r ∈ data ∧ key r = k) ∧
  (∀ w w', w ∈ written → w' ∈ written → cluster_of w = cluster_of w' →
           union w = union w') ∧
  ∀ w, w ∈ written →
    let c := union w in
    let g := group data (cluster_of w) in
    num_reg c = length g ∧ 0 < num_reg c ∧
    a_quant c = NumPy.sum (a_quantidade <$> g) ∧
    confirmado c =
      Fin (inject_Z (Z.of_nat (length
        (filter (λ r, notna_contains (d_classificacao r) (quoted "Confirmada") = true)
                g)))).
Proof.
  intros Hrows. split_and!.
  - rewrite (characteristics_written data written Hrows).
    apply unique_keys; [apply NoDup_group_keys|].
    intros k Hk. split; [by apply rows_of_not_empty|].
    intros w. apply cluster_of_rows_of.
  - apply NoDup_group_keys.
  - apply Sorted_group_keys.
  - apply elem_of_group_keys.
  - intros w w' Hw Hw' Heq.
    destruct (elem_of_written data written w Hrows Hw) as (k & _ & _ & Hk & ->).
    destruct (elem_of_written data written w' Hrows Hw') as (k' & _ & _ & Hk' & ->).
    by rewrite <- Hk, <- Hk', Heq.
  - intros w Hw. cbv zeta.
    destruct (elem_of_written data written w Hrows Hw) as (k & Hk & Hg & -> & ->).
    cbn [row_of num_reg a_quant confirmado]. split_and!.
    + by rewrite length_fmap.
    + rewrite length_fmap. destruct (group data k); [done|simpl; lia].
    + by rewrite <- list_fmap_compose.
    + by rewrite length_confirmada.
Qed.

(** X14: the dates and the frequencies of a cluster.  [data_ini] and
    [data_fim] are the dates of its first and of its last record;
    [intervalo] is the number of days between them and 1 when that is 0,
    so that it is at least 1 and the frequencies are never divided by
    zero: [freq_num_reg] is the finite value [num_reg / intervalo], above
    0 and at most [num_reg].  A cluster of one record has an interval of
    1 day. *)
Theorem interval_is_at_least_one_day (data : list registro)
    (written : list exploded) (w : exploded) :
  calculate_cluster_characteristics geodesic data = inr written → w ∈ written →
  let c := union w in
  let g := group data (cluster_of w) in
  (∀ r, r ∈ g → (data_ini c <= r_data r <= data_fim c)%Z) ∧
  (∃ r, r ∈ g ∧ r_data r = data_ini c) ∧
  (∃ r, r ∈ g ∧ r_data r = data_fim c) ∧
  intervalo c = Z.max 1 (data_fim c - data_ini c) ∧
  (1 <= intervalo c)%Z ∧
  (∃ q, freq_num_reg c = Fin q ∧
        q == inject_Z (Z.of_nat (num_reg c)) / inject_Z (intervalo c) ∧
        (0 < q)%Q ∧ (q <= inject_Z (Z.of_nat (num_reg c)))%Q) ∧
  (∃ q, freq_a_quant c = Fin q ∧ q == a_quant c / inject_Z (intervalo c)) ∧
  (num_reg c = 1 → intervalo c = 1%Z ∧ data_ini c = data_fim c).
Proof.
  intros Hrows Hw. cbv zeta.
  destruct (elem_of_written data written w Hrows Hw) as (k & Hk & Hg & -> & ->).
  set (g := group data k) in *.
  assert (Hdates : r_data <$> (standardize_row <$> g) = r_data <$> g)
    by by rewrite <- list_fmap_compose.
  assert (Hne : r_data <$> g ≠ []) by by destruct g.
  destruct (min_Z_spec (r_data <$> g) Hne) as [Hmin_in Hmin].
  destruct (max_Z_spec (r_data <$> g) Hne) as [Hmax_in Hmax].
  destruct (intervalo_of_spec (standardize_row <$> g)) as [Hint Hint1].
  assert (Hlen : 0 < length g) by (destruct g; [done|simpl; lia]).
  unfold row_of. cbv zeta.
  cbn [data_ini data_fim intervalo freq_num_reg freq_a_quant num_reg a_quant].
  rewrite !fdiv_intervalo by done. rewrite !Hdates in *. rewrite length_fmap.
  split_and!.
  - intros r Hr. split; [apply Hmin|apply Hmax]; by apply list_elem_of_fmap_2.
  - apply list_elem_of_fmap in Hmin_in as (r & Hr & Hin). by exists r.
  - apply list_elem_of_fmap in Hmax_in as (r & Hr & Hin). by exists r.
  - done.
  - done.
  - eexists. split; [done|]. split; [done|].
    assert (Hd : (0 < inject_Z (intervalo_of (standardize_row <$> g)))%Q).
    { change 0%Q with (inject_Z 0). rewrite <- Zlt_Qlt. lia. }
    assert (Hn : (0 < inject_Z (Z.of_nat (length g)))%Q).
    { change 0%Q with (inject_Z 0). rewrite <- Zlt_Qlt. lia. }
    split.
    + apply Qlt_shift_div_l; [done|]. by rewrite Qmult_0_l.
    + apply Qle_shift_div_r; [done|].
      rewrite <- (Qmult_1_r (inject_Z (Z.of_nat (length g)))) at 1.
      apply Qmult_le_l; [done|].
      change 1%Q with (inject_Z 1). by rewrite <- Zle_Qle.
  - eexists. split; [done|]. by rewrite <- list_fmap_compose.
  - intros Hone. destruct g as [|r [|r' g']]; try done.
    rewrite Hint. cbn. split; [lia|done].
Qed.

(** X15: the percentage columns of a cluster, on a table whose quantities
    are not negative.  Each of the six columns is a finite value between
    0 and 1, also where the cluster has a total of 0 animals (the
    quotient [nan] is replaced by 0).  A cluster none of whose records
    has a situation has [nan] as [morto], [vivo], [freq_morto] and
    [freq_vivo], and 0 as [perc_mortos] and [perc_vivos].  A cluster none
    of whose records has a behaviour has 0 in the four behaviour
    columns. *)
Theorem percentages_are_between_0_and_1 (data : list registro)
    (written : list exploded) (w : exploded) :
  (∀ r, r ∈ data → (0 <= a_quantidade r)%Q) →
  calculate_cluster_characteristics geodesic data = inr written → w ∈ written →
  let c := union w in
  let g := group data (cluster_of w) in
  (∀ v, v ∈ [perc_mortos c; perc_vivos c; perc_normal c; perc_estranho c;
             perc_doente c; perc_agressivo c] →
        ∃ p, v = Fin p ∧ (0 <= p)%Q ∧ (p <= 1)%Q ∧ (a_quant c == 0 → p = 0%Q)) ∧
  ((∀ r, r ∈ g → a_situacao r = None) →
   morto c = NaN ∧ vivo c = NaN ∧ freq_morto c = NaN ∧ freq_vivo c = NaN ∧
   perc_mortos c = Fin 0 ∧ perc_vivos c = Fin 0) ∧
  ((∀ r, r ∈ g → a_comportamento r = None) →
   normal c = Fin 0 ∧ estranho c = Fin 0 ∧ doente c = Fin 0 ∧ agressivo c = Fin 0).
Proof.
  intros Hdata Hrows Hw. cbv zeta.
  destruct (elem_of_written data written w Hrows Hw) as (k & Hk & Hg & -> & ->).
  set (g := group data k) in *.
  assert (Hpos : Forall (λ r, (0 <= a_quantidade r)%Q) g).
  { apply Forall_forall. intros r [Hr _]%elem_of_group. by apply Hdata. }
  unfold row_of. cbv zeta.
  cbn [perc_mortos perc_vivos perc_normal perc_estranho perc_doente perc_agressivo
       morto vivo freq_morto freq_vivo normal estranho doente agressivo a_quant].
  rewrite !situacao_sum_standardize_row, !comportamento_sum_standardize_row.
  rewrite <- !list_fmap_compose.
  change (a_quantidade ∘ standardize_row) with a_quantidade.
  split_and!.
  - intros v Hv. repeat (apply elem_of_cons in Hv as [->|Hv]);
      [apply perc_spec, situacao_sum_cases, Hpos..| | | | |by apply not_elem_of_nil in Hv];
      apply perc_spec; right; eexists; (split; [done|]);
      by apply comportamento_sum_cases.
  - intros Hnone.
    assert (Hsit : ∀ s, situacao_sum g s = NaN).
    { intros s. unfold situacao_sum.
      destruct (existsb _ g) eqn:Hex; [|done].
      apply existsb_elem in Hex as (r & Hr & Hs%bool_decide_eq_true).
      by rewrite (Hnone r Hr) in Hs. }
    by rewrite !Hsit.
  - intros Hnone.
    assert (Hbeh : ∀ b, comportamento_sum g b = 0%Q).
    { intros b. unfold comportamento_sum.
      replace (filter (λ r, a_comportamento r = Some b) g) with (@nil registro); [done|].
      symmetry. apply filter_none. intros r Hr. by rewrite (Hnone r Hr). }
    by rewrite !Hbeh.
Qed.

(** X16: the spatial extent.  [calculate_spatial_extent] gives one value
    for each cluster: the geodesic distance between the corner of the
    smallest latitude and longitude and the corner of the largest
    latitude and longitude of its records.  Every record of the cluster
    lies between the two corners, each of the four bounds is the
    coordinate of one of its records, and the extent of a cluster whose
    records are all at one place is the distance from that place to
    itself.  The column [extensao] of the table that is written holds
    that value. *)
Theorem spatial_extent_spans_the_bounding_box (df : list registro) :
  (calculate_spatial_extent geodesic df).*1 = group_keys df ∧
  (∀ k e, (k, e) ∈ calculate_spatial_extent geodesic df →
     let g := group df k in
     ∃ lat_min lat_max long_min long_max,
       e = geodesic (lat_min, long_min) (lat_max, long_max) ∧
       (∀ r, r ∈ g →
          (lat_min <= r_lat r)%Q ∧ (r_lat r <= lat_max)%Q ∧
          (long_min <= r_long r)%Q ∧ (r_long r <= long_max)%Q) ∧
       (∃ r, r ∈ g ∧ r_lat r = lat_min) ∧ (∃ r, r ∈ g ∧ r_lat r = lat_max) ∧
       (∃ r, r ∈ g ∧ r_long r = long_min) ∧ (∃ r, r ∈ g ∧ r_long r = long_max) ∧
       (∀ p, (∀ r, r ∈ g → (r_lat r, r_long r) = p) → e = geodesic p p)) ∧
  (∀ written w,
     calculate_cluster_characteristics geodesic df = inr written → w ∈ written →
     ∃ e, extensao (union w) = Fin e ∧
          (cluster_of w, e) ∈ calculate_spatial_extent geodesic df).
Proof.
  assert (Hext : calculate_spatial_extent geodesic df =
    (λ k, (k, geodesic
                (min_Q (r_lat <$> group df k), min_Q (r_long <$> group df k))
                (max_Q (r_lat <$> group df k), max_Q (r_long <$> group df k))))
      <$> group_keys df).
  { unfold calculate_spatial_extent, groupby. cbv zeta.
    by rewrite <- list_fmap_compose. }
  split_and!.
  - rewrite Hext, <- list_fmap_compose.
    rewrite <- (list_fmap_id (group_keys df)) at 2. by apply list_fmap_ext.
  - intros k e. rewrite Hext. intros (k' & [= <- ->] & Hk)%list_elem_of_fmap. cbv zeta.
    set (g := group df k).
    assert (Hg : g ≠ []) by by apply group_not_empty.
    assert (Hlat : r_lat <$> g ≠ []) by by destruct g.
    assert (Hlong : r_long <$> g ≠ []) by by destruct g.
    destruct (min_Q_spec _ Hlat) as [Hlat_min_in Hlat_min].
    destruct (max_Q_spec _ Hlat) as [Hlat_max_in Hlat_max].
    destruct (min_Q_spec _ Hlong) as [Hlong_min_in Hlong_min].
    destruct (max_Q_spec _ Hlong) as [Hlong_max_in Hlong_max].
    eexists _, _, _, _. split; [done|]. split_and!.
    + intros r Hr.
      split_and!; [apply Hlat_min|apply Hlat_max|apply Hlong_min|apply Hlong_max];
        by apply list_elem_of_fmap_2.
    + apply list_elem_of_fmap in Hlat_min_in as (r & Hr & Hin). by exists r.
    + apply list_elem_of_fmap in Hlat_max_in as (r & Hr & Hin). by exists r.
    + apply list_elem_of_fmap in Hlong_min_in as (r & Hr & Hin). by exists r.
    + apply list_elem_of_fmap in Hlong_max_in as (r & Hr & Hin). by exists r.
    + intros p Hp.
      apply list_elem_of_fmap in Hlat_min_in as (r1 & Hr1 & Hin1).
      apply list_elem_of_fmap in Hlat_max_in as (r2 & Hr2 & Hin2).
      apply list_elem_of_fmap in Hlong_min_in as (r3 & Hr3 & Hin3).
      apply list_elem_of_fmap in Hlong_max_in as (r4 & Hr4 & Hin4).
      rewrite Hr1, Hr2, Hr3, Hr4.
      pose proof (Hp r1 Hin1) as H1. pose proof (Hp r2 Hin2) as H2.
      pose proof (Hp r3 Hin3) as H3. pose proof (Hp r4 Hin4) as H4.
      destruct p as [plat plong].
      injection H1 as E1 _. injection H2 as E2 _.
      injection H3 as _ E3. injection H4 as _ E4. by rewrite E1, E2, E3, E4.
  - intros written w Hrows Hw.
    destruct (elem_of_written df written w Hrows Hw) as (k & Hk & Hg & -> & ->).
    cbn [row_of extensao].
    eexists. split; [done|]. rewrite Hext.
    apply list_elem_of_fmap. exists k. split; [|done].
    by rewrite <- !list_fmap_compose.
Qed.

Lemma NoDup_rows_of data k : NoDup (rows_of geodesic data k).
Proof.
  unfold rows_of. cbv zeta. apply NoDup_bind.
  - intros g1 g2 w _ _ (t1 & -> & _)%list_elem_of_fmap (t2 & [= -> _ _] & _)%list_elem_of_fmap.
    done.
  - intros g _. apply NoDup_fmap_2_strong; [|apply NoDup_filter, NoDup_unique].
    intros [[g1 m1] u1] [[g2 m2] u2] [Hg1 _]%list_elem_of_filter
      [Hg2 _]%list_elem_of_filter [= -> ->].
    simpl in *. by subst.
  - rewrite sorted_Permutation. apply NoDup_unique.
Qed.

(** X17: the rows of the table that is written.  A cluster has a row
    with the geocode [g] and the names [m] and [u] exactly when one of
    its records has the geocode [g] and some record of the table, of this
    or of another cluster, lists [m] and [u] for [g].  No cell of the
    three columns is missing and no row is written twice.  Where every
    geocode of the table is listed with one pair of names, the rows of a
    cluster are one for each geocode of its records, in increasing order
    of the geocode. *)
Theorem written_table_has_a_row_for_each_municipality (data : list registro)
    (written : list exploded) :
  calculate_cluster_characteristics geodesic data = inr written →
  (∀ k g m u,
     (∃ w, w ∈ written ∧ cluster_of w = k ∧
           e_geocode w = Some g ∧ e_MUN w = Some m ∧ e_UF w = Some u) ↔
     (∃ r r', r ∈ data ∧ key r = k ∧ geocode r = g ∧
              r' ∈ data ∧ geocode r' = g ∧ MUN r' = m ∧ UF r' = u)) ∧
  (∀ w, w ∈ written → e_geocode w ≠ None ∧ e_MUN w ≠ None ∧ e_UF w ≠ None) ∧
  NoDup written ∧
  ((∀ r r', r ∈ data → r' ∈ data → geocode r = geocode r' →
            MUN r = MUN r' ∧ UF r = UF r') →
   ∀ k, k ∈ group_keys data →
     ∃ gs, e_geocode <$> filter (λ w, cluster_of w = k) written = Some <$> gs ∧
           StronglySorted Z.lt gs ∧
           ∀ g, g ∈ gs ↔ ∃ r, r ∈ data ∧ key r = k ∧ geocode r = g).
Proof.
  intros Hrows. pose proof (characteristics_written data written Hrows) as ->.
  split_and!.
  - intros k g m u. split.
    + intros (w & (k' & Hw & Hk')%list_elem_of_bind & <- & Hg & Hm & Hu).
      rewrite (cluster_of_rows_of data k' w Hw).
      apply elem_of_rows_of in Hw as (r & r' & [Hr Hkr]%elem_of_group & Hr' & Hgr & ->).
      cbn in Hg, Hm, Hu. exists r, r'. by simplify_eq.
    + intros (r & r' & Hr & <- & <- & Hr' & Hg & <- & <-).
      eexists. split_and!.
      * apply list_elem_of_bind. exists (key r). split.
        -- apply elem_of_rows_of. exists r, r'. split; [by apply elem_of_group|done].
        -- apply elem_of_group_keys. by exists r.
      * unfold cluster_of. cbn [union c_Cluster1 c_Cluster2 row_of].
        by rewrite <- surjective_pairing.
      * done.
      * done.
      * done.
  - intros w (k & (r & r' & _ & _ & _ & ->)%elem_of_rows_of & _)%list_elem_of_bind.
    done.
  - apply NoDup_bind; [|intros; apply NoDup_rows_of|apply NoDup_group_keys].
    intros k1 k2 w _ _ H1 H2.
    by rewrite <- (cluster_of_rows_of data k1 w H1), <- (cluster_of_rows_of data k2 w H2).
  - intros Hfun k Hk.
    rewrite (filter_keys cluster_of (rows_of geodesic data) _ k
               (NoDup_group_keys data) Hk)
      by (intros k' w Hw; by apply (cluster_of_rows_of data k' w)).
    exists (sorted (unique (geocode <$> group data k))). split_and!.
    + unfold rows_of. cbv zeta.
      assert (Hone : ∀ g, g ∈ sorted (unique (geocode <$> group data k)) →
                ∃ t, filter (λ t : Z * string * string, t.1.1 = g) (places data) = [t]).
      { intros g (r & -> & [Hr _]%elem_of_group)%elem_of_sorted%elem_of_unique%list_elem_of_fmap.
        apply NoDup_all_equal.
        - apply NoDup_filter, NoDup_unique.
        - intros Hnil.
          assert (Hin : (geocode r, MUN r, UF r) ∈
                        filter (λ t : Z * string * string, t.1.1 = geocode r) (places data)).
          { apply list_elem_of_filter. split; [done|]. apply elem_of_unique.
            by apply (list_elem_of_fmap_2 (λ r, (geocode r, MUN r, UF r))). }
          rewrite Hnil in Hin. by apply not_elem_of_nil in Hin.
        - intros t1 t2 [Hg1 (r1 & -> & Hr1)%elem_of_unique%list_elem_of_fmap]%list_elem_of_filter
            [Hg2 (r2 & -> & Hr2)%elem_of_unique%list_elem_of_fmap]%list_elem_of_filter.
          simpl in Hg1, Hg2.
          destruct (Hfun r1 r2 Hr1 Hr2) as [-> ->]; [congruence|]. by rewrite Hg1, Hg2. }
      induction (sorted (unique (geocode <$> group data k))) as [|g gs IH]; [done|].
      rewrite bind_cons, fmap_app, IH by (intros g' Hg'; apply Hone; by right).
      destruct (Hone g) as [t ->]; [left|]. done.
    + apply Sorted_lt; [apply Sorted_sorted|].
      rewrite sorted_Permutation. apply NoDup_unique.
    + intros g. rewrite elem_of_sorted, elem_of_unique, list_elem_of_fmap. split.
      * intros (r & -> & [Hr Hkr]%elem_of_group). by exists r.
      * intros (r & Hr & Hkr & <-). exists r. split; [done|]. by apply elem_of_group.
Qed.

End Features.

(** ** Sample run of the characterization

    The conditions of the theorems above hold on the sample table, with
    the planar stand-in for the geodesic. *)

Section SampleFeatures.

Import cluster_characterization.

Lemma sample_quantities :
  ∀ r, r ∈ sample_registros → (0 <= a_quantidade r)%Q.
Proof. apply Forall_forall. repeat constructor; by vm_compute. Qed.

Lemma written_table_lists_each_cluster_witness :
  ∃ written,
    calculate_cluster_characteristics planar_km sample_registros = inr written ∧
    unique (cluster_of <$> written) = [(0, 0); (1, -1); (2, -1); (3, -1)]%Z.
Proof.
  destruct (calculate_cluster_characteristics planar_km sample_registros)
    as [e|written] eqn:H1; [by vm_compute in H1|].
  exists written. split; [done|].
  exact (proj1 (written_table_lists_each_cluster planar_km
                  sample_registros written H1)).
Defined.

Lemma interval_is_at_least_one_day_witness :
  ∃ written w,
    calculate_cluster_characteristics planar_km sample_registros = inr written ∧
    w ∈ written ∧
    intervalo (union w) = Z.max 1 (data_fim (union w) - data_ini (union w)) ∧
    (1 <= intervalo (union w))%Z.
Proof.
  destruct (calculate_cluster_characteristics planar_km sample_registros)
    as [e|[|w written]] eqn:H1; [by vm_compute in H1..|].
  assert (H2 : w ∈ w :: written) by left.
  destruct (interval_is_at_least_one_day planar_km sample_registros (w :: written) w
              H1 H2) as (_ & _ & _ & Hint & Hone & _).
  exists (w :: written), w. split; [done|]. split; [exact H2|].
  split; [exact Hint|exact Hone].
Defined.

Lemma percentages_are_between_0_and_1_witness :
  (∀ r, r ∈ sample_registros → (0 <= a_quantidade r)%Q) ∧
  ∃ written w p,
    calculate_cluster_characteristics planar_km sample_registros = inr written ∧
    w ∈ written ∧ perc_mortos (union w) = Fin p ∧ (0 <= p)%Q ∧ (p <= 1)%Q.
Proof.
  split; [exact sample_quantities|].
  destruct (calculate_cluster_characteristics planar_km sample_registros)
    as [e|[|w written]] eqn:H1; [by vm_compute in H1..|].
  assert (H2 : w ∈ w :: written) by left.
  destruct (percentages_are_between_0_and_1 planar_km sample_registros (w :: written) w
              sample_quantities H1 H2) as (Hperc & _).
  destruct (Hperc (perc_mortos (union w))) as (p & Hp & H0 & Hle & _); [left|].
  exists (w :: written), w, p. split; [done|]. split; [exact H2|]. by split.
Defined.

Lemma written_table_has_a_row_for_each_municipality_witness :
  ∃ written,
    calculate_cluster_characteristics planar_km sample_registros = inr written ∧
    NoDup written ∧
    ∃ w, w ∈ written ∧ cluster_of w = (0, 0)%Z ∧ e_geocode w = Some 3547809%Z ∧
         e_MUN w = Some "Santo Andre" ∧ e_UF w = Some "SP".
Proof.
  destruct (calculate_cluster_characteristics planar_km sample_registros)
    as [e|written] eqn:H1; [by vm_compute in H1|].
  destruct (written_table_has_a_row_for_each_municipality planar_km sample_registros
              written H1) as (Hrows & _ & Hnd & _).
  exists written. split; [done|]. split; [exact Hnd|].
  apply Hrows.
  destruct (sample_registros !! 2) as [r|] eqn:Hr; [|by vm_compute in Hr].
  exists r, r. apply list_elem_of_lookup_2 in Hr as Hin.
  injection Hr as <-. by split_and!.
Defined.

End SampleFeatures.
